(** * Training log: hierarchy, entry keys, patch overlay and merge

    A shallow embedding of the data model and of the core operations of
    [app.js]: the entry key codec ([entryKey] and the split used by
    [renderOverview]), the navigation helpers ([getPeriod] .. [getExercise]),
    the entry resolver ([getPatchedEntry], [applyPatchToEntry]), the overlay
    writer ([saveEntryPatch]), the export merge ([mergeBaseWithEdits]), the
    selection fallback ([ensureSelected]), the structure manager handlers
    wired by [wireManager], the routes ([makeHash], [parseHash],
    [initFromHash]), the selects of the navigation bar, the handlers of the
    exercise view and the rows of the recent edits.

    Modelling conventions.
    - JavaScript objects used as dictionaries (the [edits] map, a patch, a
      resolved entry) are [gmap string _]; the base document is a tree of
      records following the shape the code reads.
    - Numbers are finite decimals [mant / 10^scale] plus [NaN]; the integers
      are the numbers of scale 0.  Infinities and the binary rounding of
      doubles are outside the model.  [Number] of a text is modelled on plain
      signed decimal literals and [String] of a number without exponent
      notation; exponent, hexadecimal and [Infinity] texts, and numbers from
      1e21 up or below 1e-6, are outside the model, and the properties below
      apply [Number] to the decimal text of integers only.
    - Strings are sequences of 8-bit characters, the code units below 256;
      white space ([trim]) and case ([toLowerCase]) are those of ECMAScript
      on these characters.
    - A handler that returns early after a toast, or that raises a TypeError
      on an undefined node, leaves the state as it was; this is made explicit
      by the [outcome] type.
    - The host is modelled where the code depends on it: [location.hash]
      keeps a route in the percent-encoded form of the URL Standard, and
      [localeCompare] is a parameter of which only the sign is used. *)

From Stdlib Require Import ZArith List Ascii String.
From Stdlib Require Import Decimal DecimalString DecimalPos DecimalZ.
From stdpp Require Import gmap strings list fin_maps sorting.

#[local] Set Warnings "-register-all".
#[local] Open Scope string_scope.
#[local] Open Scope list_scope.
#[local] Open Scope nat_scope.

(** ** Characters and strings *)

Definition is_digit (c : ascii) : bool :=
  let n := nat_of_ascii c in (48 <=? n)%nat && (n <=? 57)%nat.

(** ECMAScript white space and line terminators among the 8-bit characters:
    TAB, LF, VT, FF, CR, the space and the no-break space U+00A0. *)
Definition is_ws (c : ascii) : bool :=
  let n := nat_of_ascii c in
  ((9 <=? n)%nat && (n <=? 13)%nat) || (n =? 32)%nat || (n =? 160)%nat.

Fixpoint string_forallb (P : ascii → bool) (s : string) : bool :=
  match s with
  | EmptyString => true
  | String c r => P c && string_forallb P r
  end.

Fixpoint trimStart (s : string) : string :=
  match s with
  | EmptyString => EmptyString
  | String c r => if is_ws c then trimStart r else s
  end.

Fixpoint trimEnd (s : string) : string :=
  match s with
  | EmptyString => EmptyString
  | String c r =>
      match trimEnd r with
      | EmptyString => if is_ws c then EmptyString else String c EmptyString
      | t => String c t
      end
  end.

(** [String.prototype.trim]. *)
Definition trim (s : string) : string := trimEnd (trimStart s).

Example trim_examples :
  trim "  Squat (paused) " = "Squat (paused)"
  ∧ trim (String (ascii_of_nat 160) (String (ascii_of_nat 9) "a b"
            +:+ String (ascii_of_nat 160) EmptyString)) = "a b"
  ∧ trim (String (ascii_of_nat 160) EmptyString) = EmptyString.
Proof. vm_compute. repeat split. Qed.

(** [Array.prototype.join] on an array of strings. *)
Fixpoint join (sepr : string) (l : list string) : string :=
  match l with
  | [] => EmptyString
  | x :: r =>
      match r with
      | [] => x
      | _ :: _ => x +:+ sepr +:+ join sepr r
      end
  end.

(** [String.prototype.split] with a one-character separator: the number of
    segments is the number of separators plus one. *)
Fixpoint split (sepc : ascii) (s : string) : list string :=
  match s with
  | EmptyString => [EmptyString]
  | String c r =>
      if Ascii.eqb c sepc then EmptyString :: split sepc r
      else match split sepc r with
           | [] => [String c EmptyString]
           | h :: t => String c h :: t
           end
  end.

Definition has_char (c : ascii) (s : string) : bool :=
  negb (string_forallb (fun x => negb (Ascii.eqb x c)) s).

(** ** Numbers *)

(** A finite number [mant / 10^scale]. *)
Record num := Num { mant : Z; scale : nat }.

Definition Int (z : Z) : num := Num z 0.

Inductive jsnum := NaN | Fin (n : num).

Definition pow10 (k : nat) : Z := (10 ^ Z.of_nat k)%Z.

Definition num_eqb (a b : num) : bool :=
  (mant a * pow10 (scale b) =? mant b * pow10 (scale a))%Z.

Definition num_ltb (a b : num) : bool :=
  (mant a * pow10 (scale b) <? mant b * pow10 (scale a))%Z.

Definition num_leb (a b : num) : bool :=
  (mant a * pow10 (scale b) <=? mant b * pow10 (scale a))%Z.

(** [a - b], exact. *)
Definition num_sub (a b : num) : num :=
  Num (mant a * pow10 (scale b) - mant b * pow10 (scale a))%Z
      (scale a + scale b).

Definition num_is_int (a : num) : bool :=
  (mant a mod pow10 (scale a) =? 0)%Z.

(** [x === y] on numbers: [NaN] equals nothing. *)
Definition jsnum_eqb (x y : jsnum) : bool :=
  match x, y with
  | Fin a, Fin b => num_eqb a b
  | _, _ => false
  end.

(** [x < y] on numbers: false when either side is [NaN]. *)
Definition jsnum_ltb (x y : jsnum) : bool :=
  match x, y with
  | Fin a, Fin b => num_ltb a b
  | _, _ => false
  end.

(** [!x] on a number: [NaN] and zero are falsy. *)
Definition jsnum_falsy (x : jsnum) : bool :=
  match x with
  | NaN => true
  | Fin a => (mant a =? 0)%Z
  end.

(** Decimal text of an integer. *)
Definition decimal (z : Z) : string := NilZero.string_of_int (Z.to_int z).

(** Strip the trailing zeros of the fraction. *)
Fixpoint num_norm (m : Z) (k : nat) : num :=
  match k with
  | O => Num m 0
  | S k' => if (m mod 10 =? 0)%Z then num_norm (m / 10)%Z k' else Num m k
  end.

Fixpoint zeros (n : nat) : string :=
  match n with
  | O => EmptyString
  | S n' => String "0" (zeros n')
  end.

Definition pad_left (k : nat) (s : string) : string :=
  zeros (k - String.length s) +:+ s.

(** [Number.prototype.toString] on a finite number. *)
Definition numToString (a : num) : string :=
  let n := num_norm (mant a) (scale a) in
  match scale n with
  | O => decimal (mant n)
  | S _ =>
      let v := Z.abs (mant n) in
      (if (mant n <? 0)%Z then "-" else "")
        +:+ decimal (v / pow10 (scale n))
        +:+ "."
        +:+ pad_left (scale n) (decimal (v mod pow10 (scale n)))
  end.

Definition jsnumToString (x : jsnum) : string :=
  match x with
  | NaN => "NaN"
  | Fin a => numToString a
  end.

(** Cut a string at its first occurrence of [c]. *)
Fixpoint cut_at (c : ascii) (s : string) : string * option string :=
  match s with
  | EmptyString => (EmptyString, None)
  | String x r =>
      if Ascii.eqb x c then (EmptyString, Some r)
      else let '(a, b) := cut_at c r in (String x a, b)
  end.

Definition digits_value (s : string) : option Z :=
  option_map Z.of_uint (NilEmpty.uint_of_string s).

(** An unsigned decimal literal: digits, optionally a point and digits, with
    at least one digit overall. *)
Definition unsigned_literal (s : string) : option num :=
  let '(ip, fp) := cut_at "." s in
  let fr := match fp with Some f => f | None => EmptyString end in
  if (String.length ip + String.length fr =? 0)%nat then None
  else option_map (fun v => Num v (String.length fr)) (digits_value (ip +:+ fr)).

(** [Number(s)] on a string: white space is trimmed, the empty string is 0,
    a signed decimal literal is its value, and the other texts read [NaN]
    here; among them the exponent, hexadecimal and [Infinity] literals, which
    [Number] reads as numbers, are outside the model. *)
Definition stringToNumber (s : string) : jsnum :=
  match trim s with
  | EmptyString => Fin (Int 0)
  | String c r =>
      if Ascii.eqb c "-" then
        match unsigned_literal r with
        | Some a => Fin (Num (- mant a) (scale a))
        | None => NaN
        end
      else if Ascii.eqb c "+" then
        match unsigned_literal r with Some a => Fin a | None => NaN end
      else
        match unsigned_literal (String c r) with Some a => Fin a | None => NaN end
  end.

(** ** Values *)

(** JSON-like values carried by exercise fields and patches. *)
Inductive jsval :=
  | VUndef
  | VNull
  | VBool (b : bool)
  | VNum (n : jsnum)
  | VStr (s : string)
  | VArr (l : list jsval)
  | VObj (o : list (string * jsval)).

(** Truthiness, as used by [||] and [!]. *)
Definition truthy (v : jsval) : bool :=
  match v with
  | VUndef | VNull => false
  | VBool b => b
  | VNum n => negb (jsnum_falsy n)
  | VStr s => negb (String.eqb s "")
  | VArr _ | VObj _ => true
  end.

(** [a || b]. *)
Definition js_or (a b : jsval) : jsval := if truthy a then a else b.

(** The values a selection component or a locator argument takes: an absent
    route token, [null], a number or a string. *)
Inductive lval :=
  | LUndef
  | LNull
  | LNum (n : jsnum)
  | LStr (s : string).

Definition lval_to_js (v : lval) : jsval :=
  match v with
  | LUndef => VUndef
  | LNull => VNull
  | LNum n => VNum n
  | LStr s => VStr s
  end.

(** [!v]. *)
Definition falsy (v : lval) : bool := negb (truthy (lval_to_js v)).

(** [String(v)]. *)
Definition toString (v : lval) : string :=
  match v with
  | LUndef => "undefined"
  | LNull => "null"
  | LNum n => jsnumToString n
  | LStr s => s
  end.

(** [Number(v)]. *)
Definition toNumber (v : lval) : jsnum :=
  match v with
  | LUndef => NaN
  | LNull => Fin (Int 0)
  | LNum n => n
  | LStr s => stringToNumber s
  end.

(** The conversion [Array.prototype.join] applies to an element: [null] and
    [undefined] become the empty string. *)
Definition joinElem (v : lval) : string :=
  match v with
  | LUndef | LNull => EmptyString
  | _ => toString v
  end.

(** [s === v] for a string [s]. *)
Definition str_strict_eq (s : string) (v : lval) : bool :=
  match v with
  | LStr t => String.eqb s t
  | _ => false
  end.

(** ** Entry keys *)

(** [entryKey]: the five components joined with a vertical bar. *)
Definition entryKey (periodId blockId week day exerciseId : lval) : string :=
  join "|" (map joinElem [periodId; blockId; week; day; exerciseId]).

(** The destructuring [const [periodId, blockId, week, day, exerciseId] =
    k.split("|")] of [renderOverview]: positions beyond the array are
    [undefined], extra segments are dropped. *)
Definition seg (l : list string) (i : nat) : lval :=
  match l !! i with
  | Some s => LStr s
  | None => LUndef
  end.

Definition splitKey (k : string) : lval * lval * lval * lval * lval :=
  let l := split "|" k in
  (seg l 0, seg l 1, seg l 2, seg l 3, seg l 4).

Example numToString_examples :
  numToString (Int 12) = "12" ∧ numToString (Num 15 1) = "1.5" ∧
  numToString (Num (-250) 3) = "-0.25" ∧ numToString (Num 5 2) = "0.05" ∧
  numToString (Num 0 2) = "0" ∧ numToString (Num 300 2) = "3".
Proof. vm_compute. repeat split. Qed.

Example stringToNumber_examples :
  stringToNumber "1.5" = Fin (Num 15 1) ∧ stringToNumber " 12 " = Fin (Int 12) ∧
  stringToNumber "" = Fin (Int 0) ∧ stringToNumber "abc" = NaN ∧
  stringToNumber "-3" = Fin (Int (-3)) ∧ stringToNumber "01" = Fin (Int 1) ∧
  stringToNumber "." = NaN ∧ stringToNumber ".5" = Fin (Num 5 1).
Proof. vm_compute. repeat split. Qed.

Example entryKey_example :
  entryKey (LStr "serie-1-2026") (LNum (Fin (Int 1))) (LNum (Fin (Int 3)))
           (LStr "2") (LStr "squat") = "serie-1-2026|1|3|2|squat"
  ∧ split "|" "a|1||x" = ["a"; "1"; ""; "x"]
  ∧ entryKey (LStr "p") LNull LNull LNull LNull = "p||||".
Proof. vm_compute. repeat split. Qed.

(** ** The base document *)

Record exercise := Exercise {
  ex_id : string;
  ex_name : string;
  work : jsval;
  videos : jsval;
  lifterComment : jsval;
  coachComment : jsval;
  updatedAt : jsval
}.

Record day := Day {
  day_num : num;
  label : string;
  exercises : list exercise
}.

Record week := Week {
  week_num : num;
  days : list day
}.

Record block := Block {
  block_id : num;
  weeks : list week
}.

Record period := Period {
  period_id : string;
  period_name : string;
  blocks : list block
}.

Record document := Document { periods : list period }.

(** A patch is an object keyed by field name, [gmap string jsval]; so is a
    resolved entry.  The overlay ([edits]) maps entry keys to patches. *)

(** The selection [sel]. *)
Record selection := Selection {
  periodId : lval;
  blockId : lval;
  sel_week : lval;
  sel_day : lval;
  exerciseId : lval
}.

(** The in-memory state: [baseData], [edits] and [sel]. *)
Record state := State {
  baseData : document;
  edits : gmap string (gmap string jsval);
  sel : selection
}.

(** ** Navigation helpers *)

Definition period_matches (v : lval) (p : period) : bool :=
  str_strict_eq (period_id p) v.

Definition block_matches (v : lval) (b : block) : bool :=
  String.eqb (toString (LNum (Fin (block_id b)))) (toString v).

Definition week_matches (v : lval) (w : week) : bool :=
  jsnum_eqb (toNumber (LNum (Fin (week_num w)))) (toNumber v).

Definition day_matches (v : lval) (d : day) : bool :=
  jsnum_eqb (toNumber (LNum (Fin (day_num d)))) (toNumber v).

Definition exercise_matches (v : lval) (e : exercise) : bool :=
  str_strict_eq (ex_id e) v.

Definition getPeriod (doc : document) (pid : lval) : option period :=
  find (period_matches pid) (periods doc).

Definition getBlock (p : period) (bid : lval) : option block :=
  find (block_matches bid) (blocks p).

Definition getWeek (b : block) (wk : lval) : option week :=
  find (week_matches wk) (weeks b).

Definition getDay (w : week) (dy : lval) : option day :=
  find (day_matches dy) (days w).

Definition getExercise (d : day) (eid : lval) : option exercise :=
  find (exercise_matches eid) (exercises d).

(** The chain of the five lookups, stopping at the first that fails. *)
Definition lookupChain (doc : document) (pid bid wk dy eid : lval)
  : option (period * block * week * day * exercise) :=
  p ← getPeriod doc pid;
  b ← getBlock p bid;
  w ← getWeek b wk;
  d ← getDay w dy;
  e ← getExercise d eid;
  Some (p, b, w, d, e).

(** ** Patches *)

(** The fields a patch can override. *)
Definition overlayable : list string :=
  ["work"; "videos"; "lifterComment"; "coachComment"; "updatedAt"].

(** [if (typeof patch.k === "string") out.k = patch.k] *)
Definition assign_if_string (k : string) (pt out : gmap string jsval)
  : gmap string jsval :=
  match pt !! k with
  | Some (VStr s) => <[k := VStr s]> out
  | _ => out
  end.

(** [if (Array.isArray(patch.k)) out.k = [...patch.k]] *)
Definition assign_if_array (k : string) (pt out : gmap string jsval)
  : gmap string jsval :=
  match pt !! k with
  | Some (VArr l) => <[k := VArr l]> out
  | _ => out
  end.

(** [applyPatchToEntry]: the entry itself when there is no patch, otherwise a
    copy of the entry with the five guarded assignments. *)
Definition applyPatchToEntry (e : gmap string jsval)
    (pt : option (gmap string jsval)) : gmap string jsval :=
  match pt with
  | None => e
  | Some pt =>
      assign_if_string "updatedAt" pt
        (assign_if_string "coachComment" pt
           (assign_if_string "lifterComment" pt
              (assign_if_array "videos" pt
                 (assign_if_string "work" pt e))))
  end.

(** The object literal [getPatchedEntry] builds before patching. *)
Definition baseEntry (pid : lval) (p : period) (b : block) (w : week)
    (d : day) (ex : exercise) : gmap string jsval :=
  <["periodId" := lval_to_js pid]>
  (<["periodName" := VStr (period_name p)]>
  (<["blockId" := VNum (Fin (block_id b))]>
  (<["week" := VNum (Fin (week_num w))]>
  (<["day" := VNum (Fin (day_num d))]>
  (<["exerciseId" := VStr (ex_id ex)]>
  (<["exerciseName" := VStr (ex_name ex)]>
  (<["work" := js_or (work ex) (VStr "")]>
  (<["videos" := match videos ex with VArr l => VArr l | _ => VArr [] end]>
  (<["lifterComment" := js_or (lifterComment ex) (VStr "")]>
  (<["coachComment" := js_or (coachComment ex) (VStr "")]>
  (<["updatedAt" := js_or (updatedAt ex) VNull]> ∅))))))))))).

(** [getPatchedEntry]; [None] is the [null] result. *)
Definition getPatchedEntry (doc : document) (ed : gmap string (gmap string jsval))
    (pid bid wk dy eid : lval) : option (gmap string jsval) :=
  match getPeriod doc pid with
  | None => None
  | Some p =>
    match getBlock p bid with
    | None => None
    | Some b =>
      match getWeek b wk with
      | None => None
      | Some w =>
        match getDay w dy with
        | None => None
        | Some d =>
          match getExercise d eid with
          | None => None
          | Some ex =>
              let key := entryKey pid bid wk dy eid in
              Some (applyPatchToEntry (baseEntry pid p b w d ex) (ed !! key))
          end
        end
      end
    end
  end.

(** The decoding in the loop of [renderOverview] (lines 400-401), on the text
    [k] that is split, which is the [k] field of the row: the five segments,
    week and day read with [Number], and the entry [getPatchedEntry] gives
    for them. *)
Definition overviewEntry (doc : document) (ed : gmap string (gmap string jsval))
    (k : string) : option (gmap string jsval) :=
  let '(pid, bid, wk, dy, eid) := splitKey k in
  getPatchedEntry doc ed pid bid (LNum (toNumber wk)) (LNum (toNumber dy)) eid.

(** The rows of the recent edits (lines 385-387).  [{k, ...edits[k]}]: the
    fields of the patch, and [k] holding the overlay key unless the patch has
    a field of that name, which then takes its place. *)
Definition recentItem (k : string) (pt : gmap string jsval) : gmap string jsval :=
  pt ∪ {["k" := VStr k]}.

(** [.filter(x => x.updatedAt)] *)
Definition recentListed (x : gmap string jsval) : bool :=
  truthy (default VUndef (x !! "updatedAt")).

(** The rows before [sort] and [slice(0, 12)]; [keys] is [Object.keys(edits)]
    in the order the host gives them. *)
Definition recentCandidates (keys : list string)
    (ed : gmap string (gmap string jsval)) : list (gmap string jsval) :=
  List.filter recentListed (omap (fun k => recentItem k <$> ed !! k) keys).

(** [.sort(...).slice(0, 12)] (lines 388-389), the rows the loop visits.
    [hostSort] stands for the sort of the host with the comparator
    [(a, b) => b.updatedAt.localeCompare(a.updatedAt)]: it gives the rows in
    some order, or [None] when the comparison raises (an [updatedAt] that is
    not a string has no [localeCompare]). *)
Definition recentRows
    (hostSort : list (gmap string jsval) → option (list (gmap string jsval)))
    (keys : list string) (ed : gmap string (gmap string jsval))
  : option (list (gmap string jsval)) :=
  take 12 <$> hostSort (recentCandidates keys ed).

(** What the body of the loop does with a row [r]: it raises a TypeError when
    [r.k] is not a string ([split] is not a function of it), it skips the row
    when no entry is resolved, and it draws the entry otherwise. *)
Inductive row :=
  | Drawn (entry : gmap string jsval)
  | Skipped
  | Raised.

Definition overviewRow (doc : document) (ed : gmap string (gmap string jsval))
    (r : gmap string jsval) : row :=
  match r !! "k" with
  | Some (VStr s) =>
      match overviewEntry doc ed s with
      | Some e => Drawn e
      | None => Skipped
      end
  | _ => Raised
  end.

(** [saveEntryPatch]; [now] is the value of [nowIso()] at the call.  The
    spread [{...prev, ...partialPatch, updatedAt: now}] lets the later
    source win. *)
Definition selKey (s : selection) : string :=
  entryKey (periodId s) (blockId s) (sel_week s) (sel_day s) (exerciseId s).

Definition nextPatch (prev partialPatch : gmap string jsval) (now : string)
  : gmap string jsval :=
  <["updatedAt" := VStr now]> (partialPatch ∪ prev).

Definition saveEntryPatch (now : string) (partialPatch : gmap string jsval)
    (st : state) : state :=
  let key := selKey (sel st) in
  let prev := default ∅ (edits st !! key) in
  let next := nextPatch prev partialPatch now in
  State (baseData st) (<[key := next]> (edits st)) (sel st).

(** ** Export merge *)

(** [JSON.parse(JSON.stringify(v))] on a value: [NaN] and the [undefined]
    elements of an array become [null], properties holding [undefined] are
    dropped. *)
Fixpoint jsonClone (v : jsval) : jsval :=
  match v with
  | VNum NaN => VNull
  | VArr l =>
      VArr (map (fun x => match x with VUndef => VNull | _ => jsonClone x end) l)
  | VObj o =>
      VObj (flat_map (fun kv => match kv with
                               | (_, VUndef) => []
                               | (k, x) => [(k, jsonClone x)]
                               end) o)
  | _ => v
  end.

Definition cloneExercise (e : exercise) : exercise :=
  Exercise (ex_id e) (ex_name e) (jsonClone (work e)) (jsonClone (videos e))
           (jsonClone (lifterComment e)) (jsonClone (coachComment e))
           (jsonClone (updatedAt e)).

Definition cloneDay (d : day) : day :=
  Day (day_num d) (label d) (map cloneExercise (exercises d)).
Definition cloneWeek (w : week) : week :=
  Week (week_num w) (map cloneDay (days w)).
Definition cloneBlock (b : block) : block :=
  Block (block_id b) (map cloneWeek (weeks b)).
Definition clonePeriod (p : period) : period :=
  Period (period_id p) (period_name p) (map cloneBlock (blocks p)).

(** The deep clone [JSON.parse(JSON.stringify(base))]. *)
Definition deepClone (doc : document) : document :=
  Document (map clonePeriod (periods doc)).

(** The five guarded assignments of the merge loop body. *)
Definition patchExercise (pt : gmap string jsval) (ex : exercise) : exercise :=
  Exercise (ex_id ex) (ex_name ex)
    (match pt !! "work" with Some (VStr s) => VStr s | _ => work ex end)
    (match pt !! "videos" with Some (VArr l) => VArr l | _ => videos ex end)
    (match pt !! "lifterComment" with Some (VStr s) => VStr s | _ => lifterComment ex end)
    (match pt !! "coachComment" with Some (VStr s) => VStr s | _ => coachComment ex end)
    (match pt !! "updatedAt" with Some (VStr s) => VStr s | _ => updatedAt ex end).

Definition exerciseKey (p : period) (b : block) (w : week) (d : day)
    (ex : exercise) : string :=
  entryKey (LStr (period_id p)) (LNum (Fin (block_id b)))
           (LNum (Fin (week_num w))) (LNum (Fin (day_num d))) (LStr (ex_id ex)).

Definition mergeExercise (m : gmap string (gmap string jsval)) (p : period)
    (b : block) (w : week) (d : day) (ex : exercise) : exercise :=
  match m !! exerciseKey p b w d ex with
  | None => ex
  | Some pt => patchExercise pt ex
  end.

Definition mergeDay m (p : period) (b : block) (w : week) (d : day) : day :=
  Day (day_num d) (label d) (map (mergeExercise m p b w d) (exercises d)).
Definition mergeWeek m (p : period) (b : block) (w : week) : week :=
  Week (week_num w) (map (mergeDay m p b w) (days w)).
Definition mergeBlock m (p : period) (b : block) : block :=
  Block (block_id b) (map (mergeWeek m p b) (weeks b)).
Definition mergePeriod m (p : period) : period :=
  Period (period_id p) (period_name p) (map (mergeBlock m p) (blocks p)).

(** The nested loops of [mergeBaseWithEdits] over a document [out]. *)
Definition mergeLoops (m : gmap string (gmap string jsval)) (out : document)
  : document :=
  Document (map (mergePeriod m) (periods out)).

(** [mergeBaseWithEdits]. *)
Definition mergeBaseWithEdits (base : document)
    (editsMap : gmap string (gmap string jsval)) : document :=
  mergeLoops editsMap (deepClone base).

(** ** Array helpers *)

(** The element [find] returns is mutated in place by the callers; on the
    tree this rewrites the first element that satisfies the predicate. *)
Fixpoint modify_first {A} (P : A → bool) (f : A → A) (l : list A) : list A :=
  match l with
  | [] => []
  | x :: r => if P x then f x :: r else x :: modify_first P f r
  end.

(** [findIndex] followed by [splice(idx, 1)]; [None] when the index is -1. *)
Fixpoint remove_first {A} (P : A → bool) (l : list A) : option (list A) :=
  match l with
  | [] => None
  | x :: r => if P x then Some r else cons x <$> remove_first P r
  end.

(** [Array.prototype.sort] with a comparator, of which only the sign is
    used; the sort is stable. *)
Fixpoint sort_insert {A} (cmp : A → A → Z) (x : A) (l : list A) : list A :=
  match l with
  | [] => [x]
  | y :: r => if (cmp x y <=? 0)%Z then x :: l else y :: sort_insert cmp x r
  end.

Fixpoint js_sort {A} (cmp : A → A → Z) (l : list A) : list A :=
  match l with
  | [] => []
  | x :: r => sort_insert cmp x (js_sort cmp r)
  end.

(** The sign of [Number(a) - Number(b)]. *)
Definition num_cmp (a b : num) : Z := Z.sgn (mant (num_sub a b)).

(** ** slugify *)

(** [toLowerCase] on an 8-bit character: A-Z and the capital letters of the
    upper half (U+00C0 to U+00DE, the multiplication sign U+00D7 apart) move
    32 places up, every other character stays. *)
Definition lower (c : ascii) : ascii :=
  let n := nat_of_ascii c in
  if ((65 <=? n)%nat && (n <=? 90)%nat)
     || ((192 <=? n)%nat && (n <=? 222)%nat && negb (n =? 215)%nat)
  then ascii_of_nat (n + 32) else c.

Definition is_slug_char (c : ascii) : bool :=
  let n := nat_of_ascii c in
  ((97 <=? n)%nat && (n <=? 122)%nat) || is_digit c.

Definition is_quote (c : ascii) : bool :=
  let n := nat_of_ascii c in (n =? 39)%nat || (n =? 34)%nat.

Fixpoint string_map (f : ascii → ascii) (s : string) : string :=
  match s with
  | EmptyString => EmptyString
  | String c r => String (f c) (string_map f r)
  end.

Fixpoint string_filter (P : ascii → bool) (s : string) : string :=
  match s with
  | EmptyString => EmptyString
  | String c r => if P c then String c (string_filter P r) else string_filter P r
  end.

(** [replace(/[^a-z0-9]+/g, "-")]. *)
Fixpoint dash_runs (in_run : bool) (s : string) : string :=
  match s with
  | EmptyString => EmptyString
  | String c r =>
      if is_slug_char c then String c (dash_runs false r)
      else if in_run then dash_runs true r
      else String "-" (dash_runs true r)
  end.

Fixpoint drop_last_dash (s : string) : string :=
  match s with
  | EmptyString => EmptyString
  | String c r =>
      match r with
      | EmptyString => if Ascii.eqb c "-" then EmptyString else s
      | String _ _ => String c (drop_last_dash r)
      end
  end.

(** [replace(/(^-|-$)/g, "")]. *)
Definition strip_dashes (s : string) : string :=
  drop_last_dash
    (match s with
     | String c r => if Ascii.eqb c "-" then r else s
     | EmptyString => EmptyString
     end).

Definition slugify (s : string) : string :=
  strip_dashes
    (dash_runs false
       (string_filter (fun c => negb (is_quote c)) (string_map lower (trim s)))).

(** ** Selection fallback *)

Definition placeholderExercise : exercise :=
  Exercise "exercise-1" "Exercise 1" (VStr "") (VArr []) (VStr "") (VStr "") VNull.

Definition placeholderDay : day := Day (Int 1) "Day 1" [].

Definition placeholderPeriod : period :=
  Period "period-1" "Period 1" [Block (Int 1) [Week (Int 1) [placeholderDay]]].

(** [if (!a.length) a.push(x)]. *)
Definition push_if_empty {A} (x : A) (l : list A) : list A :=
  match l with
  | [] => [x]
  | _ :: _ => l
  end.

Definition is_none {A} (o : option A) : bool :=
  match o with
  | None => true
  | Some _ => false
  end.

(** The exercise level of [ensureSelected], on the day [d] reached by the
    selection.  [None] stands for the TypeError of reading a property of
    [undefined]. *)
Definition ensureExercise (d : day) (eid : lval) : option (day * lval) :=
  let d1 := Day (day_num d) (label d) (push_if_empty placeholderExercise (exercises d)) in
  if falsy eid || is_none (getExercise d1 eid)
  then e0 ← head (exercises d1); Some (d1, LStr (ex_id e0))
  else Some (d1, eid).

Definition ensureDay (w : week) (dy eid : lval) : option (week * lval * lval) :=
  let w1 := Week (week_num w) (push_if_empty (Day (Int 1) "Day 1" []) (days w)) in
  '(dy1, eid1) ←
    (if falsy dy || is_none (getDay w1 dy)
     then d0 ← head (days w1); Some (LNum (Fin (day_num d0)), LNull)
     else Some (dy, eid));
  d ← getDay w1 dy1;
  '(d', eid2) ← ensureExercise d eid1;
  Some (Week (week_num w1) (modify_first (day_matches dy1) (fun _ => d') (days w1)),
        dy1, eid2).

Definition ensureWeek (b : block) (wk dy eid : lval)
  : option (block * lval * lval * lval) :=
  let b1 := Block (block_id b) (push_if_empty (Week (Int 1) []) (weeks b)) in
  '(wk1, dy1, eid1) ←
    (if falsy wk || is_none (getWeek b1 wk)
     then w0 ← head (weeks b1); Some (LNum (Fin (week_num w0)), LNull, LNull)
     else Some (wk, dy, eid));
  w ← getWeek b1 wk1;
  '(w', dy2, eid2) ← ensureDay w dy1 eid1;
  Some (Block (block_id b1) (modify_first (week_matches wk1) (fun _ => w') (weeks b1)),
        wk1, dy2, eid2).

Definition ensureBlock (p : period) (bid wk dy eid : lval)
  : option (period * lval * lval * lval * lval) :=
  let p1 := Period (period_id p) (period_name p)
                   (push_if_empty (Block (Int 1) []) (blocks p)) in
  '(bid1, wk1, dy1, eid1) ←
    (if falsy bid || is_none (getBlock p1 bid)
     then b0 ← head (blocks p1); Some (LNum (Fin (block_id b0)), LNull, LNull, LNull)
     else Some (bid, wk, dy, eid));
  b ← getBlock p1 bid1;
  '(b', wk2, dy2, eid2) ← ensureWeek b wk1 dy1 eid1;
  Some (Period (period_id p1) (period_name p1)
               (modify_first (block_matches bid1) (fun _ => b') (blocks p1)),
        bid1, wk2, dy2, eid2).

(** [ensureSelected] on the document and the selection. *)
Definition ensureSelection (doc : document) (s : selection)
  : option (document * selection) :=
  let doc1 := Document (push_if_empty placeholderPeriod (periods doc)) in
  s1 ←
    (if falsy (periodId s) || is_none (getPeriod doc1 (periodId s))
     then p0 ← head (periods doc1);
          Some (Selection (LStr (period_id p0)) LNull LNull LNull LNull)
     else Some s);
  p ← getPeriod doc1 (periodId s1);
  '(p', bid, wk, dy, eid) ←
    ensureBlock p (blockId s1) (sel_week s1) (sel_day s1) (exerciseId s1);
  Some (Document (modify_first (period_matches (periodId s1)) (fun _ => p') (periods doc1)),
        Selection (periodId s1) bid wk dy eid).

(** [ensureSelected]: the overlay is not touched. *)
Definition ensureSelected (st : state) : option state :=
  '(doc, s) ← ensureSelection (baseData st) (sel st);
  Some (State doc (edits st) s).

(** ** The selection defaults of renderNav *)

(** [x || null] on the identifier of a first child. *)
Definition str_or_null (s : string) : lval :=
  if String.eqb s "" then LNull else LStr s.
Definition num_or_null (n : num) : lval :=
  if jsnum_falsy (Fin n) then LNull else LNum (Fin n).

(** The selection [renderNav] leaves: each falsy component is replaced by the
    identifier of the first option, and the walk stops where a lookup returns
    [undefined] (the list helper then throws). *)
Definition renderNav (doc : document) (s : selection) : selection :=
  let pid := if falsy (periodId s)
             then match periods doc with
                  | p0 :: _ => str_or_null (period_id p0)
                  | [] => LNull
                  end
             else periodId s in
  let s1 := Selection pid (blockId s) (sel_week s) (sel_day s) (exerciseId s) in
  match getPeriod doc pid with
  | None => s1
  | Some p =>
    let bid := if falsy (blockId s)
               then match blocks p with
                    | b0 :: _ => num_or_null (block_id b0)
                    | [] => LNull
                    end
               else blockId s in
    let s2 := Selection pid bid (sel_week s) (sel_day s) (exerciseId s) in
    match getBlock p bid with
    | None => s2
    | Some b =>
      let wk := if falsy (sel_week s)
                then match weeks b with
                     | w0 :: _ => num_or_null (week_num w0)
                     | [] => LNull
                     end
                else sel_week s in
      let s3 := Selection pid bid wk (sel_day s) (exerciseId s) in
      match getWeek b wk with
      | None => s3
      | Some w =>
        let dy := if falsy (sel_day s)
                  then match days w with
                       | d0 :: _ => num_or_null (day_num d0)
                       | [] => LNull
                       end
                  else sel_day s in
        let s4 := Selection pid bid wk dy (exerciseId s) in
        match getDay w dy with
        | None => s4
        | Some d =>
          let eid := if falsy (exerciseId s)
                     then match exercises d with
                          | e0 :: _ => str_or_null (ex_id e0)
                          | [] => LNull
                          end
                     else exerciseId s in
          Selection pid bid wk dy eid
        end
      end
    end
  end.

(** ** Structure manager *)

(** How a click handler ends: it ran to its mutation ([Completed], with the
    state it leaves), it returned early after a toast ([Rejected]), or it
    raised a TypeError on an undefined node ([Threw], with the state at that
    point).  The confirmation dialog of the removal handlers is taken as
    accepted. *)
Inductive outcome :=
  | Completed (st : state)
  | Rejected (msg : string)
  | Threw (st : state).

(** The state once the handler is over. *)
Definition state_after (st0 : state) (o : outcome) : state :=
  match o with
  | Completed st => st
  | Rejected _ => st0
  | Threw st => st
  end.

(** Writing a node back on the path it was found on. *)
Definition put_period (pid : lval) (p' : period) (doc : document) : document :=
  Document (modify_first (period_matches pid) (fun _ => p') (periods doc)).
Definition put_block (bid : lval) (b' : block) (p : period) : period :=
  Period (period_id p) (period_name p)
         (modify_first (block_matches bid) (fun _ => b') (blocks p)).
Definition put_week (wk : lval) (w' : week) (b : block) : block :=
  Block (block_id b) (modify_first (week_matches wk) (fun _ => w') (weeks b)).
Definition put_day (dy : lval) (d' : day) (w : week) : week :=
  Week (week_num w) (modify_first (day_matches dy) (fun _ => d') (days w)).

(** The common tail of the handlers: [ensureSelected()] then [renderNav()];
    the remaining calls only draw. *)
Definition finish (st : state) : outcome :=
  match ensureSelected st with
  | None => Threw st
  | Some st' =>
      Completed (State (baseData st') (edits st')
                       (renderNav (baseData st') (sel st')))
  end.

(** [!x || x < 1] *)
Definition invalid_number (x : jsnum) : bool :=
  jsnum_falsy x || jsnum_ltb x (Fin (Int 1)).

(** [Number(b.id) === Number(v)], the test of the block removal. *)
Definition block_number_matches (v : lval) (b : block) : bool :=
  jsnum_eqb (toNumber (LNum (Fin (block_id b)))) (toNumber v).

Section Manager.

(** [String.prototype.localeCompare] is supplied by the host; only its sign
    is used. *)
Variable localeCompare : string → string → Z.

(** btnAddPeriod; [input] is the value of the name field. *)
Definition addPeriod (input : string) (st : state) : outcome :=
  let name := trim input in
  if String.eqb name "" then Rejected "Enter a period name"
  else
    let id := slugify name in
    if existsb (fun p => String.eqb (period_id p) id) (periods (baseData st))
    then Rejected "That period already exists"
    else
      finish (State (Document (periods (baseData st) ++ [Period id name []]))
                    (edits st)
                    (Selection (LStr id) LNull LNull LNull LNull)).

(** btnAddBlock; [x] is [Number] of the value of the number field. *)
Definition addBlock (x : jsnum) (st : state) : outcome :=
  let s := sel st in
  let op := getPeriod (baseData st) (periodId s) in
  if invalid_number x then Rejected "Enter a valid block number"
  else
    match op, x with
    | None, _ => Threw st
    | Some p, NaN => Rejected "Enter a valid block number"
    | Some p, Fin n =>
        if existsb (fun b => jsnum_eqb (toNumber (LNum (Fin (block_id b)))) x) (blocks p)
        then Rejected "Block already exists"
        else
          let p' := Period (period_id p) (period_name p)
                      (js_sort (fun a b => num_cmp (block_id a) (block_id b))
                               (blocks p ++ [Block n []])) in
          finish (State (put_period (periodId s) p' (baseData st))
                        (edits st)
                        (Selection (periodId s) (LNum x) LNull LNull LNull))
    end.

(** btnAddWeek. *)
Definition addWeek (x : jsnum) (st : state) : outcome :=
  let s := sel st in
  match getPeriod (baseData st) (periodId s) with
  | None => Threw st
  | Some p =>
    let ob := getBlock p (blockId s) in
    if invalid_number x then Rejected "Enter a valid week number"
    else
      match ob, x with
      | None, _ => Threw st
      | Some b, NaN => Rejected "Enter a valid week number"
      | Some b, Fin n =>
          if existsb (fun w => jsnum_eqb (toNumber (LNum (Fin (week_num w)))) x) (weeks b)
          then Rejected "Week already exists"
          else
            let b' := Block (block_id b)
                        (js_sort (fun a c => num_cmp (week_num a) (week_num c))
                                 (weeks b ++ [Week n []])) in
            finish (State (put_period (periodId s) (put_block (blockId s) b' p) (baseData st))
                          (edits st)
                          (Selection (periodId s) (blockId s) (LNum x) LNull LNull))
      end
  end.

(** btnAddDay; [labelInput] is the value of the label field. *)
Definition addDay (x : jsnum) (labelInput : string) (st : state) : outcome :=
  let s := sel st in
  match getPeriod (baseData st) (periodId s) with
  | None => Threw st
  | Some p =>
    match getBlock p (blockId s) with
    | None => Threw st
    | Some b =>
      let ow := getWeek b (sel_week s) in
      if invalid_number x then Rejected "Enter a valid day number"
      else
        match ow, x with
        | None, _ => Threw st
        | Some w, NaN => Rejected "Enter a valid day number"
        | Some w, Fin n =>
            if existsb (fun d => jsnum_eqb (toNumber (LNum (Fin (day_num d)))) x) (days w)
            then Rejected "Day already exists"
            else
              let lab := if String.eqb (trim labelInput) ""
                         then "Day " +:+ numToString n
                         else trim labelInput in
              let w' := Week (week_num w)
                          (js_sort (fun a c => num_cmp (day_num a) (day_num c))
                                   (days w ++ [Day n lab []])) in
              finish (State (put_period (periodId s)
                               (put_block (blockId s) (put_week (sel_week s) w' b) p)
                               (baseData st))
                            (edits st)
                            (Selection (periodId s) (blockId s) (sel_week s) (LNum x) LNull))
        end
    end
  end.

(** btnAddExercise; the two inputs are the values of the name and work
    fields. *)
Definition addExercise (input workInput : string) (st : state) : outcome :=
  let s := sel st in
  match getPeriod (baseData st) (periodId s) with
  | None => Threw st
  | Some p =>
    match getBlock p (blockId s) with
    | None => Threw st
    | Some b =>
      match getWeek b (sel_week s) with
      | None => Threw st
      | Some w =>
        let od := getDay w (sel_day s) in
        let name := trim input in
        if String.eqb name "" then Rejected "Enter an exercise name"
        else
          let id := slugify name in
          match od with
          | None => Threw st
          | Some d =>
              if existsb (fun e => String.eqb (ex_id e) id) (exercises d)
              then Rejected "Exercise already exists on this day"
              else
                let ex := Exercise id name (VStr (trim workInput)) (VArr [])
                                   (VStr "") (VStr "") VNull in
                let d' := Day (day_num d) (label d)
                            (js_sort (fun a c => localeCompare (ex_name a) (ex_name c))
                                     (exercises d ++ [ex])) in
                finish (State (put_period (periodId s)
                                 (put_block (blockId s)
                                    (put_week (sel_week s) (put_day (sel_day s) d' w) b) p)
                                 (baseData st))
                              (edits st)
                              (Selection (periodId s) (blockId s) (sel_week s)
                                         (sel_day s) (LStr id)))
          end
      end
    end
  end.

(** btnRemoveExercise. *)
Definition removeExercise (st : state) : outcome :=
  let s := sel st in
  match getPeriod (baseData st) (periodId s) with
  | None => Threw st
  | Some p =>
    match getBlock p (blockId s) with
    | None => Threw st
    | Some b =>
      match getWeek b (sel_week s) with
      | None => Threw st
      | Some w =>
        match getDay w (sel_day s) with
        | None => Threw st
        | Some d =>
          match remove_first (exercise_matches (exerciseId s)) (exercises d) with
          | None => Rejected "Exercise not found"
          | Some es =>
              let d' := Day (day_num d) (label d) es in
              finish (State (put_period (periodId s)
                               (put_block (blockId s)
                                  (put_week (sel_week s) (put_day (sel_day s) d' w) b) p)
                               (baseData st))
                            (delete (selKey s) (edits st))
                            (Selection (periodId s) (blockId s) (sel_week s)
                                       (sel_day s) LNull))
          end
        end
      end
    end
  end.

(** btnRemoveDay. *)
Definition removeDay (st : state) : outcome :=
  let s := sel st in
  match getPeriod (baseData st) (periodId s) with
  | None => Threw st
  | Some p =>
    match getBlock p (blockId s) with
    | None => Threw st
    | Some b =>
      match getWeek b (sel_week s) with
      | None => Threw st
      | Some w =>
        match remove_first (day_matches (sel_day s)) (days w) with
        | None => Rejected "Day not found"
        | Some ds =>
            let w' := Week (week_num w) ds in
            finish (State (put_period (periodId s)
                             (put_block (blockId s) (put_week (sel_week s) w' b) p)
                             (baseData st))
                          (edits st)
                          (Selection (periodId s) (blockId s) (sel_week s) LNull LNull))
        end
      end
    end
  end.

(** btnRemoveWeek. *)
Definition removeWeek (st : state) : outcome :=
  let s := sel st in
  match getPeriod (baseData st) (periodId s) with
  | None => Threw st
  | Some p =>
    match getBlock p (blockId s) with
    | None => Threw st
    | Some b =>
      match remove_first (week_matches (sel_week s)) (weeks b) with
      | None => Rejected "Week not found"
      | Some ws =>
          let b' := Block (block_id b) ws in
          finish (State (put_period (periodId s) (put_block (blockId s) b' p) (baseData st))
                        (edits st)
                        (Selection (periodId s) (blockId s) LNull LNull LNull))
      end
    end
  end.

(** btnRemoveBlock. *)
Definition removeBlock (st : state) : outcome :=
  let s := sel st in
  match getPeriod (baseData st) (periodId s) with
  | None => Threw st
  | Some p =>
    match remove_first (block_number_matches (blockId s)) (blocks p) with
    | None => Rejected "Block not found"
    | Some bs =>
        let p' := Period (period_id p) (period_name p) bs in
        finish (State (put_period (periodId s) p' (baseData st))
                      (edits st)
                      (Selection (periodId s) LNull LNull LNull LNull))
    end
  end.

(** btnRemovePeriod. *)
Definition removePeriod (st : state) : outcome :=
  let s := sel st in
  match remove_first (period_matches (periodId s)) (periods (baseData st)) with
  | None => Rejected "Period not found"
  | Some ps =>
      finish (State (Document ps) (edits st)
                    (Selection LNull LNull LNull LNull LNull))
  end.

(** The structure manager's operations. *)
Inductive action :=
  | AddPeriod (input : string)
  | AddBlock (x : jsnum)
  | AddWeek (x : jsnum)
  | AddDay (x : jsnum) (labelInput : string)
  | AddExercise (input workInput : string)
  | RemoveExercise
  | RemoveDay
  | RemoveWeek
  | RemoveBlock
  | RemovePeriod.

Definition handle (a : action) (st : state) : outcome :=
  match a with
  | AddPeriod input => addPeriod input st
  | AddBlock x => addBlock x st
  | AddWeek x => addWeek x st
  | AddDay x l => addDay x l st
  | AddExercise n w => addExercise n w st
  | RemoveExercise => removeExercise st
  | RemoveDay => removeDay st
  | RemoveWeek => removeWeek st
  | RemoveBlock => removeBlock st
  | RemovePeriod => removePeriod st
  end.

(** Running a handler and continuing from the state it leaves. *)
Definition step (a : action) (st : state) : state := state_after st (handle a st).

Definition run (l : list action) (st : state) : state :=
  fold_left (fun s a => step a s) l st.

End Manager.

(** ** Locators and well-formed documents *)

(** A locator as section 3 types it: two slugs and three integers. *)
Record locator := Locator {
  loc_period : string;
  loc_block : Z;
  loc_week : Z;
  loc_day : Z;
  loc_exercise : string
}.

(** The entry key of a locator, with the numeric components passed as
    numbers. *)
Definition encode (L : locator) : string :=
  entryKey (LStr (loc_period L)) (LNum (Fin (Int (loc_block L))))
           (LNum (Fin (Int (loc_week L)))) (LNum (Fin (Int (loc_day L))))
           (LStr (loc_exercise L)).

(** The same key with the numeric components passed as decimal strings. *)
Definition encode_strings (L : locator) : string :=
  entryKey (LStr (loc_period L)) (LStr (decimal (loc_block L)))
           (LStr (decimal (loc_week L))) (LStr (decimal (loc_day L)))
           (LStr (loc_exercise L)).

(** Neither slug contains the separator. *)
Definition bar_free (L : locator) : Prop :=
  has_char "|" (loc_period L) = false ∧ has_char "|" (loc_exercise L) = false.

(** The invariants of section 3: identifiers are unique among siblings, and
    block, week and day identifiers are integers. *)
Definition wf_day (d : day) : Prop :=
  scale (day_num d) = 0 ∧ NoDup (map ex_id (exercises d)).

Definition wf_week (w : week) : Prop :=
  scale (week_num w) = 0 ∧ NoDup (map day_num (days w)) ∧ Forall wf_day (days w).

Definition wf_block (b : block) : Prop :=
  scale (block_id b) = 0 ∧ NoDup (map week_num (weeks b)) ∧ Forall wf_week (weeks b).

Definition wf_period (p : period) : Prop :=
  NoDup (map block_id (blocks p)) ∧ Forall wf_block (blocks p).

Definition wf_document (doc : document) : Prop :=
  NoDup (map period_id (periods doc)) ∧ Forall wf_period (periods doc).

(** ** The merge as section 4.6 of the specification words it *)

(** Section 4.1, decode: the five segments of a key, or failure when the key
    does not have exactly five. *)
Definition spec_decode (k : string) : option (lval * lval * lval * lval * lval) :=
  match split "|" k with
  | [a; b; c; d; e] => Some (LStr a, LStr b, LStr c, LStr d, LStr e)
  | _ => None
  end.

(** Section 4.3, the field rule: the value of the patch when it is present and
    of the expected shape, the base value otherwise. *)
Definition is_string (v : jsval) : bool :=
  match v with VStr _ => true | _ => false end.
Definition is_array (v : jsval) : bool :=
  match v with VArr _ => true | _ => false end.

Definition spec_field (shape : jsval → bool) (pv : option jsval) (base : jsval)
  : jsval :=
  match pv with
  | Some v => if shape v then v else base
  | None => base
  end.

Definition spec_applyPatch (pt : gmap string jsval) (ex : exercise) : exercise :=
  Exercise (ex_id ex) (ex_name ex)
    (spec_field is_string (pt !! "work") (work ex))
    (spec_field is_array (pt !! "videos") (videos ex))
    (spec_field is_string (pt !! "lifterComment") (lifterComment ex))
    (spec_field is_string (pt !! "coachComment") (coachComment ex))
    (spec_field is_string (pt !! "updatedAt") (updatedAt ex)).

(** Overwriting, in place, the exercise the hierarchy accessor reaches. *)
Definition spec_overwrite (pt : gmap string jsval) (pid bid wk dy eid : lval)
    (doc : document) : document :=
  Document
    (modify_first (period_matches pid) (fun p =>
       Period (period_id p) (period_name p)
         (modify_first (block_matches bid) (fun b =>
            Block (block_id b)
              (modify_first (week_matches wk) (fun w =>
                 Week (week_num w)
                   (modify_first (day_matches dy) (fun d =>
                      Day (day_num d) (label d)
                        (modify_first (exercise_matches eid) (spec_applyPatch pt)
                           (exercises d)))
                      (days w)))
                 (weeks b)))
            (blocks p)))
       (periods doc)).

(** One overlay key: decode, resolve in the copy, overwrite if found. *)
Definition spec_mergeStep (k : string) (pt : gmap string jsval) (copy : document)
  : document :=
  match spec_decode k with
  | None => copy
  | Some (pid, bid, wk, dy, eid) =>
      match lookupChain copy pid bid wk dy eid with
      | None => copy
      | Some _ => spec_overwrite pt pid bid wk dy eid copy
      end
  end.

Definition spec_mergeOverlayIntoBase (doc : document)
    (ov : gmap string (gmap string jsval)) : document :=
  map_fold spec_mergeStep (deepClone doc) ov.

(** ** A sample state *)

(** One period, one block, one week, two days; the first day holds the
    exercise [squat]. *)
Definition squat : exercise :=
  Exercise "squat" "Squat" (VStr "5x5") VUndef VUndef VUndef VUndef.

Definition sampleDoc : document :=
  Document
    [Period "serie-1-2026" "Serie 1 2026"
       [Block (Int 1)
          [Week (Int 1) [Day (Int 1) "Day 1" [squat]; Day (Int 2) "Day 2" []]]]].

Definition sampleSel : selection :=
  Selection (LStr "serie-1-2026") (LStr "1") (LNum (Fin (Int 1)))
            (LNum (Fin (Int 1))) (LStr "squat").

Definition sampleKey : string := "serie-1-2026|1|1|1|squat".

(** The sample state after one write through [saveEntryPatch]. *)
Definition sampleState : state :=
  saveEntryPatch "2026-01-01T10:00:00.000Z" {["work" := VStr "8x3"]}
                 (State sampleDoc ∅ sampleSel).

Definition is_sign_or_digit (c : ascii) : bool := is_digit c || Ascii.eqb c "-".

(** One of the five chained lookups returns [undefined]. *)
Definition chain_fails (doc : document) (pid bid wk dy eid : lval) : Prop :=
  getPeriod doc pid = None
  ∨ ∃ p, getPeriod doc pid = Some p
     ∧ (getBlock p bid = None
        ∨ ∃ b, getBlock p bid = Some b
           ∧ (getWeek b wk = None
              ∨ ∃ w, getWeek b wk = Some w
                 ∧ (getDay w dy = None
                    ∨ ∃ d, getDay w dy = Some d ∧ getExercise d eid = None))).

(** ** What the selection fallback guarantees *)

(** The only change [ensureSelected] makes to a sequence of children: an empty
    sequence receives one placeholder; otherwise the children stay in place,
    each related to what it was. *)
Definition ext_list {A} (R : A → A → Prop) (ph : A) (l l' : list A) : Prop :=
  Forall2 R l l' ∨ (l = [] ∧ ∃ x, l' = [x] ∧ R ph x).

Definition ext_day (d d' : day) : Prop :=
  day_num d' = day_num d ∧ label d' = label d
  ∧ ext_list eq placeholderExercise (exercises d) (exercises d').

Definition ext_week (w w' : week) : Prop :=
  week_num w' = week_num w ∧ ext_list ext_day placeholderDay (days w) (days w').

Definition ext_block (b b' : block) : Prop :=
  block_id b' = block_id b ∧ ext_list ext_week (Week (Int 1) []) (weeks b) (weeks b').

Definition ext_period (p p' : period) : Prop :=
  period_id p' = period_id p ∧ period_name p' = period_name p
  ∧ ext_list ext_block (Block (Int 1) []) (blocks p) (blocks p').

Definition ext_document (doc doc' : document) : Prop :=
  ext_list ext_period placeholderPeriod (periods doc) (periods doc').

(** A selection component that is neither [null] nor [undefined]. *)
Definition is_set (v : lval) : bool :=
  match v with
  | LUndef | LNull => false
  | _ => true
  end.

Definition complete (s : selection) : Prop :=
  is_set (periodId s) = true ∧ is_set (blockId s) = true
  ∧ is_set (sel_week s) = true ∧ is_set (sel_day s) = true
  ∧ is_set (exerciseId s) = true.

(** The selection follows first children from a node downward. *)
Definition first_exercise (d : day) (eid : lval) : Prop :=
  ∃ e, head (exercises d) = Some e ∧ eid = LStr (ex_id e).

Definition first_day (w : week) (dy eid : lval) : Prop :=
  ∃ d, head (days w) = Some d ∧ dy = LNum (Fin (day_num d)) ∧ first_exercise d eid.

Definition first_week (b : block) (wk dy eid : lval) : Prop :=
  ∃ w, head (weeks b) = Some w ∧ wk = LNum (Fin (week_num w)) ∧ first_day w dy eid.

Definition first_block (p : period) (bid wk dy eid : lval) : Prop :=
  ∃ b, head (blocks p) = Some b ∧ bid = LNum (Fin (block_id b))
       ∧ first_week b wk dy eid.

Definition first_period (doc : document) (s : selection) : Prop :=
  ∃ p, head (periods doc) = Some p ∧ periodId s = LStr (period_id p)
       ∧ first_block p (blockId s) (sel_week s) (sel_day s) (exerciseId s).

(** The fallback rule, level by level, read on the document [ensureSelected]
    leaves: a component that was falsy or that its level does not hold is
    replaced by the first child, and so is everything below it; a component
    that is found is kept and the rule applies below it. *)
Definition fallback_exercise (d : day) (eid eid' : lval) : Prop :=
  if falsy eid || is_none (getExercise d eid)
  then first_exercise d eid'
  else eid' = eid.

Definition fallback_day (w : week) (dy eid dy' eid' : lval) : Prop :=
  if falsy dy || is_none (getDay w dy)
  then first_day w dy' eid'
  else dy' = dy ∧ ∃ d, getDay w dy = Some d ∧ fallback_exercise d eid eid'.

Definition fallback_week (b : block) (wk dy eid wk' dy' eid' : lval) : Prop :=
  if falsy wk || is_none (getWeek b wk)
  then first_week b wk' dy' eid'
  else wk' = wk ∧ ∃ w, getWeek b wk = Some w ∧ fallback_day w dy eid dy' eid'.

Definition fallback_block (p : period) (bid wk dy eid bid' wk' dy' eid' : lval)
  : Prop :=
  if falsy bid || is_none (getBlock p bid)
  then first_block p bid' wk' dy' eid'
  else bid' = bid
       ∧ ∃ b, getBlock p bid = Some b ∧ fallback_week b wk dy eid wk' dy' eid'.

Definition fallback_selection (doc : document) (s s' : selection) : Prop :=
  if falsy (periodId s) || is_none (getPeriod doc (periodId s))
  then first_period doc s'
  else periodId s' = periodId s
       ∧ ∃ p, getPeriod doc (periodId s) = Some p
              ∧ fallback_block p (blockId s) (sel_week s) (sel_day s) (exerciseId s)
                               (blockId s') (sel_week s') (sel_day s') (exerciseId s').

(** ** Insertions: what the handlers test *)

Definition is_insert (a : action) : bool :=
  match a with
  | AddPeriod _ | AddBlock _ | AddWeek _ | AddDay _ _ | AddExercise _ _ => true
  | _ => false
  end.

(** The validation of the candidate: a name that is empty once trimmed, or a
    number that is [NaN], zero or below 1. *)
Definition candidate_invalid (a : action) : bool :=
  match a with
  | AddPeriod input | AddExercise input _ => String.eqb (trim input) ""
  | AddBlock x | AddWeek x | AddDay x _ => invalid_number x
  | _ => false
  end.

(** The duplicate test, on the children of the selected parent. *)
Definition candidate_exists (a : action) (st : state) : bool :=
  let s := sel st in
  match a with
  | AddPeriod input =>
      existsb (fun p => String.eqb (period_id p) (slugify (trim input)))
              (periods (baseData st))
  | AddBlock x =>
      match getPeriod (baseData st) (periodId s) with
      | Some p => existsb (fun b => jsnum_eqb (Fin (block_id b)) x) (blocks p)
      | None => false
      end
  | AddWeek x =>
      match p ← getPeriod (baseData st) (periodId s); getBlock p (blockId s) with
      | Some b => existsb (fun w => jsnum_eqb (Fin (week_num w)) x) (weeks b)
      | None => false
      end
  | AddDay x _ =>
      match p ← getPeriod (baseData st) (periodId s);
            b ← getBlock p (blockId s); getWeek b (sel_week s) with
      | Some w => existsb (fun d => jsnum_eqb (Fin (day_num d)) x) (days w)
      | None => false
      end
  | AddExercise input _ =>
      match p ← getPeriod (baseData st) (periodId s);
            b ← getBlock p (blockId s);
            w ← getWeek b (sel_week s); getDay w (sel_day s) with
      | Some d => existsb (fun e => String.eqb (ex_id e) (slugify (trim input)))
                          (exercises d)
      | None => false
      end
  | _ => false
  end.

(** Numeric order of identifiers, and the order a comparator induces. *)
Definition num_le (a b : num) : Prop := num_leb a b = true.

Definition cmp_le {A} (cmp : A → A → Z) (a b : A) : Prop := (cmp a b <= 0)%Z.

(** A candidate number that is a positive integer. *)
Definition positive_integer (x : jsnum) : bool :=
  match x with
  | NaN => false
  | Fin n => num_is_int n && (0 <? mant n)%Z
  end.

(** A comparator that orders names by length; one total preorder that
    [localeCompare] can be instantiated with. *)
Definition lengthCompare (a b : string) : Z :=
  (Z.of_nat (String.length a) - Z.of_nat (String.length b))%Z.

(** The handler ran to its mutation. *)
Definition completed (o : outcome) : bool :=
  match o with
  | Completed _ => true
  | _ => false
  end.

(** What the exercise view shows for the selection: the entry key, the [work]
    text of the base exercise the selection resolves to, and the [work] text
    of the patched entry. *)
Definition selectedView (st : state) : string * option jsval * option jsval :=
  let s := sel st in
  (selKey s,
   '(_, _, _, _, e) ← lookupChain (baseData st) (periodId s) (blockId s) (sel_week s)
                         (sel_day s) (exerciseId s);
   Some (work e),
   e ← getPatchedEntry (baseData st) (edits st) (periodId s) (blockId s) (sel_week s)
         (sel_day s) (exerciseId s);
   e !! "work").

(** ** The shape of a slug *)

Definition is_dash (c : ascii) : bool := Ascii.eqb c "-".

(** Slug characters and dashes, with no dash right after a dash ([prev] tells
    whether the previous character was one). *)
Fixpoint dash_separated (prev : bool) (s : string) : bool :=
  match s with
  | EmptyString => true
  | String c r =>
      if is_dash c then negb prev && dash_separated true r
      else is_slug_char c && dash_separated false r
  end.

(** The same, and the string does not end with a dash. *)
Fixpoint slug_from (prev : bool) (s : string) : bool :=
  match s with
  | EmptyString => negb prev
  | String c r =>
      if is_dash c then negb prev && slug_from true r
      else is_slug_char c && slug_from false r
  end.

(** A slug: empty, or runs of [a-z0-9] separated by single dashes, with no
    dash at either end. *)
Definition slug_shape (s : string) : bool :=
  match s with
  | EmptyString => true
  | String _ _ => slug_from true s
  end.

Definition is_slug_or_dash (c : ascii) : bool := is_slug_char c || is_dash c.

(** ** Routes *)

(** [makeHash]; the template literal converts each component with
    [String]. *)
Definition makeHash (pid bid wk dy eid : lval) : string :=
  "#/p/" +:+ toString pid +:+ "/b/" +:+ toString bid +:+ "/w/" +:+ toString wk
    +:+ "/d/" +:+ toString dy +:+ "/e/" +:+ toString eid.

(** [replace(/^#\/?/, "")] *)
Definition strip_hash_prefix (s : string) : string :=
  match s with
  | EmptyString => EmptyString
  | String c r =>
      if Ascii.eqb c "#" then
        match r with
        | EmptyString => EmptyString
        | String c' r' => if Ascii.eqb c' "/" then r' else r
        end
      else s
  end.

(** The loop [out[parts[i]] = parts[i+1]], two parts at a time; a tag without
    a value is set to [undefined]. *)
Fixpoint route_pairs (parts : list string) (out : gmap string lval)
  : gmap string lval :=
  match parts with
  | [] => out
  | [k] => <[k := LUndef]> out
  | k :: v :: r => route_pairs r (<[k := LStr v]> out)
  end.

(** Reading a property of [out]. *)
Definition prop (out : gmap string lval) (k : string) : lval :=
  default LUndef (out !! k).

(** [parseHash], on the value of [location.hash]; [None] is [null]. *)
Definition parseHash (hash : string) : option selection :=
  let h := strip_hash_prefix hash in
  if String.eqb h "" then None
  else
    let parts := List.filter (fun s => negb (String.eqb s "")) (split "/" h) in
    let out := route_pairs parts ∅ in
    if falsy (prop out "p") then None
    else
      Some (Selection
              (prop out "p")
              (prop out "b")
              (if falsy (prop out "w") then LNull else LNum (toNumber (prop out "w")))
              (if falsy (prop out "d") then LNull else LNum (toNumber (prop out "d")))
              (if falsy (prop out "e") then LNull else prop out "e")).

(** ** The exercises of a document *)

(** The entry keys the merge loops compute, in the order of the loops. *)
Definition exercise_keys (doc : document) : list string :=
  flat_map (fun p =>
    flat_map (fun b =>
      flat_map (fun w =>
        flat_map (fun d => map (exerciseKey p b w d) (exercises d)) (days w))
        (weeks b))
      (blocks p))
    (periods doc).

(** ** The exercise view: wireExerciseButtons and renderVideos *)

(** The entry [renderExercise] and the handlers of the view read. *)
Definition selectedEntry (st : state) : option (gmap string jsval) :=
  let s := sel st in
  getPatchedEntry (baseData st) (edits st) (periodId s) (blockId s) (sel_week s)
                  (sel_day s) (exerciseId s).

(** [/^https?:\/\//i.test(url)]: with the [i] flag a letter of the pattern
    matches itself in either case and nothing else, which is the comparison
    of the case-folded text with the pattern. *)
Definition is_http_url (url : string) : bool :=
  let s := string_map lower url in
  String.prefix "http://" s || String.prefix "https://" s.

(** [entry.videos || []] *)
Definition entry_videos (entry : gmap string jsval) : jsval :=
  js_or (default VUndef (entry !! "videos")) (VArr []).

(** The elements of the spread [[...v]]: those of an array, the characters
    of a string; [None] is the TypeError for a value that is not iterable. *)
Definition spread (v : jsval) : option (list jsval) :=
  match v with
  | VArr l => Some l
  | VStr s => Some (map (fun c => VStr (String c EmptyString)) (list_ascii_of_string s))
  | _ => None
  end.

(** The tail shared by btnAddVideo and btnAddLocalMedia: the entry of the
    selection is read, [url] is appended to a copy of its videos and the copy
    is saved.  Reading [videos] of a [null] entry throws. *)
Definition appendVideo (now url : string) (st : state) : outcome :=
  match selectedEntry st with
  | None => Threw st
  | Some entry =>
      match spread (entry_videos entry) with
      | None => Threw st
      | Some l => Completed (saveEntryPatch now {["videos" := VArr (l ++ [VStr url])]} st)
      end
  end.

(** btnAddVideo; [input] is the value of the url field.  An empty url returns
    without a toast, which [Rejected] with an empty message stands for. *)
Definition addVideo (now input : string) (st : state) : outcome :=
  let url := trim input in
  if String.eqb url "" then Rejected ""
  else if negb (is_http_url url) then Rejected "Paste a full URL starting with http(s)://"
  else appendVideo now url st.

(** The file chosen in the media field: its MIME type, its size in bytes and
    what the FileReader gives for it, [None] when the read fails. *)
Record file := File {
  file_type : string;
  file_size : Z;
  file_data : option string
}.

(** btnAddLocalMedia; the entry is read after the file has been read, so the
    state is the one at that moment.  A failed read rejects the promise and
    nothing is saved. *)
Definition addLocalMedia (now : string) (f : option file) (st : state) : outcome :=
  match f with
  | None => Rejected "Choose a file first"
  | Some f =>
      if negb (String.prefix "video/" (file_type f))
         && negb (String.prefix "image/" (file_type f))
      then Rejected "Unsupported file type"
      else if (8 * 1024 * 1024 <? file_size f)%Z
      then Rejected "File is too large to store locally. Upload it (YouTube/Drive) and paste the link instead."
      else
        match file_data f with
        | None => Threw st
        | Some dataUrl => appendVideo now dataUrl st
        end
  end.

(** btnSave; the two arguments are the values of the comment fields. *)
Definition saveComments (now lifter coach : string) (st : state) : state :=
  saveEntryPatch now {["lifterComment" := VStr lifter; "coachComment" := VStr coach]} st.

(** The double click on the work box; [answer] is what [prompt] returns,
    [None] for a cancelled dialog.  The entry is read before the dialog
    opens. *)
Definition editWork (now : string) (answer : option string) (st : state) : outcome :=
  match selectedEntry st with
  | None => Threw st
  | Some _ =>
      match answer with
      | None => Rejected ""
      | Some next => Completed (saveEntryPatch now {["work" := VStr next]} st)
      end
  end.

Definition set_videos (v : jsval) (e : exercise) : exercise :=
  Exercise (ex_id e) (ex_name e) (work e) v (lifterComment e) (coachComment e)
           (updatedAt e).

Definition put_exercise (eid : lval) (e' : exercise) (d : day) : day :=
  Day (day_num d) (label d)
      (modify_first (exercise_matches eid) (fun _ => e') (exercises d)).

(** Whether the array [renderVideos] walks is the array of the base exercise
    itself: [getPatchedEntry] passes [ex.videos] on when it is an array, and
    [applyPatchToEntry] replaces it by a copy only when the patch has an array
    of its own. *)
Definition videos_shared (pt : option (gmap string jsval)) (ex : exercise) : bool :=
  match pt ≫= (.!! "videos") with
  | Some (VArr _) => false
  | _ => match videos ex with VArr _ => true | _ => false end
  end.

(** The Remove button of video [i], for the list drawn from the state [st]:
    [videos.splice(i, 1)] then [saveEntryPatch({ videos })].  The splice is
    done in place, so when the array is the one of the base exercise the base
    document loses the element as well.  [None]: the list drawn from [st] has
    no such button (an entry of [getPatchedEntry] always has an array under
    [videos]). *)
Definition removeVideo (now : string) (i : nat) (st : state) : option state :=
  let s := sel st in
  '(p, b, w, d, ex) ← lookupChain (baseData st) (periodId s) (blockId s) (sel_week s)
                        (sel_day s) (exerciseId s);
  let pt := edits st !! selKey s in
  match entry_videos (applyPatchToEntry (baseEntry (periodId s) p b w d ex) pt) with
  | VArr l =>
      if (i <? length l)%nat then
        let l' := delete i l in
        let doc' :=
          if videos_shared pt ex then
            put_period (periodId s)
              (put_block (blockId s)
                 (put_week (sel_week s)
                    (put_day (sel_day s)
                       (put_exercise (exerciseId s) (set_videos (VArr l') ex) d) w) b) p)
              (baseData st)
          else baseData st in
        Some (saveEntryPatch now {["videos" := VArr l']} (State doc' (edits st) s))
      else None
  | _ => None
  end.

(** btnResetLocal, the confirmation taken as accepted: the stored overlay is
    removed and read back, which gives the empty object. *)
Definition resetLocal (st : state) : state := State (baseData st) ∅ (sel st).

(** ** Navigation: wireNavHandlers and initFromHash *)

(** The change handlers of the five selects; [v] is [e.target.value].  Each
    sets its component, clears the components below it and calls
    [renderNav]; what follows writes the route and draws. *)
Definition selectPeriod (v : string) (st : state) : state :=
  State (baseData st) (edits st)
        (renderNav (baseData st) (Selection (LStr v) LNull LNull LNull LNull)).

Definition selectBlock (v : string) (st : state) : state :=
  State (baseData st) (edits st)
        (renderNav (baseData st)
           (Selection (periodId (sel st)) (LStr v) LNull LNull LNull)).

Definition selectWeek (v : string) (st : state) : state :=
  State (baseData st) (edits st)
        (renderNav (baseData st)
           (Selection (periodId (sel st)) (blockId (sel st))
                      (LNum (toNumber (LStr v))) LNull LNull)).

Definition selectDay (v : string) (st : state) : state :=
  State (baseData st) (edits st)
        (renderNav (baseData st)
           (Selection (periodId (sel st)) (blockId (sel st)) (sel_week (sel st))
                      (LNum (toNumber (LStr v))) LNull)).

Definition selectExercise (v : string) (st : state) : state :=
  State (baseData st) (edits st)
        (renderNav (baseData st)
           (Selection (periodId (sel st)) (blockId (sel st)) (sel_week (sel st))
                      (sel_day (sel st)) (LStr v))).

(** [initFromHash], on the value of [location.hash]: a parsed route replaces
    the selection, then [renderNav] runs. *)
Definition initFromHash (hash : string) (st : state) : state :=
  match parseHash hash with
  | None => State (baseData st) (edits st) (renderNav (baseData st) (sel st))
  | Some parsed => State (baseData st) (edits st) (renderNav (baseData st) parsed)
  end.

(** ** The fragment of the address *)

(** The routes of [makeHash] reach [parseHash] through [location.hash]: they
    are assigned to it ([syncHashFromSelection], the Open buttons) or followed
    as a link, and [parseHash] reads the property back.  The host keeps the
    fragment in the form the URL Standard gives it (fragment state): tabs and
    line breaks are removed, and each character of the fragment
    percent-encode set, that is the controls, the space, the double quote,
    the angle brackets, the backquote and everything above U+007E, is
    replaced by the percent-encoding of its UTF-8 bytes.  [parseHash] does
    not decode. *)
Definition fragment_keeps (c : ascii) : bool :=
  let n := nat_of_ascii c in
  (33 <=? n) && (n <=? 126)
  && negb (n =? 34) && negb (n =? 60) && negb (n =? 62) && negb (n =? 96).

Definition hex_digit (n : nat) : ascii :=
  if n <? 10 then ascii_of_nat (48 + n) else ascii_of_nat (55 + n).

(** [%XY] for a byte. *)
Definition percent_byte (n : nat) : string :=
  String "%" (String (hex_digit (n / 16)) (String (hex_digit (n mod 16)) EmptyString)).

(** The UTF-8 bytes of a character below 256. *)
Definition utf8 (n : nat) : list nat :=
  if n <? 128 then [n] else [192 + n / 64; 128 + n mod 64].

Fixpoint fragment_encode (s : string) : string :=
  match s with
  | EmptyString => EmptyString
  | String c r =>
      let n := nat_of_ascii c in
      if (n =? 9) || (n =? 10) || (n =? 13) then fragment_encode r
      else if fragment_keeps c then String c (fragment_encode r)
      else fold_right (fun x acc => percent_byte x +:+ acc) (fragment_encode r) (utf8 n)
  end.

(** The value of [location.hash] once [assigned] has been assigned to it: one
    leading [#] is dropped, the rest is stored as the fragment, and the
    property reads [#] followed by the fragment, or the empty string for an
    empty fragment. *)
Definition locationHash (assigned : string) : string :=
  let input := match assigned with
               | String c r => if Ascii.eqb c "#" then r else assigned
               | EmptyString => EmptyString
               end in
  let f := fragment_encode input in
  if String.eqb f "" then EmptyString else String "#" f.

Example locationHash_examples :
  locationHash "#/p/serie-1-2026/b/1/w/3/d/2/e/squat"
    = "#/p/serie-1-2026/b/1/w/3/d/2/e/squat"
  ∧ locationHash "#/p/a b/b/1/w/1/d/1/e/squat" = "#/p/a%20b/b/1/w/1/d/1/e/squat"
  ∧ locationHash (String "#" (String (ascii_of_nat 233) "")) = "#%C3%A9"
  ∧ locationHash "#" = "" ∧ locationHash "" = "".
Proof. vm_compute. repeat split. Qed.

(** * Properties *)

(** ** Examples *)

Example slugify_examples :
  slugify "Serie 1 2026" = "serie-1-2026" ∧ slugify "  Squat (paused) " = "squat-paused"
  ∧ slugify "!!!" = "" ∧ slugify "Don't" = "dont".
Proof. vm_compute. repeat split. Qed.

Example parseHash_examples :
  parseHash "#/p/serie-1-2026/b/1/w/3/d/2/e/squat"
    = Some (Selection (LStr "serie-1-2026") (LStr "1") (LNum (Fin (Int 3)))
                      (LNum (Fin (Int 2))) (LStr "squat"))
  ∧ parseHash "" = None ∧ parseHash "#/" = None ∧ parseHash "#/b/1" = None
  ∧ parseHash "#/p/x/w" = Some (Selection (LStr "x") LUndef LNull LNull LNull).
Proof. vm_compute. repeat split. Qed.

(** ** Splitting and joining *)

Lemma split_nonempty c s : split c s ≠ [].
Proof. destruct s as [|a s]; simpl; [done|]. destruct (Ascii.eqb a c); [done|]. by destruct (split c s). Qed.

Lemma split_length_pos c s : (1 ≤ length (split c s))%nat.
Proof. pose proof (split_nonempty c s). destruct (split c s); simpl; [done | lia]. Qed.

Lemma split_no_sep c s : has_char c s = false → split c s = [s].
Proof.
  unfold has_char. rewrite negb_false_iff.
  induction s as [|a s IH]; simpl; [done|].
  rewrite andb_true_iff, negb_true_iff. intros [Ha Hs].
  rewrite Ha, (IH Hs). done.
Qed.

Lemma app_String a x y : String a x +:+ y = String a (x +:+ y).
Proof. reflexivity. Qed.

Lemma app_Empty y : EmptyString +:+ y = y.
Proof. reflexivity. Qed.

Lemma split_app_sep c x r :
  split c (x +:+ String c EmptyString +:+ r) = split c x ++ split c r.
Proof.
  induction x as [|a x IH].
  - rewrite app_Empty, app_String, app_Empty. simpl. by rewrite Ascii.eqb_refl.
  - rewrite app_String. simpl. destruct (Ascii.eqb a c); [by rewrite IH|].
    rewrite IH. pose proof (split_nonempty c x). by destruct (split c x).
Qed.

Lemma join_split c s : join (String c EmptyString) (split c s) = s.
Proof.
  induction s as [|a s IH]; simpl; [done|].
  destruct (Ascii.eqb_spec a c) as [->|Hne].
  - pose proof (split_nonempty c s) as Hn.
    destruct (split c s) as [|h t] eqn:E; [done|]. simpl in *. by rewrite IH.
  - pose proof (split_nonempty c s) as Hn.
    destruct (split c s) as [|h t] eqn:E; [done|].
    destruct t; simpl in *; by rewrite <- IH.
Qed.

Lemma split_singleton c s h : split c s = [h] → s = h.
Proof. intros E. rewrite <- (join_split c s), E. done. Qed.

Lemma split_join5 a b c d e :
  split "|" (join "|" [a; b; c; d; e])
  = split "|" a ++ split "|" b ++ split "|" c ++ split "|" d ++ split "|" e.
Proof. simpl. by rewrite !split_app_sep. Qed.

Lemma app_singletons {A} (l1 l2 : list A) x r :
  l1 ≠ [] → l1 ++ l2 = x :: r → length l2 = length r → l1 = [x] ∧ l2 = r.
Proof.
  intros Hn E Hl. destruct l1 as [|y l1]; [done|]. simpl in E. injection E as -> E.
  assert (length (l1 ++ l2) = length r) as Hlen by (by rewrite E).
  rewrite length_app in Hlen. destruct l1; [done | simpl in Hlen; lia].
Qed.

(** Two keys agree only if their components do, as soon as the components of
    one of them are free of the separator. *)
Lemma join5_inj a1 a2 a3 a4 a5 b1 b2 b3 b4 b5 :
  has_char "|" b1 = false → has_char "|" b2 = false → has_char "|" b3 = false →
  has_char "|" b4 = false → has_char "|" b5 = false →
  join "|" [a1; a2; a3; a4; a5] = join "|" [b1; b2; b3; b4; b5] →
  a1 = b1 ∧ a2 = b2 ∧ a3 = b3 ∧ a4 = b4 ∧ a5 = b5.
Proof.
  intros H1 H2 H3 H4 H5 E.
  apply (f_equal (split "|")) in E. rewrite !split_join5 in E.
  rewrite (split_no_sep _ _ H1), (split_no_sep _ _ H2), (split_no_sep _ _ H3),
    (split_no_sep _ _ H4), (split_no_sep _ _ H5) in E. simpl in E.
  pose proof (split_length_pos "|" a1). pose proof (split_length_pos "|" a2).
  pose proof (split_length_pos "|" a3). pose proof (split_length_pos "|" a4).
  pose proof (split_length_pos "|" a5).
  assert (length (split "|" a1 ++ split "|" a2 ++ split "|" a3 ++ split "|" a4
                    ++ split "|" a5) = 5) as Hlen by (by rewrite E).
  rewrite !length_app in Hlen.
  destruct (app_singletons _ _ _ _ (split_nonempty _ _) E) as [E1 E'];
    [rewrite !length_app; simpl; lia|].
  destruct (app_singletons _ _ _ _ (split_nonempty _ _) E') as [E2 E''];
    [rewrite !length_app; simpl; lia|].
  destruct (app_singletons _ _ _ _ (split_nonempty _ _) E'') as [E3 E'''];
    [rewrite !length_app; simpl; lia|].
  destruct (app_singletons _ _ _ _ (split_nonempty _ _) E''') as [E4 E5];
    [simpl; lia|].
  repeat split; by eapply split_singleton.
Qed.

(** ** Decimal text *)

Lemma app_empty_r s : s +:+ EmptyString = s.
Proof. induction s as [|a s IH]; [done|]. by rewrite app_String, IH. Qed.

Lemma string_forallb_impl (P Q : ascii → bool) s :
  (∀ c, P c = true → Q c = true) →
  string_forallb P s = true → string_forallb Q s = true.
Proof.
  intros HPQ. induction s as [|a s IH]; simpl; [done|].
  rewrite !andb_true_iff. intros [? ?]. split; auto.
Qed.

Lemma has_char_false c s :
  string_forallb (fun x => negb (Ascii.eqb x c)) s = true → has_char c s = false.
Proof. intros H. unfold has_char. by rewrite H. Qed.

Lemma uint_digits d : string_forallb is_digit (NilEmpty.string_of_uint d) = true.
Proof. induction d; simpl; auto. Qed.

Lemma uint_text p :
  NilZero.string_of_uint (Pos.to_uint p) = NilEmpty.string_of_uint (Pos.to_uint p).
Proof. pose proof (Unsigned.to_uint_nonnil p). by destruct (Pos.to_uint p). Qed.


Lemma decimal_chars z : string_forallb is_sign_or_digit (decimal z) = true.
Proof.
  unfold decimal. destruct z as [|p|p]; simpl; [done| |].
  - rewrite uint_text. eapply string_forallb_impl, uint_digits.
    intros c Hc. unfold is_sign_or_digit. by rewrite Hc.
  - rewrite uint_text. eapply string_forallb_impl, uint_digits.
    intros c Hc. unfold is_sign_or_digit. by rewrite Hc.
Qed.

Lemma digit_cases c :
  is_sign_or_digit c = true →
  Ascii.eqb c "|" = false ∧ Ascii.eqb c "." = false ∧ Ascii.eqb c "+" = false
  ∧ is_ws c = false.
Proof.
  destruct c as [[|] [|] [|] [|] [|] [|] [|] [|]]; vm_compute; intros; try done.
Qed.

Lemma decimal_no_bar z : has_char "|" (decimal z) = false.
Proof.
  apply has_char_false. eapply string_forallb_impl, decimal_chars.
  intros c Hc. apply digit_cases in Hc as (-> & _). done.
Qed.

Lemma decimal_inj a b : decimal a = decimal b → a = b.
Proof.
  unfold decimal. intros E. apply to_int_inj.
  assert (∀ z, Z.to_int z ≠ Pos Nil ∧ Z.to_int z ≠ Neg Nil) as Hn.
  { intros [|p|p]; simpl; split; try done;
      intros [= Hp]; by apply (Unsigned.to_uint_nonnil p). }
  destruct (Hn a) as [Ha1 Ha2]. destruct (Hn b) as [Hb1 Hb2].
  pose proof (NilZero.isi _ Ha1 Ha2) as Ia. pose proof (NilZero.isi _ Hb1 Hb2) as Ib.
  rewrite E in Ia. congruence.
Qed.

Lemma trimStart_id s : string_forallb (fun c => negb (is_ws c)) s = true → trimStart s = s.
Proof.
  destruct s as [|a s]; simpl; [done|]. rewrite andb_true_iff, negb_true_iff.
  by intros [-> _].
Qed.

Lemma trimEnd_id s : string_forallb (fun c => negb (is_ws c)) s = true → trimEnd s = s.
Proof.
  induction s as [|a s IH]; simpl; [done|]. rewrite andb_true_iff, negb_true_iff.
  intros [Ha Hs]. rewrite (IH Hs), Ha. by destruct s.
Qed.

Lemma trim_id s : string_forallb (fun c => negb (is_ws c)) s = true → trim s = s.
Proof. intros H. unfold trim. by rewrite trimStart_id, trimEnd_id. Qed.

Lemma cut_at_absent c s :
  string_forallb (fun x => negb (Ascii.eqb x c)) s = true → cut_at c s = (s, None).
Proof.
  induction s as [|a s IH]; simpl; [done|]. rewrite andb_true_iff, negb_true_iff.
  intros [Ha Hs]. by rewrite Ha, (IH Hs).
Qed.

Lemma unsigned_literal_uint p :
  unsigned_literal (NilEmpty.string_of_uint (Pos.to_uint p)) = Some (Int (Z.pos p)).
Proof.
  unfold unsigned_literal. rewrite cut_at_absent.
  2:{ eapply string_forallb_impl, uint_digits. intros c Hc.
      assert (is_sign_or_digit c = true) as Hd by (unfold is_sign_or_digit; by rewrite Hc).
      apply digit_cases in Hd as (_ & -> & _). done. }
  simpl. rewrite Nat.add_0_r, app_empty_r.
  pose proof (Unsigned.to_uint_nonnil p) as Hn.
  destruct (String.length (NilEmpty.string_of_uint (Pos.to_uint p)) =? 0) eqn:El.
  { apply Nat.eqb_eq in El. destruct (Pos.to_uint p); simpl in El; done. }
  unfold digits_value. rewrite NilEmpty.usu. simpl.
  unfold Z.of_uint. by rewrite Unsigned.of_to.
Qed.

(** [Number] reads back the decimal text of an integer. *)
Lemma stringToNumber_decimal z : stringToNumber (decimal z) = Fin (Int z).
Proof.
  unfold stringToNumber. rewrite trim_id.
  2:{ eapply string_forallb_impl, decimal_chars. intros c Hc.
      apply digit_cases in Hc as (_ & _ & _ & ->). done. }
  destruct z as [|p|p]; [done| |].
  - unfold decimal. simpl. rewrite uint_text.
    pose proof (uint_digits (Pos.to_uint p)) as Hd.
    pose proof (unsigned_literal_uint p) as Hu.
    destruct (NilEmpty.string_of_uint (Pos.to_uint p)) as [|c r] eqn:E.
    { pose proof (Unsigned.to_uint_nonnil p). by destruct (Pos.to_uint p). }
    simpl in Hd. apply andb_true_iff in Hd as [Hc _].
    assert (Ascii.eqb c "-" = false ∧ Ascii.eqb c "+" = false) as [-> ->].
    { clear -Hc. destruct c as [[|] [|] [|] [|] [|] [|] [|] [|]]; vm_compute in Hc |- *; done. }
    by rewrite Hu.
  - unfold decimal. simpl. rewrite uint_text, unsigned_literal_uint. done.
Qed.

Lemma numToString_Int z : numToString (Int z) = decimal z.
Proof. reflexivity. Qed.

(** ** Entry keys *)

Lemma encode_unfold L :
  encode L = join "|" [loc_period L; decimal (loc_block L); decimal (loc_week L);
                       decimal (loc_day L); loc_exercise L].
Proof. reflexivity. Qed.

Lemma encode_split L :
  bar_free L →
  split "|" (encode L) = [loc_period L; decimal (loc_block L); decimal (loc_week L);
                          decimal (loc_day L); loc_exercise L].
Proof.
  intros [Hp He]. rewrite encode_unfold, split_join5.
  by rewrite (split_no_sep _ _ Hp), (split_no_sep _ _ He),
    !(split_no_sep _ _ (decimal_no_bar _)).
Qed.

Lemma encode_inj L L' : bar_free L → encode L' = encode L → L' = L.
Proof.
  intros [Hp He] E. rewrite !encode_unfold in E.
  apply join5_inj in E as (E1 & E2 & E3 & E4 & E5);
    auto using decimal_no_bar.
  apply decimal_inj in E2, E3, E4. destruct L, L'; simpl in *. congruence.
Qed.

Lemma getExercise_undefined d : getExercise d LUndef = None.
Proof.
  unfold getExercise. induction (exercises d) as [|e r IH]; simpl; [done|]. exact IH.
Qed.

Lemma overviewEntry_short doc ed k :
  length (split "|" k) < 5 → overviewEntry doc ed k = None.
Proof.
  intros Hl. unfold overviewEntry, splitKey.
  assert (seg (split "|" k) 4 = LUndef) as ->.
  { unfold seg. rewrite lookup_ge_None_2; [done|lia]. }
  unfold getPatchedEntry.
  destruct (getPeriod doc _) as [p|]; [|done]. destruct (getBlock p _) as [b|]; [|done].
  destruct (getWeek b _) as [w|]; [|done]. destruct (getDay w _) as [d|]; [|done].
  by rewrite getExercise_undefined.
Qed.

(** C4, amended: on locators whose slugs are free of the separator, splitting
    the entry key returns the five components, the numeric ones as their
    decimal text; the key does not depend on whether the numeric components
    are passed as numbers or as decimal strings; two such locators with the
    same key are equal.  A key of fewer than five segments gives no entry,
    for every document and overlay: the missing components read [undefined]
    and the lookup of the exercise fails.  A key of more than five segments
    is not refused: the segments after the fifth are dropped and the first
    five are decoded. *)
Theorem entryKey_codec (L : locator) (Hbar : bar_free L) :
  splitKey (encode L)
    = (LStr (loc_period L), LStr (decimal (loc_block L)), LStr (decimal (loc_week L)),
       LStr (decimal (loc_day L)), LStr (loc_exercise L))
  ∧ encode_strings L = encode L
  ∧ (∀ L', encode L' = encode L → L' = L)
  ∧ (∀ k a b c d e rest, split "|" k = a :: b :: c :: d :: e :: rest →
       splitKey k = (LStr a, LStr b, LStr c, LStr d, LStr e))
  ∧ (∀ k i, length (split "|" k) ≤ i → seg (split "|" k) i = LUndef)
  ∧ (∀ doc ed k, length (split "|" k) < 5 →
       overviewEntry doc ed k = None
       ∧ ∀ pt, pt !! "k" = None → overviewRow doc ed (recentItem k pt) = Skipped).
Proof.
  split_and!.
  - unfold splitKey. by rewrite encode_split.
  - done.
  - intros L'. by apply encode_inj.
  - intros k a b c d e rest E. unfold splitKey. by rewrite E.
  - intros k i Hi. unfold seg. by rewrite lookup_ge_None_2.
  - intros doc ed k Hk. split; [by apply overviewEntry_short|].
    intros pt Hpt. unfold overviewRow, recentItem.
    rewrite lookup_union_r by done. rewrite lookup_singleton_eq.
    by rewrite overviewEntry_short.
Qed.

Lemma entryKey_codec_witness :
  bar_free (Locator "serie-1-2026" 1 3 2 "squat")
  ∧ splitKey (encode (Locator "serie-1-2026" 1 3 2 "squat"))
    = (LStr "serie-1-2026", LStr "1", LStr "3", LStr "2", LStr "squat").
Proof.
  assert (bar_free (Locator "serie-1-2026" 1 3 2 "squat")) as Hb
    by (split; reflexivity).
  split; [exact Hb|].
  exact (proj1 (entryKey_codec (Locator "serie-1-2026" 1 3 2 "squat") Hb)).
Defined.

(** C4 as stated fails: a key of six segments is decoded to its first five,
    and the overview draws an entry for it: the row of such a key, stored in
    the overlay with a time stamp, passes the filter and is resolved. *)
Lemma splitKey_six_segments :
  length (split "|" "serie-1-2026|1|1|1|squat|x") = 6
  ∧ splitKey "serie-1-2026|1|1|1|squat|x"
    = (LStr "serie-1-2026", LStr "1", LStr "1", LStr "1", LStr "squat")
  ∧ is_Some (overviewEntry sampleDoc ∅ "serie-1-2026|1|1|1|squat|x")
  ∧ (let pt : gmap string jsval := {["updatedAt" := VStr "2026-01-01T10:00:00.000Z"]} in
     let ed : gmap string (gmap string jsval) :=
       {["serie-1-2026|1|1|1|squat|x" := pt]} in
     recentCandidates ["serie-1-2026|1|1|1|squat|x"] ed
     = [recentItem "serie-1-2026|1|1|1|squat|x" pt]
     ∧ ∃ e, overviewRow sampleDoc ed (recentItem "serie-1-2026|1|1|1|squat|x" pt)
            = Drawn e).
Proof.
  split; [reflexivity|]. split; [reflexivity|]. split.
  - apply is_Some_alt. vm_compute. exact I.
  - cbv zeta. split; [vm_compute; reflexivity|].
    eexists. vm_compute. reflexivity.
Qed.

(** ** Patches *)

Lemma assign_if_string_lookup k (pt out : gmap string jsval) f :
  assign_if_string k pt out !! f
  = if decide (k = f)
    then match pt !! k with Some (VStr s) => Some (VStr s) | _ => out !! f end
    else out !! f.
Proof.
  unfold assign_if_string. case_decide as E.
  - subst f. destruct (pt !! k) as [[]|]; try done. by rewrite lookup_insert_eq.
  - destruct (pt !! k) as [[]|]; try done. by rewrite lookup_insert_ne.
Qed.

Lemma assign_if_array_lookup k (pt out : gmap string jsval) f :
  assign_if_array k pt out !! f
  = if decide (k = f)
    then match pt !! k with Some (VArr l) => Some (VArr l) | _ => out !! f end
    else out !! f.
Proof.
  unfold assign_if_array. case_decide as E.
  - subst f. destruct (pt !! k) as [[]|]; try done. by rewrite lookup_insert_eq.
  - destruct (pt !! k) as [[]|]; try done. by rewrite lookup_insert_ne.
Qed.

Lemma assign_if_string_other k (pt out : gmap string jsval) f :
  f ≠ k → assign_if_string k pt out !! f = out !! f.
Proof. intros H. rewrite assign_if_string_lookup. case_decide; [by subst|done]. Qed.

Lemma assign_if_array_other k (pt out : gmap string jsval) f :
  f ≠ k → assign_if_array k pt out !! f = out !! f.
Proof. intros H. rewrite assign_if_array_lookup. case_decide; [by subst|done]. Qed.

Lemma assign_if_string_same k (pt out : gmap string jsval) :
  assign_if_string k pt out !! k
  = match pt !! k with Some (VStr s) => Some (VStr s) | _ => out !! k end.
Proof. rewrite assign_if_string_lookup. by case_decide. Qed.

Lemma assign_if_array_same k (pt out : gmap string jsval) :
  assign_if_array k pt out !! k
  = match pt !! k with Some (VArr l) => Some (VArr l) | _ => out !! k end.
Proof. rewrite assign_if_array_lookup. by case_decide. Qed.

(** C5: with a patch, each text field and [updatedAt] of the result is the
    patch's value when the patch holds a string there and the entry's value
    otherwise; [videos] is the patch's array when the patch holds an array
    there (the whole array, nothing of the entry's is kept) and the entry's
    value otherwise; without a patch the entry is returned as it is. *)
Theorem applyPatchToEntry_fields (e pt : gmap string jsval) :
  let out := applyPatchToEntry e (Some pt) in
  out !! "work" = match pt !! "work" with
                  | Some (VStr s) => Some (VStr s) | _ => e !! "work" end
  ∧ out !! "videos" = match pt !! "videos" with
                      | Some (VArr l) => Some (VArr l) | _ => e !! "videos" end
  ∧ out !! "lifterComment" = match pt !! "lifterComment" with
                             | Some (VStr s) => Some (VStr s)
                             | _ => e !! "lifterComment" end
  ∧ out !! "coachComment" = match pt !! "coachComment" with
                            | Some (VStr s) => Some (VStr s)
                            | _ => e !! "coachComment" end
  ∧ out !! "updatedAt" = match pt !! "updatedAt" with
                         | Some (VStr s) => Some (VStr s)
                         | _ => e !! "updatedAt" end
  ∧ applyPatchToEntry e None = e.
Proof.
  cbv zeta. unfold applyPatchToEntry. split_and!.
  - rewrite (assign_if_string_other "updatedAt" pt _ "work") by discriminate.
    rewrite (assign_if_string_other "coachComment" pt _ "work") by discriminate.
    rewrite (assign_if_string_other "lifterComment" pt _ "work") by discriminate.
    rewrite (assign_if_array_other "videos" pt _ "work") by discriminate.
    apply assign_if_string_same.
  - rewrite (assign_if_string_other "updatedAt" pt _ "videos") by discriminate.
    rewrite (assign_if_string_other "coachComment" pt _ "videos") by discriminate.
    rewrite (assign_if_string_other "lifterComment" pt _ "videos") by discriminate.
    rewrite (assign_if_array_same "videos" pt).
    rewrite (assign_if_string_other "work" pt e "videos") by discriminate.
    reflexivity.
  - rewrite (assign_if_string_other "updatedAt" pt _ "lifterComment") by discriminate.
    rewrite (assign_if_string_other "coachComment" pt _ "lifterComment") by discriminate.
    rewrite (assign_if_string_same "lifterComment" pt).
    rewrite (assign_if_array_other "videos" pt _ "lifterComment") by discriminate.
    rewrite (assign_if_string_other "work" pt e "lifterComment") by discriminate.
    reflexivity.
  - rewrite (assign_if_string_other "updatedAt" pt _ "coachComment") by discriminate.
    rewrite (assign_if_string_same "coachComment" pt).
    rewrite (assign_if_string_other "lifterComment" pt _ "coachComment") by discriminate.
    rewrite (assign_if_array_other "videos" pt _ "coachComment") by discriminate.
    rewrite (assign_if_string_other "work" pt e "coachComment") by discriminate.
    reflexivity.
  - rewrite (assign_if_string_same "updatedAt" pt).
    rewrite (assign_if_string_other "coachComment" pt _ "updatedAt") by discriminate.
    rewrite (assign_if_string_other "lifterComment" pt _ "updatedAt") by discriminate.
    rewrite (assign_if_array_other "videos" pt _ "updatedAt") by discriminate.
    rewrite (assign_if_string_other "work" pt e "updatedAt") by discriminate.
    reflexivity.
  - reflexivity.
Qed.

Lemma applyPatchToEntry_frame (e : gmap string jsval) pt f :
  f ∉ overlayable → applyPatchToEntry e pt !! f = e !! f.
Proof.
  intros Hf. destruct pt as [pt|]; [|done].
  unfold overlayable in Hf. rewrite !not_elem_of_cons in Hf.
  destruct Hf as (? & ? & ? & ? & ? & _).
  unfold applyPatchToEntry.
  rewrite (assign_if_string_other "updatedAt" pt _ f) by assumption.
  rewrite (assign_if_string_other "coachComment" pt _ f) by assumption.
  rewrite (assign_if_string_other "lifterComment" pt _ f) by assumption.
  rewrite (assign_if_array_other "videos" pt _ f) by assumption.
  apply assign_if_string_other. assumption.
Qed.

Lemma lookupChain_Some doc pid bid wk dy eid p b w d e :
  lookupChain doc pid bid wk dy eid = Some (p, b, w, d, e) ↔
  getPeriod doc pid = Some p ∧ getBlock p bid = Some b ∧ getWeek b wk = Some w
  ∧ getDay w dy = Some d ∧ getExercise d eid = Some e.
Proof.
  unfold lookupChain. split.
  - intros H. destruct (getPeriod doc pid) as [p'|] eqn:Ep; simpl in H; [|done].
    destruct (getBlock p' bid) as [b'|] eqn:Eb; simpl in H; [|done].
    destruct (getWeek b' wk) as [w'|] eqn:Ew; simpl in H; [|done].
    destruct (getDay w' dy) as [d'|] eqn:Ed; simpl in H; [|done].
    destruct (getExercise d' eid) as [e'|] eqn:Ee; simpl in H; [|done].
    by simplify_eq.
  - intros (-> & Hb & Hw & Hd & He). simpl. rewrite Hb. simpl. rewrite Hw. simpl.
    rewrite Hd. simpl. by rewrite He.
Qed.

Lemma getPatchedEntry_chain doc ed pid bid wk dy eid :
  getPatchedEntry doc ed pid bid wk dy eid
  = '(p, b, w, d, ex) ← lookupChain doc pid bid wk dy eid;
    Some (applyPatchToEntry (baseEntry pid p b w d ex)
                            (ed !! entryKey pid bid wk dy eid)).
Proof.
  unfold getPatchedEntry, lookupChain.
  destruct (getPeriod doc pid) as [p|]; simpl; [|done].
  destruct (getBlock p bid) as [b|]; simpl; [|done].
  destruct (getWeek b wk) as [w|]; simpl; [|done].
  destruct (getDay w dy) as [d|]; simpl; [|done].
  by destruct (getExercise d eid) as [e|].
Qed.

(** C10: a field outside the five overlayable ones is the same in the patched
    entry as in the entry, whatever the patch holds; so the identity and
    context fields of a resolved entry are those of the base document, for
    every overlay. *)
Theorem applyPatchToEntry_other_fields (e : gmap string jsval)
    (pt : option (gmap string jsval)) (f : string) (Hf : f ∉ overlayable) :
  applyPatchToEntry e pt !! f = e !! f
  ∧ ∀ doc ed pid bid wk dy eid p b w d ex,
      lookupChain doc pid bid wk dy eid = Some (p, b, w, d, ex) →
      ∃ out, getPatchedEntry doc ed pid bid wk dy eid = Some out
        ∧ out !! "periodId" = Some (lval_to_js pid)
        ∧ out !! "periodName" = Some (VStr (period_name p))
        ∧ out !! "blockId" = Some (VNum (Fin (block_id b)))
        ∧ out !! "week" = Some (VNum (Fin (week_num w)))
        ∧ out !! "day" = Some (VNum (Fin (day_num d)))
        ∧ out !! "exerciseId" = Some (VStr (ex_id ex))
        ∧ out !! "exerciseName" = Some (VStr (ex_name ex)).
Proof.
  split; [by apply applyPatchToEntry_frame|].
  intros doc ed pid bid wk dy eid p b w d ex Hc.
  rewrite getPatchedEntry_chain, Hc. simpl. eexists. split; [done|].
  repeat split; (rewrite applyPatchToEntry_frame; [done|]);
    unfold overlayable; rewrite !not_elem_of_cons; repeat split; try done;
    apply not_elem_of_nil.
Qed.

Lemma applyPatchToEntry_other_fields_witness :
  applyPatchToEntry {["periodId" := VStr "serie-1-2026"]}
    (Some {["periodId" := VStr "other"; "work" := VStr "x"]}) !! "periodId"
  = Some (VStr "serie-1-2026").
Proof.
  assert ("periodId" ∉ overlayable) as Hf.
  { unfold overlayable. rewrite !not_elem_of_cons. repeat split; try done.
    apply not_elem_of_nil. }
  exact (proj1 (applyPatchToEntry_other_fields
                  {["periodId" := VStr "serie-1-2026"]}
                  (Some {["periodId" := VStr "other"; "work" := VStr "x"]})
                  "periodId" Hf)).
Defined.

(** C6: after [saveEntryPatch] the overlay holds, under the key of the
    selection, the previous patch (the empty one when there was none)
    overridden field by field by the partial patch, with [updatedAt] set to
    the time of the write whatever the two patches hold; reading the key
    back returns that patch, and nothing else in the state changes. *)
Theorem saveEntryPatch_upsert (now : string) (partialPatch : gmap string jsval)
    (st : state) :
  let key := selKey (sel st) in
  let prev := default ∅ (edits st !! key) in
  let st' := saveEntryPatch now partialPatch st in
  ∃ next, edits st' !! key = Some next
    ∧ (∀ f, f ≠ "updatedAt" →
         next !! f = match partialPatch !! f with
                     | Some v => Some v
                     | None => prev !! f
                     end)
    ∧ next !! "updatedAt" = Some (VStr now)
    ∧ (∀ k, k ≠ key → edits st' !! k = edits st !! k)
    ∧ baseData st' = baseData st ∧ sel st' = sel st.
Proof.
  cbv zeta. unfold saveEntryPatch. simpl. eexists. split.
  { apply lookup_insert_eq. }
  unfold nextPatch. repeat split.
  - intros f Hf. rewrite lookup_insert_ne by done. rewrite lookup_union.
    destruct (partialPatch !! f), (default ∅ (edits st !! selKey (sel st)) !! f); done.
  - apply lookup_insert_eq.
  - intros k Hk. by rewrite lookup_insert_ne.
Qed.

Lemma lookupChain_None doc pid bid wk dy eid :
  lookupChain doc pid bid wk dy eid = None ↔ chain_fails doc pid bid wk dy eid.
Proof.
  unfold lookupChain, chain_fails. split.
  - intros H. destruct (getPeriod doc pid) as [p|] eqn:Ep; simpl in H; [|by left].
    right. exists p. split; [done|].
    destruct (getBlock p bid) as [b|] eqn:Eb; simpl in H; [|by left].
    right. exists b. split; [done|].
    destruct (getWeek b wk) as [w|] eqn:Ew; simpl in H; [|by left].
    right. exists w. split; [done|].
    destruct (getDay w dy) as [d|] eqn:Ed; simpl in H; [|by left].
    right. exists d. split; [done|].
    by destruct (getExercise d eid).
  - intros [->|(p & -> & [Hb|(b & Hb & [Hw|(w & Hw & [Hd|(d & Hd & He)])])])];
      simpl; [done|..]; rewrite Hb; simpl; [done|..]; rewrite Hw; simpl; [done|..];
      rewrite Hd; simpl; [done|]. by rewrite He.
Qed.

Ltac lookup_fields :=
  unfold applyPatchToEntry;
  repeat match goal with
    | |- context [assign_if_string ?k ?pt ?out !! ?f] =>
        first [ rewrite (assign_if_string_other k pt out f) by discriminate
              | rewrite (assign_if_string_same k pt out) ]
    | |- context [assign_if_array ?k ?pt ?out !! ?f] =>
        first [ rewrite (assign_if_array_other k pt out f) by discriminate
              | rewrite (assign_if_array_same k pt out) ]
    end.

Lemma patched_string_field (e pt : gmap string jsval) f :
  f ∈ ["work"; "lifterComment"; "coachComment"; "updatedAt"] →
  applyPatchToEntry e (Some pt) !! f
  = match pt !! f with Some (VStr s) => Some (VStr s) | _ => e !! f end.
Proof.
  rewrite !elem_of_cons. intros [->|[->|[->|[->|H]]]]; [..|by apply elem_of_nil in H];
    lookup_fields; reflexivity.
Qed.

Lemma patched_videos_field (e pt : gmap string jsval) :
  applyPatchToEntry e (Some pt) !! "videos"
  = match pt !! "videos" with Some (VArr l) => Some (VArr l) | _ => e !! "videos" end.
Proof. lookup_fields. reflexivity. Qed.

Lemma baseEntry_fields pid p b w d ex :
  baseEntry pid p b w d ex !! "work" = Some (js_or (work ex) (VStr ""))
  ∧ baseEntry pid p b w d ex !! "videos"
    = Some (match videos ex with VArr l => VArr l | _ => VArr [] end)
  ∧ baseEntry pid p b w d ex !! "lifterComment" = Some (js_or (lifterComment ex) (VStr ""))
  ∧ baseEntry pid p b w d ex !! "coachComment" = Some (js_or (coachComment ex) (VStr ""))
  ∧ baseEntry pid p b w d ex !! "updatedAt" = Some (js_or (updatedAt ex) VNull).
Proof. split_and!; reflexivity. Qed.

Lemma or_default_spec (v dflt : jsval) :
  js_or v dflt
  = match v with
    | VUndef | VNull => dflt
    | VBool t => if t then v else dflt
    | VNum NaN => dflt
    | VNum (Fin n) => if (mant n =? 0)%Z then dflt else v
    | VStr EmptyString => dflt
    | VStr (String _ _) | VArr _ | VObj _ => v
    end.
Proof.
  unfold js_or. destruct v as [| |[]|[|n]|[|c r]|l|o]; simpl; try done.
  by destruct (mant n =? 0)%Z.
Qed.

(** C2: [getPatchedEntry] returns [null] exactly when one of the five chained
    lookups fails, whatever the overlay holds.  When the five succeed it
    returns an entry, and each optional field of that entry is given here
    from the exercise found and the patch stored under the entry key: [work],
    [lifterComment] and [coachComment] are the patch's string when the patch
    holds a string there, otherwise the exercise's value, a falsy one
    ([undefined], [null], [false], [0], [NaN], the empty string) replaced by
    the empty string; [updatedAt] likewise with [null] as the default;
    [videos] is the patch's array when the patch holds an array there,
    otherwise the exercise's array, or the empty array when the exercise has
    none.  So the defaults come first and the patch is applied over them. *)
Theorem getPatchedEntry_resolves (doc : document)
    (ed : gmap string (gmap string jsval)) (pid bid wk dy eid : lval) :
  (getPatchedEntry doc ed pid bid wk dy eid = None ↔ chain_fails doc pid bid wk dy eid)
  ∧ ∀ p b w d ex,
      getPeriod doc pid = Some p → getBlock p bid = Some b →
      getWeek b wk = Some w → getDay w dy = Some d → getExercise d eid = Some ex →
      let base := baseEntry pid p b w d ex in
      let patch := ed !! entryKey pid bid wk dy eid in
      let or_default := fun v dflt : jsval =>
        match v with
        | VUndef | VNull => dflt
        | VBool t => if t then v else dflt
        | VNum NaN => dflt
        | VNum (Fin n) => if (mant n =? 0)%Z then dflt else v
        | VStr EmptyString => dflt
        | VStr (String _ _) | VArr _ | VObj _ => v
        end in
      let text := fun (f : string) (v dflt : jsval) =>
        match patch ≫= (.!! f) with
        | Some (VStr s) => VStr s
        | _ => or_default v dflt
        end in
      getPatchedEntry doc ed pid bid wk dy eid
        = Some (applyPatchToEntry base (ed !! entryKey pid bid wk dy eid))
      ∧ base !! "work" = Some (js_or (work ex) (VStr ""))
      ∧ base !! "lifterComment" = Some (js_or (lifterComment ex) (VStr ""))
      ∧ base !! "coachComment" = Some (js_or (coachComment ex) (VStr ""))
      ∧ base !! "videos" = Some (match videos ex with VArr l => VArr l | _ => VArr [] end)
      ∧ base !! "updatedAt" = Some (js_or (updatedAt ex) VNull)
      ∧ (work ex = VUndef → base !! "work" = Some (VStr ""))
      ∧ (lifterComment ex = VUndef → base !! "lifterComment" = Some (VStr ""))
      ∧ (coachComment ex = VUndef → base !! "coachComment" = Some (VStr ""))
      ∧ (videos ex = VUndef → base !! "videos" = Some (VArr []))
      ∧ (updatedAt ex = VUndef → base !! "updatedAt" = Some VNull)
      ∧ ∃ out,
          getPatchedEntry doc ed pid bid wk dy eid = Some out
          ∧ out !! "work" = Some (text "work" (work ex) (VStr ""))
          ∧ out !! "lifterComment" = Some (text "lifterComment" (lifterComment ex) (VStr ""))
          ∧ out !! "coachComment" = Some (text "coachComment" (coachComment ex) (VStr ""))
          ∧ out !! "updatedAt" = Some (text "updatedAt" (updatedAt ex) VNull)
          ∧ out !! "videos"
            = Some (match patch ≫= (.!! "videos") with
                    | Some (VArr l) => VArr l
                    | _ => match videos ex with VArr l => VArr l | _ => VArr [] end
                    end).
Proof.
  split.
  - rewrite <- lookupChain_None, getPatchedEntry_chain.
    destruct (lookupChain doc pid bid wk dy eid) as [[[[[p b] w] d] ex]|]; simpl; done.
  - intros p b w d ex Hp Hb Hw Hd He. cbv zeta.
    assert (lookupChain doc pid bid wk dy eid = Some (p, b, w, d, ex)) as Hc
      by (apply lookupChain_Some; done).
    rewrite getPatchedEntry_chain, Hc. simpl.
    destruct (baseEntry_fields pid p b w d ex) as (Fw & Fv & Fl & Fc & Fu).
    split; [done|]. split; [done|]. split; [done|]. split; [done|].
    split; [done|]. split; [done|].
    split; [by intros E; rewrite Fw, E|]. split; [by intros E; rewrite Fl, E|].
    split; [by intros E; rewrite Fc, E|]. split; [by intros E; rewrite Fv, E|].
    split; [by intros E; rewrite Fu, E|].
    eexists. split; [done|].
    destruct (ed !! entryKey pid bid wk dy eid) as [pt|].
    + split_and!.
      * rewrite patched_string_field by (rewrite !elem_of_cons; auto).
        rewrite Fw, or_default_spec. simpl. by destruct (pt !! "work") as [[]|].
      * rewrite patched_string_field by (rewrite !elem_of_cons; auto).
        rewrite Fl, or_default_spec. simpl. by destruct (pt !! "lifterComment") as [[]|].
      * rewrite patched_string_field by (rewrite !elem_of_cons; auto).
        rewrite Fc, or_default_spec. simpl. by destruct (pt !! "coachComment") as [[]|].
      * rewrite patched_string_field by (rewrite !elem_of_cons; auto).
        rewrite Fu, or_default_spec. simpl. by destruct (pt !! "updatedAt") as [[]|].
      * rewrite patched_videos_field, Fv. simpl. by destruct (pt !! "videos") as [[]|].
    + simpl. rewrite Fw, Fl, Fc, Fu, Fv, !or_default_spec. done.
Qed.

(** ** Lists: the first match and its replacement *)

Lemma find_head {A} (P : A → bool) l x :
  head l = Some x → P x = true → find P l = Some x.
Proof. destruct l as [|y r]; simpl; [done|]. intros [= ->] ->. done. Qed.

Lemma find_singleton {A} (P : A → bool) x c : find P [x] = Some c → c = x.
Proof. simpl. destruct (P x); congruence. Qed.

Lemma find_true {A} (P : A → bool) l c : find P l = Some c → P c = true.
Proof. intros H. by apply find_some in H as [_ ?]. Qed.

Lemma find_modify_first {A} (P : A → bool) l c c' :
  find P l = Some c → P c' = true →
  find P (modify_first P (fun _ => c') l) = Some c'.
Proof.
  intros Hf Hc'. induction l as [|x r IH]; simpl in *; [done|].
  destruct (P x) eqn:Px; simpl; [by rewrite Hc'|]. rewrite Px. auto.
Qed.

Lemma find_other_modify_first {A} (P Q : A → bool) l c c' :
  find P l = Some c → Q c' = Q c →
  is_none (find Q (modify_first P (fun _ => c') l)) = is_none (find Q l).
Proof.
  intros Hf HQ. induction l as [|x r IH]; simpl in *; [done|].
  destruct (P x) eqn:Px; simpl.
  - injection Hf as ->. rewrite HQ. by destruct (Q c).
  - destruct (Q x); [done|]. auto.
Qed.

Lemma modify_first_head {A} (P : A → bool) f x r :
  P x = true → modify_first P f (x :: r) = f x :: r.
Proof. simpl. by intros ->. Qed.

Lemma Forall2_modify_first {A} (R : A → A → Prop) (P : A → bool) l c c' :
  (∀ x, R x x) → find P l = Some c → R c c' →
  Forall2 R l (modify_first P (fun _ => c') l).
Proof.
  intros Hrefl Hf Hc. induction l as [|x r IH]; simpl in *; [done|].
  destruct (P x) eqn:Px.
  - injection Hf as ->. constructor; [done|]. by apply Forall_Forall2_diag, Forall_forall.
  - constructor; auto.
Qed.

Lemma ext_list_modify {A} (R : A → A → Prop) (P : A → bool) ph l c c' :
  (∀ x, R x x) → find P (push_if_empty ph l) = Some c → R c c' →
  ext_list R ph l (modify_first P (fun _ => c') (push_if_empty ph l)).
Proof.
  intros Hrefl Hf Hc. destruct l as [|x r].
  - right. split; [done|]. simpl in *. destruct (P ph); [|done].
    injection Hf as ->. eauto.
  - left. by apply (Forall2_modify_first R P _ c c').
Qed.

Lemma push_if_empty_head {A} (ph : A) l : ∃ x, head (push_if_empty ph l) = Some x.
Proof. destruct l; simpl; eauto. Qed.

Lemma ext_list_refl {A} (R : A → A → Prop) ph l : (∀ x, R x x) → ext_list R ph l l.
Proof. intros H. left. by apply Forall_Forall2_diag, Forall_forall. Qed.

Lemma ext_day_refl d : ext_day d d.
Proof. repeat split. by apply ext_list_refl. Qed.
Lemma ext_week_refl w : ext_week w w.
Proof. split; [done|]. apply ext_list_refl, ext_day_refl. Qed.
Lemma ext_block_refl b : ext_block b b.
Proof. split; [done|]. apply ext_list_refl, ext_week_refl. Qed.
Lemma ext_period_refl p : ext_period p p.
Proof. repeat split. apply ext_list_refl, ext_block_refl. Qed.

Lemma num_eqb_refl n : num_eqb n n = true.
Proof. unfold num_eqb. apply Z.eqb_refl. Qed.

Lemma falsy_is_set v : falsy v = false → is_set v = true.
Proof. by destruct v. Qed.

(** ** The selection fallback, level by level *)

Lemma ensureExercise_spec d eid :
  ∃ d' eid', ensureExercise d eid = Some (d', eid')
    ∧ ext_day d d' ∧ is_set eid' = true
    ∧ (∃ e, getExercise d' eid' = Some e)
    ∧ fallback_exercise d' eid eid'.
Proof.
  unfold ensureExercise.
  set (d1 := Day (day_num d) (label d) (push_if_empty placeholderExercise (exercises d))).
  assert (ext_day d d1) as Hext.
  { repeat split. simpl. destruct (exercises d); [right|left]; simpl; eauto.
    by apply Forall_Forall2_diag, Forall_forall. }
  destruct (falsy eid || is_none (getExercise d1 eid)) eqn:Hc.
  - destruct (push_if_empty_head placeholderExercise (exercises d)) as [e0 He0].
    change (exercises d1) with (push_if_empty placeholderExercise (exercises d)).
    rewrite He0. simpl. exists d1, (LStr (ex_id e0)). repeat split; try apply Hext.
    + exists e0. apply find_head; [done|]. simpl. apply String.eqb_refl.
    + unfold fallback_exercise. rewrite Hc. by exists e0.
  - exists d1, eid. apply orb_false_iff in Hc as [Hf Hn].
    repeat split; try apply Hext.
    + by apply falsy_is_set.
    + destruct (getExercise d1 eid); [eauto|done].
    + unfold fallback_exercise. by rewrite Hf, Hn.
Qed.

Lemma ensureDay_spec w dy eid :
  ∃ w' dy' eid', ensureDay w dy eid = Some (w', dy', eid')
    ∧ ext_week w w' ∧ is_set dy' = true ∧ is_set eid' = true
    ∧ (∃ d e, getDay w' dy' = Some d ∧ getExercise d eid' = Some e)
    ∧ fallback_day w' dy eid dy' eid'.
Proof.
  unfold ensureDay.
  set (ds := push_if_empty (Day (Int 1) "Day 1" []) (days w)).
  set (w1 := Week (week_num w) ds).
  destruct (falsy dy || is_none (getDay w1 dy)) eqn:Hc.
  - destruct (push_if_empty_head (Day (Int 1) "Day 1" []) (days w)) as [d0 Hd0].
    change (days w1) with ds. fold ds in Hd0. rewrite Hd0. simpl.
    assert (getDay w1 (LNum (Fin (day_num d0))) = Some d0) as Hg.
    { apply find_head; [done|]. apply num_eqb_refl. }
    rewrite Hg. simpl.
    destruct (ensureExercise_spec d0 LNull) as (d' & eid' & -> & Hext & Hset & [e He] & Hfb).
    simpl. eexists _, _, _. split; [done|].
    assert (day_matches (LNum (Fin (day_num d0))) d' = true) as Hm.
    { unfold day_matches. destruct Hext as [-> _]. apply num_eqb_refl. }
    assert (getDay (Week (week_num w)
              (modify_first (day_matches (LNum (Fin (day_num d0)))) (fun _ => d') ds))
              (LNum (Fin (day_num d0))) = Some d') as Hg'.
    { unfold getDay. simpl. by eapply find_modify_first. }
    repeat split.
    + simpl. eapply ext_list_modify; [apply ext_day_refl|exact Hg|done].
    + done.
    + exists d', e. done.
    + unfold fallback_day, getDay. simpl.
      rewrite (find_other_modify_first _ _ _ d0 d') by
        (first [exact Hg | unfold day_matches; by destruct Hext as [-> _]]).
      change (find (day_matches dy) ds) with (getDay w1 dy). rewrite Hc.
      exists d'. split.
      { destruct ds as [|x r]; [done|]. simpl in Hd0. injection Hd0 as ->.
        rewrite modify_first_head; [done|]. apply num_eqb_refl. }
      split; [by destruct Hext as [-> _]|].
      unfold fallback_exercise in Hfb. simpl in Hfb. done.
  - apply orb_false_iff in Hc as [Hf Hn]. simpl.
    destruct (getDay w1 dy) as [d|] eqn:Hg; [|done]. simpl.
    destruct (ensureExercise_spec d eid) as (d' & eid' & -> & Hext & Hset & [e He] & Hfb).
    simpl. eexists _, _, _. split; [done|].
    assert (day_matches dy d' = true) as Hm.
    { pose proof (find_true _ _ _ Hg) as Hd. unfold day_matches in *.
      by destruct Hext as [-> _]. }
    assert (getDay (Week (week_num w) (modify_first (day_matches dy) (fun _ => d') ds)) dy
            = Some d') as Hg'.
    { unfold getDay. simpl. by eapply find_modify_first. }
    repeat split.
    + simpl. eapply ext_list_modify; [apply ext_day_refl|exact Hg|done].
    + by apply falsy_is_set.
    + done.
    + exists d', e. done.
    + unfold fallback_day. rewrite Hf, Hg'. simpl. eauto.
Qed.

Lemma ensureWeek_spec b wk dy eid :
  ∃ b' wk' dy' eid', ensureWeek b wk dy eid = Some (b', wk', dy', eid')
    ∧ ext_block b b'
    ∧ is_set wk' = true ∧ is_set dy' = true ∧ is_set eid' = true
    ∧ (∃ w d e, getWeek b' wk' = Some w ∧ getDay w dy' = Some d
                ∧ getExercise d eid' = Some e)
    ∧ fallback_week b' wk dy eid wk' dy' eid'.
Proof.
  unfold ensureWeek.
  set (ws := push_if_empty (Week (Int 1) []) (weeks b)).
  set (b1 := Block (block_id b) ws).
  destruct (falsy wk || is_none (getWeek b1 wk)) eqn:Hc.
  - destruct (push_if_empty_head (Week (Int 1) []) (weeks b)) as [w0 Hw0].
    change (weeks b1) with ws. fold ws in Hw0. rewrite Hw0. simpl.
    assert (getWeek b1 (LNum (Fin (week_num w0))) = Some w0) as Hg.
    { apply find_head; [done|]. apply num_eqb_refl. }
    rewrite Hg. simpl.
    destruct (ensureDay_spec w0 LNull LNull)
      as (w' & dy' & eid' & -> & Hext & Hs1 & Hs2 & (d & e & Hd & He) & Hfb).
    simpl. eexists _, _, _, _. split; [done|].
    assert (week_matches (LNum (Fin (week_num w0))) w' = true) as Hm.
    { unfold week_matches. destruct Hext as [-> _]. apply num_eqb_refl. }
    assert (getWeek (Block (block_id b)
              (modify_first (week_matches (LNum (Fin (week_num w0)))) (fun _ => w') ws))
              (LNum (Fin (week_num w0))) = Some w') as Hg'.
    { unfold getWeek. simpl. by eapply find_modify_first. }
    repeat split; try done.
    + simpl. eapply ext_list_modify; [apply ext_week_refl|exact Hg|done].
    + exists w', d, e. done.
    + unfold fallback_week, getWeek. simpl.
      rewrite (find_other_modify_first _ _ _ w0 w') by
        (first [exact Hg | unfold week_matches; by destruct Hext as [-> _]]).
      change (find (week_matches wk) ws) with (getWeek b1 wk). rewrite Hc.
      exists w'. split.
      { destruct ws as [|x r]; [done|]. simpl in Hw0. injection Hw0 as ->.
        rewrite modify_first_head; [done|]. apply num_eqb_refl. }
      split; [by destruct Hext as [-> _]|]. exact Hfb.
  - apply orb_false_iff in Hc as [Hf Hn]. simpl.
    destruct (getWeek b1 wk) as [w|] eqn:Hg; [|done]. simpl.
    destruct (ensureDay_spec w dy eid)
      as (w' & dy' & eid' & -> & Hext & Hs1 & Hs2 & (d & e & Hd & He) & Hfb).
    simpl. eexists _, _, _, _. split; [done|].
    assert (week_matches wk w' = true) as Hm.
    { pose proof (find_true _ _ _ Hg) as Hw. unfold week_matches in *.
      by destruct Hext as [-> _]. }
    assert (getWeek (Block (block_id b) (modify_first (week_matches wk) (fun _ => w') ws)) wk
            = Some w') as Hg'.
    { unfold getWeek. simpl. by eapply find_modify_first. }
    repeat split; try done.
    + simpl. eapply ext_list_modify; [apply ext_week_refl|exact Hg|done].
    + by apply falsy_is_set.
    + exists w', d, e. done.
    + unfold fallback_week. rewrite Hf, Hg'. simpl. eauto.
Qed.

Lemma block_matches_self b : block_matches (LNum (Fin (block_id b))) b = true.
Proof. unfold block_matches. apply String.eqb_refl. Qed.

Lemma ensureBlock_spec p bid wk dy eid :
  ∃ p' bid' wk' dy' eid', ensureBlock p bid wk dy eid = Some (p', bid', wk', dy', eid')
    ∧ ext_period p p'
    ∧ is_set bid' = true ∧ is_set wk' = true ∧ is_set dy' = true ∧ is_set eid' = true
    ∧ (∃ b w d e, getBlock p' bid' = Some b ∧ getWeek b wk' = Some w
                  ∧ getDay w dy' = Some d ∧ getExercise d eid' = Some e)
    ∧ fallback_block p' bid wk dy eid bid' wk' dy' eid'.
Proof.
  unfold ensureBlock.
  set (bs := push_if_empty (Block (Int 1) []) (blocks p)).
  set (p1 := Period (period_id p) (period_name p) bs).
  destruct (falsy bid || is_none (getBlock p1 bid)) eqn:Hc.
  - destruct (push_if_empty_head (Block (Int 1) []) (blocks p)) as [b0 Hb0].
    change (blocks p1) with bs. fold bs in Hb0. rewrite Hb0. simpl.
    assert (getBlock p1 (LNum (Fin (block_id b0))) = Some b0) as Hg.
    { apply find_head; [done|]. apply block_matches_self. }
    rewrite Hg. simpl.
    destruct (ensureWeek_spec b0 LNull LNull LNull)
      as (b' & wk' & dy' & eid' & -> & Hext & Hs1 & Hs2 & Hs3 & (w & d & e & Hw & Hd & He) & Hfb).
    simpl. eexists _, _, _, _, _. split; [done|].
    assert (block_matches (LNum (Fin (block_id b0))) b' = true) as Hm.
    { destruct Hext as [E _]. rewrite <- E. apply block_matches_self. }
    assert (getBlock (Period (period_id p) (period_name p)
              (modify_first (block_matches (LNum (Fin (block_id b0)))) (fun _ => b') bs))
              (LNum (Fin (block_id b0))) = Some b') as Hg'.
    { unfold getBlock. simpl. by eapply find_modify_first. }
    repeat split; try done.
    + simpl. eapply ext_list_modify; [apply ext_block_refl|exact Hg|done].
    + exists b', w, d, e. done.
    + unfold fallback_block, getBlock. simpl.
      rewrite (find_other_modify_first _ _ _ b0 b') by
        (first [exact Hg | unfold block_matches; by destruct Hext as [-> _]]).
      change (find (block_matches bid) bs) with (getBlock p1 bid). rewrite Hc.
      exists b'. split.
      { destruct bs as [|x r]; [done|]. simpl in Hb0. injection Hb0 as ->.
        rewrite modify_first_head; [done|]. apply block_matches_self. }
      split; [by destruct Hext as [-> _]|]. exact Hfb.
  - apply orb_false_iff in Hc as [Hf Hn]. simpl.
    destruct (getBlock p1 bid) as [b|] eqn:Hg; [|done]. simpl.
    destruct (ensureWeek_spec b wk dy eid)
      as (b' & wk' & dy' & eid' & -> & Hext & Hs1 & Hs2 & Hs3 & (w & d & e & Hw & Hd & He) & Hfb).
    simpl. eexists _, _, _, _, _. split; [done|].
    assert (block_matches bid b' = true) as Hm.
    { pose proof (find_true _ _ _ Hg) as Hb. unfold block_matches in *.
      by destruct Hext as [-> _]. }
    assert (getBlock (Period (period_id p) (period_name p)
              (modify_first (block_matches bid) (fun _ => b') bs)) bid = Some b') as Hg'.
    { unfold getBlock. simpl. by eapply find_modify_first. }
    repeat split; try done.
    + simpl. eapply ext_list_modify; [apply ext_block_refl|exact Hg|done].
    + by apply falsy_is_set.
    + exists b', w, d, e. done.
    + unfold fallback_block. rewrite Hf, Hg'. simpl. eauto.
Qed.

Lemma period_matches_self p : period_matches (LStr (period_id p)) p = true.
Proof. unfold period_matches. simpl. apply String.eqb_refl. Qed.

Lemma period_matches_set pid p : period_matches pid p = true → is_set pid = true.
Proof. by destruct pid. Qed.

(** [ensureSelected] never throws; it only fills empty sequences with a
    placeholder, and the selection it leaves resolves and obeys the
    first-child rule. *)
Lemma ensureSelection_spec doc s :
  ∃ doc' s', ensureSelection doc s = Some (doc', s')
    ∧ ext_document doc doc' ∧ complete s'
    ∧ is_Some (lookupChain doc' (periodId s') (blockId s') (sel_week s')
                           (sel_day s') (exerciseId s'))
    ∧ fallback_selection doc' s s'.
Proof.
  unfold ensureSelection.
  set (ps := push_if_empty placeholderPeriod (periods doc)).
  set (doc1 := Document ps).
  destruct (falsy (periodId s) || is_none (getPeriod doc1 (periodId s))) eqn:Hc.
  - destruct (push_if_empty_head placeholderPeriod (periods doc)) as [p0 Hp0].
    change (periods doc1) with ps. fold ps in Hp0. rewrite Hp0. simpl.
    assert (getPeriod doc1 (LStr (period_id p0)) = Some p0) as Hg.
    { apply find_head; [done|]. apply period_matches_self. }
    rewrite Hg. simpl.
    destruct (ensureBlock_spec p0 LNull LNull LNull LNull)
      as (p' & bid' & wk' & dy' & eid' & -> & Hext & Hs1 & Hs2 & Hs3 & Hs4
          & (b & w & d & e & Hb & Hw & Hd & He) & Hfb).
    simpl. eexists _, _. split; [done|].
    assert (period_matches (LStr (period_id p0)) p' = true) as Hm.
    { destruct Hext as [E _]. rewrite <- E. apply period_matches_self. }
    assert (getPeriod (Document
              (modify_first (period_matches (LStr (period_id p0))) (fun _ => p') ps))
              (LStr (period_id p0)) = Some p') as Hg'.
    { unfold getPeriod. simpl. by eapply find_modify_first. }
    repeat split; try done.
    + eapply ext_list_modify; [apply ext_period_refl|exact Hg|done].
    + exists (p', b, w, d, e). apply lookupChain_Some. simpl. done.
    + unfold fallback_selection, getPeriod. simpl.
      rewrite (find_other_modify_first _ _ _ p0 p') by
        (first [exact Hg | unfold period_matches; by destruct Hext as [-> _]]).
      change (find (period_matches (periodId s)) ps) with (getPeriod doc1 (periodId s)).
      rewrite Hc.
      exists p'. split.
      { destruct ps as [|x r]; [done|]. simpl in Hp0. injection Hp0 as ->.
        rewrite modify_first_head; [done|]. apply period_matches_self. }
      split; [by destruct Hext as [-> _]|]. exact Hfb.
  - apply orb_false_iff in Hc as [Hf Hn]. simpl.
    destruct (getPeriod doc1 (periodId s)) as [p|] eqn:Hg; [|done]. simpl.
    destruct (ensureBlock_spec p (blockId s) (sel_week s) (sel_day s) (exerciseId s))
      as (p' & bid' & wk' & dy' & eid' & -> & Hext & Hs1 & Hs2 & Hs3 & Hs4
          & (b & w & d & e & Hb & Hw & Hd & He) & Hfb).
    simpl. eexists _, _. split; [done|].
    assert (period_matches (periodId s) p' = true) as Hm.
    { pose proof (find_true _ _ _ Hg) as Hp. unfold period_matches in *.
      by destruct Hext as [-> _]. }
    assert (getPeriod (Document (modify_first (period_matches (periodId s)) (fun _ => p') ps))
                      (periodId s) = Some p') as Hg'.
    { unfold getPeriod. simpl. by eapply find_modify_first. }
    repeat split; try done.
    + eapply ext_list_modify; [apply ext_period_refl|exact Hg|done].
    + simpl. by apply falsy_is_set.
    + exists (p', b, w, d, e). apply lookupChain_Some. simpl. done.
    + unfold fallback_selection. simpl. rewrite Hf, Hg'. simpl. eauto.
Qed.

(** C9: [ensureSelected] always returns; it leaves the overlay alone and
    changes the document only by giving an empty sequence one placeholder
    child; afterwards the selection has its five components set and resolves
    in the document, so an entry is shown for it; a component that was falsy
    or absent from its level has been replaced by the first child of that
    level, and every component below it by first children as well, while a
    component that is found is kept. *)
Theorem ensureSelected_resolves (st : state) :
  ∃ st', ensureSelected st = Some st'
    ∧ edits st' = edits st
    ∧ ext_document (baseData st) (baseData st')
    ∧ complete (sel st')
    ∧ is_Some (lookupChain (baseData st') (periodId (sel st')) (blockId (sel st'))
                 (sel_week (sel st')) (sel_day (sel st')) (exerciseId (sel st')))
    ∧ is_Some (getPatchedEntry (baseData st') (edits st') (periodId (sel st'))
                 (blockId (sel st')) (sel_week (sel st')) (sel_day (sel st'))
                 (exerciseId (sel st')))
    ∧ fallback_selection (baseData st') (sel st) (sel st').
Proof.
  unfold ensureSelected.
  destruct (ensureSelection_spec (baseData st) (sel st))
    as (doc' & s' & -> & Hext & Hcomp & Hres & Hfb).
  simpl. eexists. split; [done|]. simpl. repeat split; try done; try apply Hcomp.
  rewrite getPatchedEntry_chain. destruct Hres as [[[[[p b] w] d] e] ->]. simpl. eauto.
Qed.

(** ** Sorting *)

Section Sorting.
Context {A : Type} (cmp : A → A → Z).
Hypothesis cmp_total : ∀ a b, cmp_le cmp a b ∨ cmp_le cmp b a.
Hypothesis cmp_trans : ∀ a b c, cmp_le cmp a b → cmp_le cmp b c → cmp_le cmp a c.

Lemma sort_insert_perm x l : sort_insert cmp x l ≡ₚ x :: l.
Proof.
  induction l as [|y r IH]; simpl; [done|].
  destruct (cmp x y <=? 0)%Z; [done|]. rewrite IH. apply perm_swap.
Qed.

Lemma js_sort_perm l : js_sort cmp l ≡ₚ l.
Proof.
  induction l as [|x r IH]; simpl; [done|]. by rewrite sort_insert_perm, IH.
Qed.

Lemma sort_insert_sorted x l :
  StronglySorted (cmp_le cmp) l → StronglySorted (cmp_le cmp) (sort_insert cmp x l).
Proof.
  induction 1 as [|y r Hs IH Hy]; simpl.
  - repeat constructor.
  - destruct (Z.leb_spec (cmp x y) 0) as [Hxy|Hxy].
    + constructor; [by constructor|]. constructor; [done|].
      eapply Forall_impl; [exact Hy|]. intros z Hz. by eapply cmp_trans.
    + constructor; [done|]. rewrite sort_insert_perm. constructor; [|done].
      destruct (cmp_total x y) as [H|H]; [unfold cmp_le in H; lia | done].
Qed.

Lemma js_sort_sorted l : StronglySorted (cmp_le cmp) (js_sort cmp l).
Proof.
  induction l as [|x r IH]; simpl; [constructor|]. by apply sort_insert_sorted.
Qed.

End Sorting.

Lemma pow10_pos k : (0 < pow10 k)%Z.
Proof. unfold pow10. apply Z.pow_pos_nonneg; lia. Qed.

Lemma num_cmp_le a b : cmp_le num_cmp a b ↔ num_le a b.
Proof.
  unfold cmp_le, num_cmp, num_le, num_leb, num_sub. simpl.
  rewrite Z.sgn_nonpos, Z.leb_le. lia.
Qed.

Lemma num_le_total a b : num_le a b ∨ num_le b a.
Proof. unfold num_le, num_leb. rewrite !Z.leb_le. lia. Qed.

Lemma num_le_trans a b c : num_le a b → num_le b c → num_le a c.
Proof.
  unfold num_le, num_leb. rewrite !Z.leb_le. intros H1 H2.
  pose proof (pow10_pos (scale a)) as Pa. pose proof (pow10_pos (scale b)) as Pb.
  pose proof (pow10_pos (scale c)) as Pc.
  apply (Z.mul_le_mono_pos_r _ _ (pow10 (scale b))); [done|].
  apply Z.le_trans with (mant b * pow10 (scale a) * pow10 (scale c))%Z.
  - replace (mant a * pow10 (scale c) * pow10 (scale b))%Z
      with (mant a * pow10 (scale b) * pow10 (scale c))%Z by ring.
    apply Z.mul_le_mono_pos_r; done.
  - replace (mant b * pow10 (scale a) * pow10 (scale c))%Z
      with (mant b * pow10 (scale c) * pow10 (scale a))%Z by ring.
    replace (mant c * pow10 (scale a) * pow10 (scale b))%Z
      with (mant c * pow10 (scale b) * pow10 (scale a))%Z by ring.
    apply Z.mul_le_mono_pos_r; done.
Qed.

(** Sorting nodes by the numeric comparator of the handlers leaves their
    identifiers in ascending order. *)
Lemma sort_by_number {A} (f : A → num) (l : list A) :
  StronglySorted num_le (map f (js_sort (fun a b => num_cmp (f a) (f b)) l))
  ∧ map f (js_sort (fun a b => num_cmp (f a) (f b)) l) ≡ₚ map f l.
Proof.
  split.
  - apply (StronglySorted_fmap f (cmp_le (fun a b => num_cmp (f a) (f b)))).
    { intros x y. apply num_cmp_le. }
    apply js_sort_sorted.
    + intros a b. unfold cmp_le. fold (cmp_le num_cmp (f a) (f b)).
      fold (cmp_le num_cmp (f b) (f a)). rewrite !num_cmp_le. apply num_le_total.
    + intros a b c. unfold cmp_le. fold (cmp_le num_cmp (f a) (f b)).
      fold (cmp_le num_cmp (f b) (f c)). fold (cmp_le num_cmp (f a) (f c)).
      rewrite !num_cmp_le. apply num_le_trans.
  - apply Permutation_map, js_sort_perm.
Qed.

(** ** Transport along the selection fallback *)

Lemma ext_list_find {A} (R : A → A → Prop) ph (P : A → bool) l l' c :
  ext_list R ph l l' → (∀ x x', R x x' → P x' = P x) → find P l = Some c →
  ∃ c', find P l' = Some c' ∧ R c c'.
Proof.
  intros [HF|[-> _]] HP Hf; [|done].
  induction HF as [|x x' r r' Hx HF IH]; simpl in *; [done|].
  rewrite (HP _ _ Hx). destruct (P x); [|auto]. injection Hf as ->. eauto.
Qed.

Lemma ext_list_map {A B} (R : A → A → Prop) ph (f : A → B) l l' :
  ext_list R ph l l' → l ≠ [] → (∀ x x', R x x' → f x' = f x) →
  map f l' = map f l.
Proof.
  intros [HF|[-> _]] Hne Hf; [|done].
  clear Hne. induction HF as [|x x' r r' Hx HF IH]; simpl; [done|].
  by rewrite (Hf _ _ Hx), IH.
Qed.

Lemma ext_period_matches v p p' : ext_period p p' → period_matches v p' = period_matches v p.
Proof. intros [E _]. unfold period_matches. by rewrite E. Qed.
Lemma ext_block_matches v b b' : ext_block b b' → block_matches v b' = block_matches v b.
Proof. intros [E _]. unfold block_matches. by rewrite E. Qed.
Lemma ext_week_matches v w w' : ext_week w w' → week_matches v w' = week_matches v w.
Proof. intros [E _]. unfold week_matches. by rewrite E. Qed.
Lemma ext_day_matches v d d' : ext_day d d' → day_matches v d' = day_matches v d.
Proof. intros [E _]. unfold day_matches. by rewrite E. Qed.

Lemma finish_spec st :
  ∃ doc' s', finish st = Completed (State doc' (edits st) s')
    ∧ ext_document (baseData st) doc'.
Proof.
  unfold finish, ensureSelected.
  destruct (ensureSelection_spec (baseData st) (sel st)) as (doc' & s' & -> & Hext & _).
  simpl. eauto.
Qed.

Lemma get_put_period doc pid p p1 :
  getPeriod doc pid = Some p → period_id p1 = period_id p →
  getPeriod (put_period pid p1 doc) pid = Some p1.
Proof.
  intros Hg E. unfold getPeriod, put_period. simpl. eapply find_modify_first; [done|].
  apply find_true in Hg. unfold period_matches in *. by rewrite E.
Qed.

Lemma get_put_block p bid b b1 :
  getBlock p bid = Some b → block_id b1 = block_id b →
  getBlock (put_block bid b1 p) bid = Some b1.
Proof.
  intros Hg E. unfold getBlock, put_block. simpl. eapply find_modify_first; [done|].
  apply find_true in Hg. unfold block_matches in *. by rewrite E.
Qed.

Lemma get_put_week b wk w w1 :
  getWeek b wk = Some w → week_num w1 = week_num w →
  getWeek (put_week wk w1 b) wk = Some w1.
Proof.
  intros Hg E. unfold getWeek, put_week. simpl. eapply find_modify_first; [done|].
  apply find_true in Hg. unfold week_matches in *. by rewrite E.
Qed.

Lemma get_put_day w dy d d1 :
  getDay w dy = Some d → day_num d1 = day_num d →
  getDay (put_day dy d1 w) dy = Some d1.
Proof.
  intros Hg E. unfold getDay, put_day. simpl. eapply find_modify_first; [done|].
  apply find_true in Hg. unfold day_matches in *. by rewrite E.
Qed.

Lemma ext_getPeriod doc doc' pid p :
  ext_document doc doc' → getPeriod doc pid = Some p →
  ∃ p', getPeriod doc' pid = Some p' ∧ ext_period p p'.
Proof. intros H. eapply ext_list_find; [exact H|]. intros. by apply ext_period_matches. Qed.

Lemma ext_getBlock p p' bid b :
  ext_period p p' → getBlock p bid = Some b →
  ∃ b', getBlock p' bid = Some b' ∧ ext_block b b'.
Proof.
  intros (_ & _ & H). eapply ext_list_find; [exact H|]. intros. by apply ext_block_matches.
Qed.

Lemma ext_getWeek b b' wk w :
  ext_block b b' → getWeek b wk = Some w →
  ∃ w', getWeek b' wk = Some w' ∧ ext_week w w'.
Proof.
  intros (_ & H). eapply ext_list_find; [exact H|]. intros. by apply ext_week_matches.
Qed.

Lemma ext_getDay w w' dy d :
  ext_week w w' → getDay w dy = Some d →
  ∃ d', getDay w' dy = Some d' ∧ ext_day d d'.
Proof.
  intros (_ & H). eapply ext_list_find; [exact H|]. intros. by apply ext_day_matches.
Qed.

Lemma js_sort_nonempty {A} (cmp : A → A → Z) l x : js_sort cmp (l ++ [x]) ≠ [].
Proof.
  intros E. pose proof (js_sort_perm cmp (l ++ [x])) as Hp. rewrite E in Hp.
  apply Permutation_nil_l in Hp. by destruct l.
Qed.


(** ** Insertions *)

Lemma insert_rejected lc a st :
  is_insert a = true → candidate_invalid a || candidate_exists a st = true →
  (∃ msg, handle lc a st = Rejected msg) ∨ handle lc a st = Threw st.
Proof.
  intros Hi Hc. destruct a; try discriminate; simpl in *.
  - unfold addPeriod. destruct (String.eqb (trim input) ""); [eauto|].
    simpl in Hc. rewrite Hc. eauto.
  - unfold addBlock. destruct (invalid_number x) eqn:Ev; [eauto|]. simpl in Hc.
    destruct (getPeriod (baseData st) (periodId (sel st))) as [p|]; [|done].
    destruct x as [|n]; [eauto|].
    simpl in Hc |- *. rewrite Hc. eauto.
  - unfold addWeek.
    destruct (getPeriod (baseData st) (periodId (sel st))) as [p|]; simpl in *; [|by right].
    destruct (invalid_number x) eqn:Ev; [eauto|]. simpl in Hc.
    destruct (getBlock p (blockId (sel st))) as [b|]; [|done].
    destruct x as [|n]; [eauto|].
    simpl in Hc |- *. rewrite Hc. eauto.
  - unfold addDay.
    destruct (getPeriod (baseData st) (periodId (sel st))) as [p|]; simpl in *; [|by right].
    destruct (getBlock p (blockId (sel st))) as [b|]; simpl in *; [|by right].
    destruct (invalid_number x) eqn:Ev; [eauto|]. simpl in Hc.
    destruct (getWeek b (sel_week (sel st))) as [w|]; [|done].
    destruct x as [|n]; [eauto|].
    simpl in Hc |- *. rewrite Hc. eauto.
  - unfold addExercise.
    destruct (getPeriod (baseData st) (periodId (sel st))) as [p|]; simpl in *; [|by right].
    destruct (getBlock p (blockId (sel st))) as [b|]; simpl in *; [|by right].
    destruct (getWeek b (sel_week (sel st))) as [w|]; simpl in *; [|by right].
    destruct (String.eqb (trim input) ""); [eauto|]. simpl in Hc.
    destruct (getDay w (sel_day (sel st))) as [d|]; [|done].
    rewrite Hc. eauto.
Qed.

Lemma addPeriod_inserts input st :
  String.eqb (trim input) "" = false →
  existsb (fun p => String.eqb (period_id p) (slugify (trim input)))
          (periods (baseData st)) = false →
  ∃ st', addPeriod input st = Completed st'
    ∧ map period_id (periods (baseData st'))
      = map period_id (periods (baseData st)) ++ [slugify (trim input)].
Proof.
  intros Hv Hd. unfold addPeriod. rewrite Hv, Hd.
  match goal with |- context [finish ?s] =>
    destruct (finish_spec s) as (doc' & s' & -> & Hext) end.
  eexists. split; [done|]. simpl in *.
  rewrite (ext_list_map _ _ period_id _ _ Hext).
  - simpl. by rewrite map_app.
  - simpl. by destruct (periods (baseData st)).
  - by intros x x' [-> _].
Qed.

Lemma addBlock_inserts n st p :
  invalid_number (Fin n) = false →
  getPeriod (baseData st) (periodId (sel st)) = Some p →
  existsb (fun b => jsnum_eqb (Fin (block_id b)) (Fin n)) (blocks p) = false →
  ∃ st' p', addBlock (Fin n) st = Completed st'
    ∧ getPeriod (baseData st') (periodId (sel st)) = Some p'
    ∧ StronglySorted num_le (map block_id (blocks p'))
    ∧ map block_id (blocks p') ≡ₚ map block_id (blocks p) ++ [n].
Proof.
  intros Hv Hp Hd. unfold addBlock. rewrite Hv, Hp.
  change (fun b => jsnum_eqb (toNumber (LNum (Fin (block_id b)))) (Fin n))
    with (fun b => jsnum_eqb (Fin (block_id b)) (Fin n)).
  rewrite Hd.
  set (bs := js_sort (fun a b => num_cmp (block_id a) (block_id b)) (blocks p ++ [Block n []])).
  set (p1 := Period (period_id p) (period_name p) bs).
  match goal with |- context [finish ?s] =>
    destruct (finish_spec s) as (doc' & s' & -> & Hext) end.
  simpl in Hext.
  destruct (ext_getPeriod _ _ (periodId (sel st)) p1 Hext) as (p' & Hp' & Hpp).
  { by apply (get_put_period _ _ p). }
  eexists _, p'. split; [done|]. split; [exact Hp'|].
  destruct Hpp as (_ & _ & Hbs).
  rewrite (ext_list_map _ _ block_id _ _ Hbs).
  - subst p1 bs. simpl.
    destruct (sort_by_number block_id (blocks p ++ [Block n []])) as [Hs Hperm].
    split; [exact Hs|]. rewrite Hperm. by rewrite map_app.
  - apply js_sort_nonempty.
  - by intros x x' [-> _].
Qed.

Lemma addWeek_inserts n st p b :
  invalid_number (Fin n) = false →
  getPeriod (baseData st) (periodId (sel st)) = Some p →
  getBlock p (blockId (sel st)) = Some b →
  existsb (fun w => jsnum_eqb (Fin (week_num w)) (Fin n)) (weeks b) = false →
  ∃ st' p' b', addWeek (Fin n) st = Completed st'
    ∧ getPeriod (baseData st') (periodId (sel st)) = Some p'
    ∧ getBlock p' (blockId (sel st)) = Some b'
    ∧ StronglySorted num_le (map week_num (weeks b'))
    ∧ map week_num (weeks b') ≡ₚ map week_num (weeks b) ++ [n].
Proof.
  intros Hv Hp Hb Hd. unfold addWeek. rewrite Hp, Hv, Hb.
  change (fun w => jsnum_eqb (toNumber (LNum (Fin (week_num w)))) (Fin n))
    with (fun w => jsnum_eqb (Fin (week_num w)) (Fin n)).
  rewrite Hd.
  set (ws := js_sort (fun a c => num_cmp (week_num a) (week_num c)) (weeks b ++ [Week n []])).
  set (b1 := Block (block_id b) ws).
  match goal with |- context [finish ?s] =>
    destruct (finish_spec s) as (doc' & s' & -> & Hext) end.
  simpl in Hext.
  destruct (ext_getPeriod _ _ (periodId (sel st)) (put_block (blockId (sel st)) b1 p) Hext) as (p' & Hp' & Hpp).
  { by apply (get_put_period _ _ p). }
  destruct (ext_getBlock _ _ (blockId (sel st)) b1 Hpp) as (b' & Hb' & Hbb).
  { by apply (get_put_block _ _ b). }
  eexists _, p', b'. split; [done|]. split; [exact Hp'|]. split; [exact Hb'|].
  destruct Hbb as (_ & Hws).
  rewrite (ext_list_map _ _ week_num _ _ Hws).
  - subst b1 ws. simpl.
    destruct (sort_by_number week_num (weeks b ++ [Week n []])) as [Hs Hperm].
    split; [exact Hs|]. rewrite Hperm. by rewrite map_app.
  - apply js_sort_nonempty.
  - by intros x x' [-> _].
Qed.

Lemma addDay_inserts n lab st p b w :
  invalid_number (Fin n) = false →
  getPeriod (baseData st) (periodId (sel st)) = Some p →
  getBlock p (blockId (sel st)) = Some b →
  getWeek b (sel_week (sel st)) = Some w →
  existsb (fun d => jsnum_eqb (Fin (day_num d)) (Fin n)) (days w) = false →
  ∃ st' p' b' w', addDay (Fin n) lab st = Completed st'
    ∧ getPeriod (baseData st') (periodId (sel st)) = Some p'
    ∧ getBlock p' (blockId (sel st)) = Some b'
    ∧ getWeek b' (sel_week (sel st)) = Some w'
    ∧ StronglySorted num_le (map day_num (days w'))
    ∧ map day_num (days w') ≡ₚ map day_num (days w) ++ [n].
Proof.
  intros Hv Hp Hb Hw Hd. unfold addDay. rewrite Hp, Hb, Hv, Hw.
  change (fun d => jsnum_eqb (toNumber (LNum (Fin (day_num d)))) (Fin n))
    with (fun d => jsnum_eqb (Fin (day_num d)) (Fin n)).
  rewrite Hd.
  match goal with |- context [Day n ?l []] => set (dnew := Day n l []) end.
  set (ds := js_sort (fun a c => num_cmp (day_num a) (day_num c)) (days w ++ [dnew])).
  set (w1 := Week (week_num w) ds).
  match goal with |- context [finish ?s] =>
    destruct (finish_spec s) as (doc' & s' & -> & Hext) end.
  simpl in Hext.
  destruct (ext_getPeriod _ _ (periodId (sel st))
              (put_block (blockId (sel st)) (put_week (sel_week (sel st)) w1 b) p) Hext)
    as (p' & Hp' & Hpp).
  { by apply (get_put_period _ _ p). }
  destruct (ext_getBlock _ _ (blockId (sel st)) (put_week (sel_week (sel st)) w1 b) Hpp) as (b' & Hb' & Hbb).
  { by apply (get_put_block _ _ b). }
  destruct (ext_getWeek _ _ (sel_week (sel st)) w1 Hbb) as (w' & Hw' & Hww).
  { by apply (get_put_week _ _ w). }
  eexists _, p', b', w'. split; [done|]. split; [exact Hp'|]. split; [exact Hb'|].
  split; [exact Hw'|].
  destruct Hww as (_ & Hds).
  rewrite (ext_list_map _ _ day_num _ _ Hds).
  - subst w1 ds. simpl.
    destruct (sort_by_number day_num (days w ++ [dnew])) as [Hs Hperm].
    split; [exact Hs|]. rewrite Hperm. by rewrite map_app.
  - apply js_sort_nonempty.
  - by intros x x' [-> _].
Qed.

Lemma addExercise_inserts lc input workInput st p b w d :
  (∀ x y, cmp_le lc x y ∨ cmp_le lc y x) →
  (∀ x y z, cmp_le lc x y → cmp_le lc y z → cmp_le lc x z) →
  String.eqb (trim input) "" = false →
  getPeriod (baseData st) (periodId (sel st)) = Some p →
  getBlock p (blockId (sel st)) = Some b →
  getWeek b (sel_week (sel st)) = Some w →
  getDay w (sel_day (sel st)) = Some d →
  existsb (fun e => String.eqb (ex_id e) (slugify (trim input))) (exercises d) = false →
  ∃ st' p' b' w' d', addExercise lc input workInput st = Completed st'
    ∧ getPeriod (baseData st') (periodId (sel st)) = Some p'
    ∧ getBlock p' (blockId (sel st)) = Some b'
    ∧ getWeek b' (sel_week (sel st)) = Some w'
    ∧ getDay w' (sel_day (sel st)) = Some d'
    ∧ StronglySorted (cmp_le lc) (map ex_name (exercises d'))
    ∧ map ex_id (exercises d') ≡ₚ map ex_id (exercises d) ++ [slugify (trim input)].
Proof.
  intros Htot Htr Hv Hp Hb Hw Hd Hdup. unfold addExercise.
  rewrite Hp, Hb, Hw, Hv, Hd, Hdup.
  match goal with |- context [exercises d ++ [?e]] => set (enew := e) end.
  set (es := js_sort (fun a c => lc (ex_name a) (ex_name c)) (exercises d ++ [enew])).
  set (d1 := Day (day_num d) (label d) es).
  match goal with |- context [finish ?s] =>
    destruct (finish_spec s) as (doc' & s' & -> & Hext) end.
  simpl in Hext.
  destruct (ext_getPeriod _ _ (periodId (sel st))
              (put_block (blockId (sel st))
                 (put_week (sel_week (sel st)) (put_day (sel_day (sel st)) d1 w) b) p) Hext)
    as (p' & Hp' & Hpp).
  { by apply (get_put_period _ _ p). }
  destruct (ext_getBlock _ _ (blockId (sel st))
              (put_week (sel_week (sel st)) (put_day (sel_day (sel st)) d1 w) b) Hpp)
    as (b' & Hb' & Hbb).
  { by apply (get_put_block _ _ b). }
  destruct (ext_getWeek _ _ (sel_week (sel st)) (put_day (sel_day (sel st)) d1 w) Hbb) as (w' & Hw' & Hww).
  { by apply (get_put_week _ _ w). }
  destruct (ext_getDay _ _ (sel_day (sel st)) d1 Hww) as (d' & Hd' & Hdd).
  { by apply (get_put_day _ _ d). }
  eexists _, p', b', w', d'. split; [done|]. split; [exact Hp'|]. split; [exact Hb'|].
  split; [exact Hw'|]. split; [exact Hd'|].
  destruct Hdd as (_ & _ & Hes).
  assert (exercises d' = es) as ->.
  { destruct Hes as [HF|[E _]].
    - simpl in HF. symmetry. clear -HF. induction HF; [done|]. by f_equal.
    - simpl in E. by apply js_sort_nonempty in E. }
  split.
  - apply (StronglySorted_fmap ex_name (cmp_le (fun a c => lc (ex_name a) (ex_name c)))).
    { by intros x y. }
    apply js_sort_sorted.
    + intros x y. apply Htot.
    + intros x y z. apply Htr.
  - unfold es. rewrite js_sort_perm. by rewrite map_app.
Qed.

(** C7, amended: an insert whose candidate fails the handler's validation (a
    name that is empty once trimmed; a number that is [NaN], zero or below 1)
    or whose identifier is already present among the children of the selected
    parent leaves the state as it was.  Otherwise, when the selected parent
    resolves, the handler completes and the parent holds the new identifier:
    periods keep their order with the new one last; the identifiers of
    blocks, weeks and days are in ascending numeric order; the names of the
    exercises are ordered by [localeCompare], taken to be a total preorder. *)
Theorem insert_checked (lc : string → string → Z)
    (lc_total : ∀ x y, cmp_le lc x y ∨ cmp_le lc y x)
    (lc_trans : ∀ x y z, cmp_le lc x y → cmp_le lc y z → cmp_le lc x z)
    (st : state) :
  (∀ a, is_insert a = true →
        candidate_invalid a || candidate_exists a st = true →
        state_after st (handle lc a st) = st)
  ∧ (∀ input,
       candidate_invalid (AddPeriod input) || candidate_exists (AddPeriod input) st = false →
       ∃ st', handle lc (AddPeriod input) st = Completed st'
         ∧ map period_id (periods (baseData st'))
           = map period_id (periods (baseData st)) ++ [slugify (trim input)])
  ∧ (∀ x p,
       getPeriod (baseData st) (periodId (sel st)) = Some p →
       candidate_invalid (AddBlock x) || candidate_exists (AddBlock x) st = false →
       ∃ n st' p', x = Fin n ∧ handle lc (AddBlock x) st = Completed st'
         ∧ getPeriod (baseData st') (periodId (sel st)) = Some p'
         ∧ StronglySorted num_le (map block_id (blocks p'))
         ∧ map block_id (blocks p') ≡ₚ map block_id (blocks p) ++ [n])
  ∧ (∀ x p b,
       getPeriod (baseData st) (periodId (sel st)) = Some p →
       getBlock p (blockId (sel st)) = Some b →
       candidate_invalid (AddWeek x) || candidate_exists (AddWeek x) st = false →
       ∃ n st' p' b', x = Fin n ∧ handle lc (AddWeek x) st = Completed st'
         ∧ getPeriod (baseData st') (periodId (sel st)) = Some p'
         ∧ getBlock p' (blockId (sel st)) = Some b'
         ∧ StronglySorted num_le (map week_num (weeks b'))
         ∧ map week_num (weeks b') ≡ₚ map week_num (weeks b) ++ [n])
  ∧ (∀ x lab p b w,
       getPeriod (baseData st) (periodId (sel st)) = Some p →
       getBlock p (blockId (sel st)) = Some b →
       getWeek b (sel_week (sel st)) = Some w →
       candidate_invalid (AddDay x lab) || candidate_exists (AddDay x lab) st = false →
       ∃ n st' p' b' w', x = Fin n ∧ handle lc (AddDay x lab) st = Completed st'
         ∧ getPeriod (baseData st') (periodId (sel st)) = Some p'
         ∧ getBlock p' (blockId (sel st)) = Some b'
         ∧ getWeek b' (sel_week (sel st)) = Some w'
         ∧ StronglySorted num_le (map day_num (days w'))
         ∧ map day_num (days w') ≡ₚ map day_num (days w) ++ [n])
  ∧ (∀ input workInput p b w d,
       getPeriod (baseData st) (periodId (sel st)) = Some p →
       getBlock p (blockId (sel st)) = Some b →
       getWeek b (sel_week (sel st)) = Some w →
       getDay w (sel_day (sel st)) = Some d →
       candidate_invalid (AddExercise input workInput)
         || candidate_exists (AddExercise input workInput) st = false →
       ∃ st' p' b' w' d',
         handle lc (AddExercise input workInput) st = Completed st'
         ∧ getPeriod (baseData st') (periodId (sel st)) = Some p'
         ∧ getBlock p' (blockId (sel st)) = Some b'
         ∧ getWeek b' (sel_week (sel st)) = Some w'
         ∧ getDay w' (sel_day (sel st)) = Some d'
         ∧ StronglySorted (cmp_le lc) (map ex_name (exercises d'))
         ∧ map ex_id (exercises d') ≡ₚ map ex_id (exercises d) ++ [slugify (trim input)]).
Proof.
  split; [|split; [|split; [|split; [|split]]]].
  - intros a Hi Hc.
    destruct (insert_rejected lc a st Hi Hc) as [[msg ->]| ->]; done.
  - intros input Hc. apply orb_false_iff in Hc as [Hv Hd]. simpl in Hv, Hd.
    by apply addPeriod_inserts.
  - intros x p Hp Hc. apply orb_false_iff in Hc as [Hv Hd]. simpl in Hv, Hd.
    rewrite Hp in Hd. destruct x as [|n]; [done|].
    destruct (addBlock_inserts n st p Hv Hp Hd) as (st' & p' & H).
    exists n, st', p'. split; [done|]. exact H.
  - intros x p b Hp Hb Hc. apply orb_false_iff in Hc as [Hv Hd]. simpl in Hv, Hd.
    rewrite Hp in Hd. simpl in Hd. rewrite Hb in Hd. destruct x as [|n]; [done|].
    destruct (addWeek_inserts n st p b Hv Hp Hb Hd) as (st' & p' & b' & H).
    exists n, st', p', b'. split; [done|]. exact H.
  - intros x lab p b w Hp Hb Hw Hc. apply orb_false_iff in Hc as [Hv Hd].
    simpl in Hv, Hd. rewrite Hp in Hd. simpl in Hd. rewrite Hb in Hd. simpl in Hd.
    rewrite Hw in Hd. destruct x as [|n]; [done|].
    destruct (addDay_inserts n lab st p b w Hv Hp Hb Hw Hd) as (st' & p' & b' & w' & H).
    exists n, st', p', b', w'. split; [done|]. exact H.
  - intros input workInput p b w d Hp Hb Hw Hd Hc.
    apply orb_false_iff in Hc as [Hv Hdup]. simpl in Hv, Hdup.
    rewrite Hp in Hdup. simpl in Hdup. rewrite Hb in Hdup. simpl in Hdup.
    rewrite Hw in Hdup. simpl in Hdup. rewrite Hd in Hdup.
    by apply (addExercise_inserts lc input workInput st p b w d).
Qed.

Lemma lengthCompare_total x y : cmp_le lengthCompare x y ∨ cmp_le lengthCompare y x.
Proof. unfold cmp_le, lengthCompare. lia. Qed.

Lemma lengthCompare_trans x y z :
  cmp_le lengthCompare x y → cmp_le lengthCompare y z → cmp_le lengthCompare x z.
Proof. unfold cmp_le, lengthCompare. lia. Qed.

Lemma insert_checked_witness :
  state_after sampleState (handle lengthCompare (AddBlock (Fin (Int 0))) sampleState)
  = sampleState.
Proof.
  apply (proj1 (insert_checked lengthCompare lengthCompare_total lengthCompare_trans
                               sampleState) (AddBlock (Fin (Int 0)))).
  - reflexivity.
  - reflexivity.
Defined.

(** C7 as stated fails: 1.5 is not a positive integer, yet the block handler
    accepts it and the period then holds the blocks 1 and 1.5. *)
Lemma addBlock_accepts_fraction :
  positive_integer (Fin (Num 15 1)) = false
  ∧ candidate_exists (AddBlock (Fin (Num 15 1))) sampleState = false
  ∧ completed (addBlock (Fin (Num 15 1)) sampleState) = true
  ∧ (p ← getPeriod (baseData (state_after sampleState
                                (addBlock (Fin (Num 15 1)) sampleState)))
                    (LStr "serie-1-2026");
     Some (map block_id (blocks p))) = Some [Int 1; Num 15 1]
  ∧ (p ← getPeriod (baseData sampleState) (LStr "serie-1-2026");
     Some (map block_id (blocks p))) = Some [Int 1].
Proof. repeat split; vm_compute; reflexivity. Qed.

(** ** Removals and the overlay *)

(** C1 fails on the code: removing the day, the week, the block or the period
    that holds [squat] completes, the old locator no longer resolves, and the
    patch stored under its key is still in the overlay.  Only the exercise
    removal deletes the key. *)
Theorem removal_keeps_patch (lc : string → string → Z) (a : action) :
  a ∈ [RemoveDay; RemoveWeek; RemoveBlock; RemovePeriod] →
  let st' := step lc a sampleState in
  completed (handle lc a sampleState) = true
  ∧ getPatchedEntry (baseData st') (edits st') (LStr "serie-1-2026") (LStr "1")
      (LNum (Fin (Int 1))) (LNum (Fin (Int 1))) (LStr "squat") = None
  ∧ edits st' !! sampleKey
    = Some {["work" := VStr "8x3"; "updatedAt" := VStr "2026-01-01T10:00:00.000Z"]}
  ∧ splitKey sampleKey = (LStr "serie-1-2026", LStr "1", LStr "1", LStr "1", LStr "squat")
  ∧ completed (handle lc RemoveExercise sampleState) = true
  ∧ edits (step lc RemoveExercise sampleState) !! sampleKey = None.
Proof.
  intros Ha. cbv zeta. rewrite !elem_of_cons in Ha.
  destruct Ha as [->|[->|[->|[->|Ha]]]]; [..|by apply elem_of_nil in Ha];
    repeat split; vm_compute; reflexivity.
Qed.

Lemma removal_keeps_patch_witness :
  edits (step lengthCompare RemoveDay sampleState) !! sampleKey
  = Some {["work" := VStr "8x3"; "updatedAt" := VStr "2026-01-01T10:00:00.000Z"]}.
Proof.
  apply (removal_keeps_patch lengthCompare RemoveDay
           ltac:(rewrite !elem_of_cons; auto)).
Defined.

Lemma addExercise_second lc input workInput st p b w d e0 :
  getPeriod (baseData st) (periodId (sel st)) = Some p →
  getBlock p (blockId (sel st)) = Some b →
  getWeek b (sel_week (sel st)) = Some w →
  getDay w (sel_day (sel st)) = Some d →
  exercises d = [e0] →
  String.eqb (trim input) "" = false →
  String.eqb (ex_id e0) (slugify (trim input)) = false →
  handle lc (AddExercise input workInput) st
  = let enew := Exercise (slugify (trim input)) (trim input) (VStr (trim workInput))
                         (VArr []) (VStr "") (VStr "") VNull in
    let es := if (lc (ex_name e0) (trim input) <=? 0)%Z
              then [e0; enew] else [enew; e0] in
    finish (State (put_period (periodId (sel st))
                     (put_block (blockId (sel st))
                        (put_week (sel_week (sel st))
                           (put_day (sel_day (sel st))
                                    (Day (day_num d) (label d) es) w) b) p)
                     (baseData st))
                  (edits st)
                  (Selection (periodId (sel st)) (blockId (sel st)) (sel_week (sel st))
                             (sel_day (sel st)) (LStr (slugify (trim input))))).
Proof.
  intros Hp Hb Hw Hd He Hv Hdup. unfold handle, addExercise.
  rewrite Hp, Hb, Hw, Hv, Hd, He. simpl. rewrite Hdup. reflexivity.
Qed.

(** C8 fails on the code: after the day of [squat] is removed and a day 1
    with an exercise [squat] is inserted again, the selection has the old
    entry key, under which the overlay still holds the patch written before
    the removal; the new base exercise has the work text 3x3 and the resolved
    entry shows 8x3, the text of the old patch. *)
Theorem stale_patch_returns (lc : string → string → Z) :
  edits sampleState !! sampleKey
    = Some {["work" := VStr "8x3"; "updatedAt" := VStr "2026-01-01T10:00:00.000Z"]}
  ∧ selectedView
      (run lc [RemoveDay; AddDay (Fin (Int 1)) ""; AddExercise "Squat" "3x3"] sampleState)
    = (sampleKey, Some (VStr "3x3"), Some (VStr "8x3")).
Proof.
  split; [vm_compute; reflexivity|].
  unfold run. cbn [fold_left].
  set (S2 := step lc (AddDay (Fin (Int 1)) "") (step lc RemoveDay sampleState)).
  vm_compute in S2. unfold step.
  erewrite (addExercise_second lc "Squat" "3x3" S2); [|vm_compute; reflexivity ..].
  cbv zeta. destruct (lc _ _ <=? 0)%Z; vm_compute; reflexivity.
Qed.

(** ** slugify *)

Lemma slug_char_facts c :
  is_slug_char c = true →
  is_dash c = false ∧ is_ws c = false ∧ is_quote c = false ∧ lower c = c
  ∧ Ascii.eqb c "|" = false ∧ Ascii.eqb c "/" = false.
Proof.
  destruct c as [[|] [|] [|] [|] [|] [|] [|] [|]]; vm_compute; intros; try done.
Qed.

Lemma dash_facts c :
  is_dash c = true →
  c = "-"%char ∧ is_slug_char c = false ∧ is_ws c = false ∧ is_quote c = false
  ∧ lower c = c ∧ Ascii.eqb c "|" = false ∧ Ascii.eqb c "/" = false.
Proof.
  destruct c as [[|] [|] [|] [|] [|] [|] [|] [|]]; vm_compute; intros; try done.
Qed.

Lemma dash_runs_separated b s : dash_separated b (dash_runs b s) = true.
Proof.
  revert b. induction s as [|c r IH]; intros b; simpl; [done|].
  destruct (is_slug_char c) eqn:Hc.
  - simpl. destruct (slug_char_facts c Hc) as (-> & _). by rewrite Hc, IH.
  - destruct b; [apply IH|]. simpl. change (is_dash "-") with true. simpl. apply IH.
Qed.

Lemma drop_last_dash_empty s :
  drop_last_dash s = EmptyString → s = EmptyString ∨ s = "-".
Proof.
  destruct s as [|c [|c' r]]; simpl; [by left| |done].
  destruct (Ascii.eqb_spec c "-") as [->|]; [by right|done].
Qed.

Lemma drop_last_dash_slug b s :
  dash_separated b s = true →
  drop_last_dash s = EmptyString ∨ slug_from b (drop_last_dash s) = true.
Proof.
  revert b. induction s as [|c r IH]; intros b H; [by left|].
  destruct r as [|c' r'].
  - simpl in *. change (Ascii.eqb c "-") with (is_dash c).
    destruct (is_dash c) eqn:Hd; [by left|]. right. simpl. rewrite Hd.
    by rewrite andb_true_r in *.
  - change (drop_last_dash (String c (String c' r')))
      with (String c (drop_last_dash (String c' r'))).
    right. simpl in H. simpl. destruct (is_dash c) eqn:Hd.
    + apply andb_true_iff in H as [Hb H]. rewrite Hb. simpl.
      destruct (IH true H) as [E|E]; [|done].
      apply drop_last_dash_empty in E as [E|E]; [done|].
      injection E as -> ->. done.
    + apply andb_true_iff in H as [Hc H]. rewrite Hc. simpl.
      destruct (IH false H) as [E|E]; [|done].
      apply drop_last_dash_empty in E as [E|E]; [done|].
      injection E as -> ->. done.
Qed.

Lemma strip_dashes_slug s :
  dash_separated false s = true → slug_shape (strip_dashes s) = true.
Proof.
  intros H. unfold strip_dashes.
  assert (dash_separated true
            match s with
            | EmptyString => EmptyString
            | String c r => if Ascii.eqb c "-" then r else s
            end = true) as H'.
  { destruct s as [|c r]; [done|]. simpl in H. change (Ascii.eqb c "-") with (is_dash c).
    destruct (is_dash c) eqn:Hd; [done|]. simpl. by rewrite Hd. }
  destruct (drop_last_dash_slug _ _ H') as [->|E]; [done|].
  unfold slug_shape. by destruct (drop_last_dash _).
Qed.

Lemma slug_from_chars b s :
  slug_from b s = true → string_forallb is_slug_or_dash s = true.
Proof.
  revert b. induction s as [|c r IH]; intros b; simpl; [done|].
  unfold is_slug_or_dash at 1. destruct (is_dash c).
  - rewrite andb_true_iff, orb_true_r. intros [_ H]. simpl. eauto.
  - rewrite andb_true_iff. intros [-> H]. simpl. eauto.
Qed.

Lemma slug_shape_chars s :
  slug_shape s = true → string_forallb is_slug_or_dash s = true.
Proof. destruct s; [done|]. apply slug_from_chars. Qed.

Lemma slug_or_dash_facts c :
  is_slug_or_dash c = true →
  is_ws c = false ∧ is_quote c = false ∧ lower c = c
  ∧ Ascii.eqb c "|" = false ∧ Ascii.eqb c "/" = false.
Proof.
  unfold is_slug_or_dash. intros [H|H]%orb_true_iff.
  - apply slug_char_facts in H. tauto.
  - apply dash_facts in H. tauto.
Qed.

Lemma string_map_id f s :
  string_forallb (fun c => Ascii.eqb (f c) c) s = true → string_map f s = s.
Proof.
  induction s as [|c r IH]; simpl; [done|]. rewrite andb_true_iff.
  intros [Hc Hr]. apply Ascii.eqb_eq in Hc. by rewrite Hc, IH.
Qed.

Lemma string_filter_id P s : string_forallb P s = true → string_filter P s = s.
Proof.
  induction s as [|c r IH]; simpl; [done|]. rewrite andb_true_iff.
  intros [-> Hr]. by rewrite IH.
Qed.

Lemma dash_runs_id b s : dash_separated b s = true → dash_runs b s = s.
Proof.
  revert b. induction s as [|c r IH]; intros b; simpl; [done|].
  destruct (is_dash c) eqn:Hd.
  - destruct (dash_facts c Hd) as (-> & -> & _). rewrite andb_true_iff.
    intros [Hb H]. destruct b; [done|]. by rewrite IH.
  - rewrite andb_true_iff. intros [-> H]. by rewrite IH.
Qed.

Lemma slug_from_separated b s : slug_from b s = true → dash_separated b s = true.
Proof.
  revert b. induction s as [|c r IH]; intros b; simpl; [done|].
  destruct (is_dash c); rewrite !andb_true_iff; intros [? ?]; eauto.
Qed.

Lemma drop_last_dash_cons c c' r :
  drop_last_dash (String c (String c' r)) = String c (drop_last_dash (String c' r)).
Proof. reflexivity. Qed.

Lemma drop_last_dash_id b s : slug_from b s = true → drop_last_dash s = s.
Proof.
  revert b. induction s as [|c r IH]; intros b H; [done|].
  destruct r as [|c' r'].
  - simpl in *. change (Ascii.eqb c "-") with (is_dash c).
    destruct (is_dash c); [|done]. by rewrite andb_false_r in H.
  - rewrite drop_last_dash_cons. f_equal.
    remember (String c' r') as r eqn:Er. simpl in H.
    destruct (is_dash c); apply andb_true_iff in H as [_ H]; by eapply IH.
Qed.

(** A string already in slug shape is left as it is. *)
Lemma slugify_fixed s : slug_shape s = true → slugify s = s.
Proof.
  intros H. pose proof (slug_shape_chars s H) as Hc. unfold slugify.
  rewrite trim_id.
  2:{ eapply string_forallb_impl, Hc. intros c Hx.
      apply slug_or_dash_facts in Hx as (-> & _). done. }
  rewrite string_map_id.
  2:{ eapply string_forallb_impl, Hc. intros c Hx.
      apply slug_or_dash_facts in Hx as (_ & _ & -> & _). apply Ascii.eqb_refl. }
  rewrite string_filter_id.
  2:{ eapply string_forallb_impl, Hc. intros c Hx.
      apply slug_or_dash_facts in Hx as (_ & -> & _). done. }
  destruct s as [|c r]; [done|]. unfold slug_shape in H.
  rewrite dash_runs_id.
  2:{ apply slug_from_separated in H. simpl in *. destruct (is_dash c); [done|].
      exact H. }
  unfold strip_dashes. change (Ascii.eqb c "-") with (is_dash c).
  assert (is_dash c = false) as -> by (simpl in H; by destruct (is_dash c)).
  by apply (drop_last_dash_id true).
Qed.

(** X1: whatever the input, [slugify] returns a slug: only the characters
    a-z, 0-9 and the dash, no dash at either end and no two dashes in a row;
    so it never contains the separator of entry keys nor that of routes.
    Applying [slugify] to a slug changes nothing. *)
Theorem slugify_slug (s : string) :
  slug_shape (slugify s) = true
  ∧ string_forallb is_slug_or_dash (slugify s) = true
  ∧ has_char "|" (slugify s) = false
  ∧ has_char "/" (slugify s) = false
  ∧ slugify (slugify s) = slugify s.
Proof.
  assert (slug_shape (slugify s) = true) as H.
  { unfold slugify. apply strip_dashes_slug, dash_runs_separated. }
  pose proof (slug_shape_chars _ H) as Hc.
  split_and!; [done|done| | |by apply slugify_fixed].
  - apply has_char_false. eapply string_forallb_impl, Hc. intros c Hx.
    apply slug_or_dash_facts in Hx as (_ & _ & _ & -> & _). done.
  - apply has_char_false. eapply string_forallb_impl, Hc. intros c Hx.
    apply slug_or_dash_facts in Hx as (_ & _ & _ & _ & ->). done.
Qed.

(** ** Routes *)

Lemma split_join c l :
  l ≠ [] → Forall (fun s => has_char c s = false) l →
  split c (join (String c EmptyString) l) = l.
Proof.
  intros Hne HF. induction HF as [|x r Hx HF IH]; [done|].
  destruct r as [|y r']; simpl.
  - by apply split_no_sep.
  - rewrite split_app_sep, (split_no_sep _ _ Hx). simpl. f_equal. by apply IH.
Qed.

Lemma digit_no_slash c : is_sign_or_digit c = true → Ascii.eqb c "/" = false.
Proof.
  destruct c as [[|] [|] [|] [|] [|] [|] [|] [|]]; vm_compute; intros; try done.
Qed.

Lemma decimal_no_slash z : has_char "/" (decimal z) = false.
Proof.
  apply has_char_false. eapply string_forallb_impl, decimal_chars.
  intros c Hc. by rewrite (digit_no_slash c Hc).
Qed.

Lemma decimal_nonempty z : decimal z ≠ EmptyString.
Proof.
  unfold decimal. destruct z as [|p|p]; simpl; [done| |done].
  rewrite uint_text. pose proof (Unsigned.to_uint_nonnil p).
  by destruct (Pos.to_uint p).
Qed.

Lemma nonempty_eqb s : s ≠ EmptyString → negb (String.eqb s "") = true.
Proof. by destruct s. Qed.

Lemma makeHash_join pid b w d eid :
  makeHash (LStr pid) (LNum (Fin (Int b))) (LNum (Fin (Int w))) (LNum (Fin (Int d)))
           (LStr eid)
  = String "#" (String "/"
      (join "/" ["p"; pid; "b"; decimal b; "w"; decimal w; "d"; decimal d; "e"; eid])).
Proof. reflexivity. Qed.

Lemma block_matches_decimal b x :
  block_matches (LStr (decimal x)) b = block_matches (LNum (Fin (Int x))) b.
Proof. reflexivity. Qed.

Lemma parseHash_makeHash (pid eid : string) (b w d : Z) :
  pid ≠ EmptyString → has_char "/" pid = false →
  eid ≠ EmptyString → has_char "/" eid = false →
  parseHash (makeHash (LStr pid) (LNum (Fin (Int b))) (LNum (Fin (Int w)))
                      (LNum (Fin (Int d))) (LStr eid))
  = Some (Selection (LStr pid) (LStr (decimal b)) (LNum (Fin (Int w)))
                    (LNum (Fin (Int d))) (LStr eid)).
Proof.
  intros Hp Hps He Hes.
  rewrite makeHash_join. unfold parseHash.
  change (strip_hash_prefix (String "#" (String "/" ?x))) with x.
  set (l := ["p"; pid; "b"; decimal b; "w"; decimal w; "d"; decimal d; "e"; eid]).
  assert (join "/" l ≠ EmptyString) as Hj by done.
  destruct (String.eqb_spec (join "/" l) "") as [E|_]; [done|].
  rewrite split_join; [|done|].
  2:{ unfold l. repeat constructor; auto using decimal_no_slash. }
  assert (List.filter (fun s => negb (String.eqb s "")) l = l) as ->.
  { unfold l. simpl.
    rewrite (nonempty_eqb pid Hp), (nonempty_eqb eid He),
      !(nonempty_eqb _ (decimal_nonempty _)). done. }
  unfold l. cbn [route_pairs]. unfold prop.
  repeat (first [rewrite lookup_insert_eq | rewrite lookup_insert_ne by discriminate]).
  simpl.
  assert (∀ s, s ≠ EmptyString → falsy (LStr s) = false) as Hf by (by intros []).
  rewrite (Hf pid Hp), (Hf eid He), !(Hf _ (decimal_nonempty _)).
  by rewrite !stringToNumber_decimal.
Qed.

Lemma fragment_encode_kept s :
  string_forallb fragment_keeps s = true → fragment_encode s = s.
Proof.
  induction s as [|c r IH]; simpl; [done|].
  rewrite andb_true_iff. intros [Hc Hr]. rewrite Hc, (IH Hr).
  assert ((nat_of_ascii c =? 9) || (nat_of_ascii c =? 10) || (nat_of_ascii c =? 13)
          = false) as ->; [|done].
  revert Hc. destruct c as [[|] [|] [|] [|] [|] [|] [|] [|]]; vm_compute; intros; done.
Qed.

Lemma string_forallb_app (P : ascii → bool) a b :
  string_forallb P (a +:+ b) = string_forallb P a && string_forallb P b.
Proof. induction a as [|c r IH]; simpl; [done|]. by rewrite IH, andb_assoc. Qed.

Lemma string_forallb_join (P : ascii → bool) sepr l :
  string_forallb P sepr = true → Forall (fun s => string_forallb P s = true) l →
  string_forallb P (join sepr l) = true.
Proof.
  intros Hs Hl. induction Hl as [|x r Hx Hr IH]; [done|].
  destruct r as [|y r]; [done|].
  change (join sepr (x :: y :: r)) with (x +:+ sepr +:+ join sepr (y :: r)).
  by rewrite !string_forallb_app, Hx, Hs, IH.
Qed.

Lemma digit_kept c : is_sign_or_digit c = true → fragment_keeps c = true.
Proof.
  destruct c as [[|] [|] [|] [|] [|] [|] [|] [|]]; vm_compute; intros; done.
Qed.

Lemma decimal_kept z : string_forallb fragment_keeps (decimal z) = true.
Proof. eapply string_forallb_impl, decimal_chars. apply digit_kept. Qed.

Lemma locationHash_makeHash (pid eid : string) (b w d : Z) :
  string_forallb fragment_keeps pid = true → string_forallb fragment_keeps eid = true →
  locationHash (makeHash (LStr pid) (LNum (Fin (Int b))) (LNum (Fin (Int w)))
                         (LNum (Fin (Int d))) (LStr eid))
  = makeHash (LStr pid) (LNum (Fin (Int b))) (LNum (Fin (Int w))) (LNum (Fin (Int d)))
             (LStr eid).
Proof.
  intros Hp He. rewrite makeHash_join. unfold locationHash.
  change (Ascii.eqb "#" "#") with true. cbv iota zeta.
  rewrite fragment_encode_kept; [done|].
  change (string_forallb fragment_keeps (String "/" ?x))
    with (string_forallb fragment_keeps x).
  apply string_forallb_join; [done|].
  repeat constructor; auto using decimal_kept.
Qed.



(** X3: a route that stops after the period, or after the block, is parsed
    to a selection whose remaining components are absent: [undefined] for the
    block, [null] for the week, the day and the exercise. *)
Theorem route_prefix (pid : string) (b : Z)
    (Hp : pid ≠ EmptyString) (Hps : has_char "/" pid = false) :
  parseHash ("#/p/" +:+ pid)
  = Some (Selection (LStr pid) LUndef LNull LNull LNull)
  ∧ parseHash ("#/p/" +:+ pid +:+ "/b/" +:+ decimal b)
    = Some (Selection (LStr pid) (LStr (decimal b)) LNull LNull LNull).
Proof.
  assert (∀ s, s ≠ EmptyString → falsy (LStr s) = false) as Hf by (by intros []).
  split.
  - change ("#/p/" +:+ pid) with (String "#" (String "/" (join "/" ["p"; pid]))).
    unfold parseHash.
    change (strip_hash_prefix (String "#" (String "/" ?x))) with x.
    destruct (String.eqb_spec (join "/" ["p"; pid]) "") as [E|_]; [done|].
    rewrite split_join; [|done|by repeat constructor].
    simpl. rewrite (nonempty_eqb pid Hp). cbn [route_pairs]. unfold prop.
    repeat (first [rewrite lookup_insert_eq | rewrite lookup_insert_ne by discriminate
                  | rewrite lookup_empty]).
    simpl. by rewrite (Hf pid Hp).
  - change ("#/p/" +:+ pid +:+ "/b/" +:+ decimal b)
      with (String "#" (String "/" (join "/" ["p"; pid; "b"; decimal b]))).
    unfold parseHash.
    change (strip_hash_prefix (String "#" (String "/" ?x))) with x.
    destruct (String.eqb_spec (join "/" ["p"; pid; "b"; decimal b]) "") as [E|_]; [done|].
    rewrite split_join; [|done|].
    2:{ repeat constructor; auto using decimal_no_slash. }
    simpl. rewrite (nonempty_eqb pid Hp), (nonempty_eqb _ (decimal_nonempty b)).
    cbn [route_pairs]. unfold prop.
    repeat (first [rewrite lookup_insert_eq | rewrite lookup_insert_ne by discriminate
                  | rewrite lookup_empty]).
    simpl. by rewrite (Hf pid Hp).
Qed.

Lemma route_prefix_witness :
  parseHash ("#/p/" +:+ "serie-1-2026")
  = Some (Selection (LStr "serie-1-2026") LUndef LNull LNull LNull).
Proof.
  apply (route_prefix "serie-1-2026" 1); done.
Defined.

(** ** The handlers and the overlay *)

Lemma finish_edits st0 st1 : edits (state_after st0 (finish st1)) = edits st1.
Proof. destruct (finish_spec st1) as (doc' & s' & -> & _). done. Qed.

Lemma step_edits lc a st :
  edits (step lc a st) = edits st
  ∨ (a = RemoveExercise ∧ completed (handle lc a st) = true
     ∧ edits (step lc a st) = delete (selKey (sel st)) (edits st)).
Proof.
  unfold step.
  destruct a; simpl;
    unfold addPeriod, addBlock, addWeek, addDay, addExercise, removeExercise,
      removeDay, removeWeek, removeBlock, removePeriod;
    repeat case_match; simpl; try (by left);
    try (left; by rewrite finish_edits).
  right. split; [done|].
  match goal with |- context [finish ?s] =>
    destruct (finish_spec s) as (doc' & s' & -> & _) end.
  done.
Qed.

(** X4: among the handlers of the structure manager only the exercise removal
    writes to the overlay, and it touches nothing but the key of the
    selection: every other handler leaves every overlay entry as it was,
    whatever it does to the document. *)
Theorem handlers_overlay_frame (lc : string → string → Z) (a : action) (st : state)
    (k : string) (H : a ≠ RemoveExercise ∨ k ≠ selKey (sel st)) :
  edits (step lc a st) !! k = edits st !! k.
Proof.
  destruct (step_edits lc a st) as [->|(-> & _ & ->)]; [done|].
  destruct H as [H|H]; [done|]. by rewrite lookup_delete_ne.
Qed.

Lemma handlers_overlay_frame_witness :
  edits (step lengthCompare RemovePeriod sampleState) !! sampleKey
  = edits sampleState !! sampleKey.
Proof.
  apply (handlers_overlay_frame lengthCompare RemovePeriod sampleState sampleKey).
  left. discriminate.
Defined.

(** X5: the exercise removal either stops before changing anything (the
    selection does not resolve, or no exercise has the selected id) or it
    deletes the overlay entry under the key of the selection; in the second
    case no patch is left under that key. *)
Theorem removeExercise_purges (lc : string → string → Z) (st : state) :
  (completed (handle lc RemoveExercise st) = false ∧ step lc RemoveExercise st = st)
  ∨ (completed (handle lc RemoveExercise st) = true
     ∧ edits (step lc RemoveExercise st) = delete (selKey (sel st)) (edits st)
     ∧ edits (step lc RemoveExercise st) !! selKey (sel st) = None).
Proof.
  unfold step. simpl. unfold removeExercise.
  repeat case_match; simpl; try (by left).
  right.
  match goal with |- context [finish ?s] =>
    destruct (finish_spec s) as (doc' & s' & -> & _) end.
  simpl. split_and!; [done|done|]. apply lookup_delete_eq.
Qed.

(** ** Saving and viewing *)

Lemma nextPatch_lookup prev partialPatch now f :
  f ≠ "updatedAt" →
  nextPatch prev partialPatch now !! f
  = match partialPatch !! f with Some v => Some v | None => prev !! f end.
Proof.
  intros Hf. unfold nextPatch. rewrite lookup_insert_ne by done. rewrite lookup_union.
  by destruct (partialPatch !! f), (prev !! f).
Qed.

(** X6: when the selection resolves, the entry shown after [saveEntryPatch]
    has [updatedAt] equal to the time of the write; each of [work],
    [lifterComment] and [coachComment] is the string the partial patch gives
    it, the value of the base entry when the partial patch gives it something
    that is not a string (an earlier patch for that field is then lost), and
    what was shown before when the partial patch does not mention it;
    likewise [videos] with arrays; every other field is shown as before. *)
Theorem saved_patch_is_shown (now : string) (partialPatch : gmap string jsval)
    (st : state) (p : period) (b : block) (w : week) (d : day) (ex : exercise)
    (Hres : lookupChain (baseData st) (periodId (sel st)) (blockId (sel st))
              (sel_week (sel st)) (sel_day (sel st)) (exerciseId (sel st))
            = Some (p, b, w, d, ex)) :
  let s := sel st in
  let st' := saveEntryPatch now partialPatch st in
  let base := baseEntry (periodId s) p b w d ex in
  ∃ old new,
    getPatchedEntry (baseData st) (edits st) (periodId s) (blockId s) (sel_week s)
                    (sel_day s) (exerciseId s) = Some old
    ∧ getPatchedEntry (baseData st') (edits st') (periodId s) (blockId s) (sel_week s)
                      (sel_day s) (exerciseId s) = Some new
    ∧ new !! "updatedAt" = Some (VStr now)
    ∧ (∀ f, f ∈ ["work"; "lifterComment"; "coachComment"] →
         new !! f = match partialPatch !! f with
                    | Some (VStr x) => Some (VStr x)
                    | Some _ => base !! f
                    | None => old !! f
                    end)
    ∧ new !! "videos" = match partialPatch !! "videos" with
                        | Some (VArr l) => Some (VArr l)
                        | Some _ => base !! "videos"
                        | None => old !! "videos"
                        end
    ∧ (∀ f, f ∉ overlayable → new !! f = old !! f).
Proof.
  cbv zeta. rewrite !getPatchedEntry_chain. unfold saveEntryPatch. simpl.
  rewrite Hres. simpl. eexists _, _. split; [done|]. split; [done|].
  fold (selKey (sel st)). rewrite lookup_insert_eq.
  set (base := baseEntry (periodId (sel st)) p b w d ex).
  set (prev := edits st !! selKey (sel st)).
  split_and!.
  - rewrite patched_string_field by (rewrite !elem_of_cons; auto).
    unfold nextPatch. by rewrite lookup_insert_eq.
  - intros f Hf.
    assert (f ≠ "updatedAt") as Hne.
    { rewrite !elem_of_cons in Hf. destruct Hf as [->|[->|[->|Hf]]]; try done.
      by apply elem_of_nil in Hf. }
    assert (f ∈ ["work"; "lifterComment"; "coachComment"; "updatedAt"]) as Hf'.
    { rewrite !elem_of_cons in Hf. rewrite !elem_of_cons.
      destruct Hf as [->|[->|[->|Hf]]];
        [by left | by right; left | by right; right; left | by apply elem_of_nil in Hf]. }
    rewrite patched_string_field by done. rewrite nextPatch_lookup by done.
    destruct (partialPatch !! f) as [v|]; [by destruct v|].
    destruct prev as [pv|].
    + by rewrite patched_string_field.
    + simpl. by rewrite lookup_empty.
  - rewrite patched_videos_field. rewrite nextPatch_lookup by done.
    destruct (partialPatch !! "videos") as [v|]; [by destruct v|].
    destruct prev as [pv|].
    + by rewrite patched_videos_field.
    + simpl. by rewrite lookup_empty.
  - intros f Hf. by rewrite !applyPatchToEntry_frame.
Qed.

Lemma saved_patch_is_shown_witness :
  ∃ old new,
    getPatchedEntry sampleDoc ∅ (LStr "serie-1-2026") (LStr "1") (LNum (Fin (Int 1)))
                    (LNum (Fin (Int 1))) (LStr "squat") = Some old
    ∧ getPatchedEntry sampleDoc (edits sampleState) (LStr "serie-1-2026") (LStr "1")
                      (LNum (Fin (Int 1))) (LNum (Fin (Int 1))) (LStr "squat") = Some new
    ∧ new !! "updatedAt" = Some (VStr "2026-01-01T10:00:00.000Z").
Proof.
  destruct (saved_patch_is_shown "2026-01-01T10:00:00.000Z" {["work" := VStr "8x3"]}
              (State sampleDoc ∅ sampleSel) _ _ _ _ _ eq_refl)
    as (old & new & H1 & H2 & H3 & _).
  exists old, new. auto.
Defined.

(** ** The export merge *)

Lemma find_map {A} (P : A → bool) (g : A → A) l :
  (∀ x, P (g x) = P x) → find P (map g l) = g <$> find P l.
Proof.
  intros HP. induction l as [|x r IH]; simpl; [done|].
  rewrite HP. by destruct (P x).
Qed.

Lemma num_norm_integer m k z :
  (m = z * pow10 k)%Z → num_norm m k = Num z 0.
Proof.
  revert m. induction k as [|k IH]; intros m E; simpl.
  - unfold pow10 in E. simpl in E. f_equal. lia.
  - assert (pow10 (S k) = 10 * pow10 k)%Z as Hp.
    { unfold pow10. rewrite Nat2Z.inj_succ, Z.pow_succ_r by lia. done. }
    rewrite Hp in E.
    assert (m mod 10 = 0)%Z as Hm.
    { subst m. replace (z * (10 * pow10 k))%Z with ((z * pow10 k) * 10)%Z by ring.
      apply Z_mod_mult. }
    rewrite Hm. simpl. apply IH. subst m.
    replace (z * (10 * pow10 k))%Z with ((z * pow10 k) * 10)%Z by ring.
    by rewrite Z_div_mult by lia.
Qed.

(** A number equal to an integer prints as that integer. *)
Lemma numToString_integer n z : num_eqb n (Int z) = true → numToString n = decimal z.
Proof.
  unfold num_eqb. simpl. rewrite Z.eqb_eq. intros E.
  unfold numToString. rewrite (num_norm_integer _ _ z); [done|].
  unfold pow10 in E at 1. simpl in E. lia.
Qed.

Lemma mergeLoops_lookupChain m c pid bid wk dy eid :
  lookupChain (mergeLoops m c) pid bid wk dy eid
  = '(p, b, w, d, e) ← lookupChain c pid bid wk dy eid;
    Some (mergePeriod m p, mergeBlock m p b, mergeWeek m p b w, mergeDay m p b w d,
          mergeExercise m p b w d e).
Proof.
  unfold lookupChain, getPeriod, getBlock, getWeek, getDay, getExercise. simpl.
  rewrite find_map by done.
  destruct (find (period_matches pid) (periods c)) as [p|]; simpl; [|done].
  rewrite find_map by done.
  destruct (find (block_matches bid) (blocks p)) as [b|]; simpl; [|done].
  rewrite find_map by done.
  destruct (find (week_matches wk) (weeks b)) as [w|]; simpl; [|done].
  rewrite find_map by done.
  destruct (find (day_matches dy) (days w)) as [d|]; simpl; [|done].
  rewrite find_map.
  2:{ intros x. unfold mergeExercise, exercise_matches.
      by destruct (m !! exerciseKey p b w d x). }
  by destruct (find (exercise_matches eid) (exercises d)).
Qed.

(** The key the merge loops compute for the exercise a locator resolves to is
    the key of the locator, when the block is given as a number or a string
    and the week and day as integers. *)
Lemma resolved_key c pid bid wz dz eid p b w d e :
  is_set bid = true →
  lookupChain c (LStr pid) bid (LNum (Fin (Int wz))) (LNum (Fin (Int dz))) (LStr eid)
  = Some (p, b, w, d, e) →
  exerciseKey p b w d e
  = entryKey (LStr pid) bid (LNum (Fin (Int wz))) (LNum (Fin (Int dz))) (LStr eid).
Proof.
  intros Hset Hc. apply lookupChain_Some in Hc as (Hp & Hb & Hw & Hd & He).
  apply find_true in Hp, Hb, Hw, Hd, He.
  unfold period_matches, exercise_matches in Hp, He. simpl in Hp, He.
  apply String.eqb_eq in Hp, He, Hb.
  unfold week_matches, day_matches in Hw, Hd. simpl in Hw, Hd.
  apply numToString_integer in Hw, Hd.
  unfold exerciseKey, entryKey. simpl.
  assert (joinElem bid = numToString (block_id b)) as ->.
  { simpl in Hb. rewrite Hb. by destruct bid. }
  by rewrite Hp, He, Hw, Hd.
Qed.

Lemma baseEntry_other pid p b w d ex p' b' w' d' ex' f :
  f ∉ overlayable →
  period_name p' = period_name p → block_id b' = block_id b →
  week_num w' = week_num w → day_num d' = day_num d →
  ex_id ex' = ex_id ex → ex_name ex' = ex_name ex →
  baseEntry pid p' b' w' d' ex' !! f = baseEntry pid p b w d ex !! f.
Proof.
  intros Hf E1 E2 E3 E4 E5 E6.
  unfold overlayable in Hf. rewrite !not_elem_of_cons in Hf.
  destruct Hf as (? & ? & ? & ? & ? & _).
  unfold baseEntry. rewrite E1, E2, E3, E4, E5, E6.
  do 7 (rewrite lookup_insert; symmetry; rewrite lookup_insert; symmetry;
        case_decide; [done|]).
  rewrite !lookup_insert_ne by done. done.
Qed.

Lemma js_or_string s : js_or (VStr s) (VStr "") = VStr s.
Proof. by destruct s. Qed.

Lemma js_or_stamp s : s ≠ "" → js_or (VStr s) VNull = VStr s.
Proof. by destruct s. Qed.

Lemma baseEntry_merged m pid p b w d e :
  (∀ pt, m !! exerciseKey p b w d e = Some pt → pt !! "updatedAt" ≠ Some (VStr "")) →
  baseEntry pid (mergePeriod m p) (mergeBlock m p b) (mergeWeek m p b w)
            (mergeDay m p b w d) (mergeExercise m p b w d e)
  = applyPatchToEntry (baseEntry pid p b w d e) (m !! exerciseKey p b w d e).
Proof.
  intros Hu. unfold mergeExercise.
  destruct (m !! exerciseKey p b w d e) as [pt|] eqn:E; [|done].
  specialize (Hu pt eq_refl).
  apply map_eq. intros f.
  destruct (decide (f ∈ overlayable)) as [Hf|Hf].
  - destruct (baseEntry_fields pid (mergePeriod m p) (mergeBlock m p b) (mergeWeek m p b w)
                (mergeDay m p b w d) (patchExercise pt e)) as (M1 & M2 & M3 & M4 & M5).
    destruct (baseEntry_fields pid p b w d e) as (B1 & B2 & B3 & B4 & B5).
    unfold overlayable in Hf. rewrite !elem_of_cons in Hf.
    destruct Hf as [->|[->|[->|[->|[->|Hf]]]]]; [..|by apply elem_of_nil in Hf].
    + rewrite M1, patched_string_field, B1 by (rewrite !elem_of_cons; auto).
      simpl. destruct (pt !! "work") as [[]|]; try done. by rewrite js_or_string.
    + rewrite M2, patched_videos_field, B2. simpl.
      by destruct (pt !! "videos") as [[]|].
    + rewrite M3, patched_string_field, B3 by (rewrite !elem_of_cons; auto).
      simpl. destruct (pt !! "lifterComment") as [[]|]; try done. by rewrite js_or_string.
    + rewrite M4, patched_string_field, B4 by (rewrite !elem_of_cons; auto).
      simpl. destruct (pt !! "coachComment") as [[]|]; try done. by rewrite js_or_string.
    + rewrite M5, patched_string_field, B5 by (rewrite !elem_of_cons; auto 6).
      simpl. destruct (pt !! "updatedAt") as [[]|]; try done.
      rewrite js_or_stamp; [done|]. intros ->. done.
  - rewrite applyPatchToEntry_frame by done. by apply baseEntry_other.
Qed.

(** X7: the exported document agrees with the view.  For a locator given by
    a period slug, a block (number or string), an integer week and day and an
    exercise slug, the entry resolved in the result of [mergeBaseWithEdits]
    with an empty overlay is the entry resolved in the cloned base with the
    overlay, provided the patch under the key of the locator does not hold
    the empty string as [updatedAt] (the view would show it, the exported
    document reads as [null]). *)
Theorem export_agrees_with_view (doc : document)
    (ov : gmap string (gmap string jsval)) (pid eid : string) (bid : lval)
    (wz dz : Z)
    (Hbid : is_set bid = true)
    (Hstamp : ∀ pt,
        ov !! entryKey (LStr pid) bid (LNum (Fin (Int wz))) (LNum (Fin (Int dz)))
                       (LStr eid) = Some pt →
        pt !! "updatedAt" ≠ Some (VStr "")) :
  getPatchedEntry (mergeBaseWithEdits doc ov) ∅ (LStr pid) bid (LNum (Fin (Int wz)))
                  (LNum (Fin (Int dz))) (LStr eid)
  = getPatchedEntry (deepClone doc) ov (LStr pid) bid (LNum (Fin (Int wz)))
                    (LNum (Fin (Int dz))) (LStr eid).
Proof.
  unfold mergeBaseWithEdits. rewrite !getPatchedEntry_chain, mergeLoops_lookupChain.
  destruct (lookupChain (deepClone doc) (LStr pid) bid (LNum (Fin (Int wz)))
              (LNum (Fin (Int dz))) (LStr eid)) as [[[[[p b] w] d] e]|] eqn:Hc; [|done].
  simpl. rewrite lookup_empty. simpl. f_equal.
  pose proof (resolved_key _ _ _ _ _ _ _ _ _ _ _ Hbid Hc) as Hk.
  rewrite <- Hk in Hstamp |- *. by apply baseEntry_merged.
Qed.

Lemma export_agrees_with_view_witness :
  getPatchedEntry (mergeBaseWithEdits sampleDoc (edits sampleState)) ∅
                  (LStr "serie-1-2026") (LStr "1") (LNum (Fin (Int 1)))
                  (LNum (Fin (Int 1))) (LStr "squat")
  = getPatchedEntry (deepClone sampleDoc) (edits sampleState)
                    (LStr "serie-1-2026") (LStr "1") (LNum (Fin (Int 1)))
                    (LNum (Fin (Int 1))) (LStr "squat").
Proof.
  apply (export_agrees_with_view sampleDoc (edits sampleState) "serie-1-2026" "squat"
           (LStr "1") 1 1 eq_refl).
  intros pt Hpt Hu.
  assert (edits sampleState !! sampleKey ≫= (.!! "updatedAt") = Some (VStr "")) as H.
  { change sampleKey
      with (entryKey (LStr "serie-1-2026") (LStr "1") (LNum (Fin (Int 1)))
                     (LNum (Fin (Int 1))) (LStr "squat")).
    rewrite Hpt. exact Hu. }
  vm_compute in H. discriminate H.
Defined.

Lemma flat_map_map {A B C} (f : B → list C) (g : A → B) l :
  flat_map f (map g l) = flat_map (fun x => f (g x)) l.
Proof. induction l as [|x r IH]; simpl; [done|]. by rewrite IH. Qed.

Lemma flat_map_ext_in {A B} (f g : A → list B) l :
  (∀ x, x ∈ l → f x = g x) → flat_map f l = flat_map g l.
Proof.
  intros H. induction l as [|x r IH]; simpl; [done|].
  rewrite H by apply list_elem_of_here. f_equal. apply IH.
  intros y Hy. apply H. by apply list_elem_of_further.
Qed.

Lemma map_ext_elem {A B} (f g : A → B) l :
  (∀ x, x ∈ l → f x = g x) → map f l = map g l.
Proof.
  intros H. apply map_ext_in. intros x Hx. apply H. by apply list_elem_of_In.
Qed.

Lemma elem_of_flat_map {A B} (f : A → list B) l y :
  y ∈ flat_map f l ↔ ∃ x, x ∈ l ∧ y ∈ f x.
Proof.
  rewrite list_elem_of_In, in_flat_map. split; intros (x & Hx & Hy); exists x;
    by rewrite ?list_elem_of_In in *.
Qed.

Lemma exercise_keys_elem doc p b w d e :
  p ∈ periods doc → b ∈ blocks p → w ∈ weeks b → d ∈ days w → e ∈ exercises d →
  exerciseKey p b w d e ∈ exercise_keys doc.
Proof.
  intros Hp Hb Hw Hd He. unfold exercise_keys.
  apply elem_of_flat_map. exists p. split; [done|].
  apply elem_of_flat_map. exists b. split; [done|].
  apply elem_of_flat_map. exists w. split; [done|].
  apply elem_of_flat_map. exists d. split; [done|].
  apply list_elem_of_In, in_map. by apply list_elem_of_In.
Qed.

Lemma mergeExercise_id m p b w d e : ex_id (mergeExercise m p b w d e) = ex_id e.
Proof. unfold mergeExercise. by destruct (m !! exerciseKey p b w d e). Qed.

Lemma exercise_keys_mergeLoops m c : exercise_keys (mergeLoops m c) = exercise_keys c.
Proof.
  unfold exercise_keys, mergeLoops. simpl. rewrite flat_map_map.
  apply flat_map_ext_in. intros p _. simpl. rewrite flat_map_map.
  apply flat_map_ext_in. intros b _. simpl. rewrite flat_map_map.
  apply flat_map_ext_in. intros w _. simpl. rewrite flat_map_map.
  apply flat_map_ext_in. intros d _. simpl. rewrite map_map.
  apply map_ext_elem. intros e _. unfold exerciseKey. simpl.
  by rewrite mergeExercise_id.
Qed.

Lemma exercise_keys_deepClone doc : exercise_keys (deepClone doc) = exercise_keys doc.
Proof.
  unfold exercise_keys, deepClone. simpl. rewrite flat_map_map.
  apply flat_map_ext_in. intros p _. simpl. rewrite flat_map_map.
  apply flat_map_ext_in. intros b _. simpl. rewrite flat_map_map.
  apply flat_map_ext_in. intros w _. simpl. rewrite flat_map_map.
  apply flat_map_ext_in. intros d _. simpl. rewrite map_map.
  by apply map_ext_elem.
Qed.

Lemma mergeLoops_ext m1 m2 c :
  (∀ k, k ∈ exercise_keys c → m1 !! k = m2 !! k) → mergeLoops m1 c = mergeLoops m2 c.
Proof.
  intros H. unfold mergeLoops. f_equal.
  apply map_ext_elem. intros p Hp. unfold mergePeriod. f_equal.
  apply map_ext_elem. intros b Hb. unfold mergeBlock. f_equal.
  apply map_ext_elem. intros w Hw. unfold mergeWeek. f_equal.
  apply map_ext_elem. intros d Hd. unfold mergeDay. f_equal.
  apply map_ext_elem. intros e He. unfold mergeExercise.
  by rewrite (H _ (exercise_keys_elem c p b w d e Hp Hb Hw Hd He)).
Qed.

Lemma map_fixed {A} (f : A → A) l : (∀ x, f x = x) → map f l = l.
Proof. intros H. induction l as [|x r IH]; simpl; [done|]. by rewrite H, IH. Qed.

Lemma mergeLoops_empty c : mergeLoops ∅ c = c.
Proof.
  destruct c as [ps]. unfold mergeLoops. simpl. f_equal.
  apply map_fixed. intros [pi pn bs]. unfold mergePeriod. simpl. f_equal.
  apply map_fixed. intros [bi ws]. unfold mergeBlock. simpl. f_equal.
  apply map_fixed. intros [wi ds]. unfold mergeWeek. simpl. f_equal.
  apply map_fixed. intros [di dl es]. unfold mergeDay. simpl. f_equal.
  apply map_fixed. intros e. unfold mergeExercise. by rewrite lookup_empty.
Qed.

(** X8: [mergeBaseWithEdits] reads the overlay only under the entry keys of
    the exercises of the document: two overlays that agree on those keys give
    the same export, so a patch stored under any other key is dropped without
    notice.  The export has the same exercises under the same keys in the
    same order as the document, and with an empty overlay it is the deep
    clone. *)
Theorem merge_reads_document_keys (doc : document)
    (ov1 ov2 : gmap string (gmap string jsval))
    (Hagree : ∀ k, k ∈ exercise_keys doc → ov1 !! k = ov2 !! k) :
  mergeBaseWithEdits doc ov1 = mergeBaseWithEdits doc ov2
  ∧ exercise_keys (mergeBaseWithEdits doc ov1) = exercise_keys doc
  ∧ mergeBaseWithEdits doc ∅ = deepClone doc.
Proof.
  unfold mergeBaseWithEdits. split_and!.
  - apply mergeLoops_ext. by rewrite exercise_keys_deepClone.
  - by rewrite exercise_keys_mergeLoops, exercise_keys_deepClone.
  - apply mergeLoops_empty.
Qed.

Lemma merge_reads_document_keys_witness :
  mergeBaseWithEdits sampleDoc {["none|1|1|1|squat" := {["work" := VStr "x"]}]}
  = mergeBaseWithEdits sampleDoc ∅.
Proof.
  apply (merge_reads_document_keys sampleDoc
           {["none|1|1|1|squat" := {["work" := VStr "x"]}]} ∅).
  intros k Hk. vm_compute in Hk. apply list_elem_of_singleton in Hk as ->.
  vm_compute. reflexivity.
Defined.

(** ** Enumerating a well-formed document *)

Lemma find_unique {A B} (f : A → B) (P : A → bool) l x :
  NoDup (map f l) → x ∈ l → P x = true →
  (∀ y, y ∈ l → P y = true → f y = f x) → find P l = Some x.
Proof.
  intros Hnd Hx Px Hu. induction l as [|y r IH]; [by apply elem_of_nil in Hx|].
  simpl in *. apply NoDup_cons in Hnd as [Hy Hnd].
  destruct (P y) eqn:Py.
  - apply elem_of_cons in Hx as [->|Hx]; [done|].
    exfalso. apply Hy. rewrite (Hu y (list_elem_of_here _ _) Py).
    apply list_elem_of_In, in_map. by apply list_elem_of_In.
  - apply elem_of_cons in Hx as [->|Hx]; [congruence|].
    apply IH; [done|done|]. intros z Hz. apply Hu. by apply list_elem_of_further.
Qed.

Lemma integer_num n : scale n = 0 → n = Int (mant n).
Proof. destruct n as [m k]. simpl. by intros ->. Qed.

Lemma integer_print_inj a b :
  scale a = 0 → scale b = 0 → numToString a = numToString b → a = b.
Proof.
  intros Ha Hb E. rewrite (integer_num a Ha), (integer_num b Hb) in E |- *.
  rewrite !numToString_Int in E. by rewrite (decimal_inj _ _ E).
Qed.

Lemma integer_value_inj a b :
  scale a = 0 → scale b = 0 → num_eqb a b = true → a = b.
Proof.
  intros Ha Hb E. rewrite (integer_num a Ha), (integer_num b Hb) in E |- *.
  unfold num_eqb in E. simpl in E. apply Z.eqb_eq in E.
  unfold pow10 in E. simpl in E. f_equal. lia.
Qed.

(** X9: in a document whose identifiers are unique among siblings and whose
    block, week and day identifiers are integers, each exercise reached by
    the nested loops (search, history, merge) is resolved by the lookup chain
    from its own identifiers to itself, so [getPatchedEntry] on them never
    returns [null]. *)
Theorem enumerated_resolves (doc : document) (p : period) (b : block) (w : week)
    (d : day) (e : exercise)
    (Hwf : wf_document doc) (Hp : p ∈ periods doc) (Hb : b ∈ blocks p)
    (Hw : w ∈ weeks b) (Hd : d ∈ days w) (He : e ∈ exercises d) :
  lookupChain doc (LStr (period_id p)) (LNum (Fin (block_id b)))
              (LNum (Fin (week_num w))) (LNum (Fin (day_num d))) (LStr (ex_id e))
  = Some (p, b, w, d, e)
  ∧ ∀ ed, is_Some (getPatchedEntry doc ed (LStr (period_id p)) (LNum (Fin (block_id b)))
                     (LNum (Fin (week_num w))) (LNum (Fin (day_num d)))
                     (LStr (ex_id e))).
Proof.
  destruct Hwf as [Hnp Hfp].
  pose proof (proj1 (Forall_forall _ _) Hfp p Hp) as [Hnb Hfb].
  pose proof (proj1 (Forall_forall _ _) Hfb b Hb) as (Hsb & Hnw & Hfw).
  pose proof (proj1 (Forall_forall _ _) Hfw w Hw) as (Hsw & Hnd & Hfd).
  pose proof (proj1 (Forall_forall _ _) Hfd d Hd) as (Hsd & Hne).
  assert (lookupChain doc (LStr (period_id p)) (LNum (Fin (block_id b)))
            (LNum (Fin (week_num w))) (LNum (Fin (day_num d))) (LStr (ex_id e))
          = Some (p, b, w, d, e)) as Hc.
  { apply lookupChain_Some. split_and!.
    - apply (find_unique period_id); [done|done|apply period_matches_self|].
      intros y _ Hy. unfold period_matches in Hy. simpl in Hy.
      by apply String.eqb_eq in Hy.
    - apply (find_unique block_id); [done|done|apply block_matches_self|].
      intros y Hy Hm. unfold block_matches in Hm. simpl in Hm.
      apply String.eqb_eq in Hm.
      pose proof (proj1 (Forall_forall _ _) Hfb y Hy) as (Hsy & _).
      by apply integer_print_inj.
    - apply (find_unique week_num); [done|done|apply num_eqb_refl|].
      intros y Hy Hm. unfold week_matches in Hm. simpl in Hm.
      pose proof (proj1 (Forall_forall _ _) Hfw y Hy) as (Hsy & _).
      by apply integer_value_inj.
    - apply (find_unique day_num); [done|done|apply num_eqb_refl|].
      intros y Hy Hm. unfold day_matches in Hm. simpl in Hm.
      pose proof (proj1 (Forall_forall _ _) Hfd y Hy) as (Hsy & _).
      by apply integer_value_inj.
    - apply (find_unique ex_id); [done|done| |].
      + unfold exercise_matches. simpl. apply String.eqb_refl.
      + intros y _ Hy. unfold exercise_matches in Hy. simpl in Hy.
        by apply String.eqb_eq in Hy. }
  split; [done|]. intros ed. rewrite getPatchedEntry_chain, Hc. simpl. eauto.
Qed.

Lemma sampleDoc_wf : wf_document sampleDoc.
Proof.
  unfold wf_document, wf_period, wf_block, wf_week, wf_day, sampleDoc. simpl.
  repeat first
    [ split
    | apply NoDup_nil_2
    | apply NoDup_singleton
    | apply Forall_nil_2
    | apply Forall_cons
    | reflexivity
    | (apply NoDup_cons; split; [rewrite list_elem_of_singleton; discriminate|]) ].
Qed.

Lemma enumerated_resolves_witness :
  lookupChain sampleDoc (LStr "serie-1-2026") (LNum (Fin (Int 1))) (LNum (Fin (Int 1)))
              (LNum (Fin (Int 1))) (LStr "squat")
  = Some (Period "serie-1-2026" "Serie 1 2026"
            [Block (Int 1)
               [Week (Int 1) [Day (Int 1) "Day 1" [squat]; Day (Int 2) "Day 2" []]]],
          Block (Int 1) [Week (Int 1) [Day (Int 1) "Day 1" [squat]; Day (Int 2) "Day 2" []]],
          Week (Int 1) [Day (Int 1) "Day 1" [squat]; Day (Int 2) "Day 2" []],
          Day (Int 1) "Day 1" [squat], squat).
Proof.
  apply (enumerated_resolves sampleDoc
           (Period "serie-1-2026" "Serie 1 2026"
              [Block (Int 1)
                 [Week (Int 1) [Day (Int 1) "Day 1" [squat]; Day (Int 2) "Day 2" []]]])
           (Block (Int 1)
              [Week (Int 1) [Day (Int 1) "Day 1" [squat]; Day (Int 2) "Day 2" []]])
           (Week (Int 1) [Day (Int 1) "Day 1" [squat]; Day (Int 2) "Day 2" []])
           (Day (Int 1) "Day 1" [squat]) squat sampleDoc_wf);
    apply list_elem_of_here.
Defined.

(** ** Running the selection fallback twice *)

Lemma modify_first_found {A} (P : A → bool) l c :
  find P l = Some c → modify_first P (fun _ => c) l = l.
Proof.
  induction l as [|x r IH]; simpl; [done|].
  destruct (P x); [by intros [= ->]|]. intros H. by rewrite IH.
Qed.

Lemma push_if_empty_found {A} (P : A → bool) (ph : A) l c :
  find P l = Some c → push_if_empty ph l = l.
Proof. by destruct l. Qed.

Lemma head_modify_first {A} (P : A → bool) l x c :
  head l = Some x → P x = true → head (modify_first P (fun _ => c) l) = Some c.
Proof. destruct l as [|y r]; simpl; [done|]. intros [= ->] ->. done. Qed.

Lemma ensureExercise_again d eid d' eid' :
  ensureExercise d eid = Some (d', eid') →
  day_num d' = day_num d
  ∧ ensureExercise d' eid' = Some (d', eid')
  ∧ (falsy eid = true → ensureExercise d' LNull = Some (d', eid')).
Proof.
  unfold ensureExercise.
  set (es := push_if_empty placeholderExercise (exercises d)).
  assert (push_if_empty placeholderExercise es = es) as Hes.
  { unfold es. by destruct (exercises d). }
  simpl. destruct (falsy eid || is_none (getExercise (Day (day_num d) (label d) es) eid))
    eqn:Hc.
  - destruct (head es) as [e0|] eqn:Hh; simpl; [|done]. intros [= <- <-].
    simpl. rewrite Hes, Hh. simpl. split; [done|]. split; [|done].
    assert (getExercise (Day (day_num d) (label d) es) (LStr (ex_id e0)) = Some e0) as ->.
    { apply find_head; [done|]. unfold exercise_matches. simpl. apply String.eqb_refl. }
    simpl. by destruct (falsy (LStr (ex_id e0)) || false).
  - intros [= <- <-]. simpl. rewrite Hes. rewrite Hc. split; [done|]. split; [done|].
    apply orb_false_iff in Hc as [-> _]. done.
Qed.

Lemma ensureDay_keep n l dy eid d1 e2 :
  falsy dy = false → find (day_matches dy) l = Some d1 →
  ensureExercise d1 eid = Some (d1, e2) →
  ensureDay (Week n l) dy eid = Some (Week n l, dy, e2).
Proof.
  intros Hf Hl He. unfold ensureDay, getDay. simpl.
  rewrite (push_if_empty_found _ _ _ _ Hl), Hf, Hl. simpl. rewrite Hl. simpl.
  rewrite He. simpl. by rewrite (modify_first_found _ _ _ Hl).
Qed.

Lemma ensureDay_reset n l dy eid d1 e2 :
  falsy dy = true → head l = Some d1 →
  ensureExercise d1 LNull = Some (d1, e2) →
  ensureDay (Week n l) dy eid = Some (Week n l, LNum (Fin (day_num d1)), e2).
Proof.
  intros Hf Hh He.
  assert (find (day_matches (LNum (Fin (day_num d1)))) l = Some d1) as Hl.
  { apply find_head; [done|]. apply num_eqb_refl. }
  unfold ensureDay, getDay. simpl.
  rewrite (push_if_empty_found _ _ _ _ Hl), Hf, Hh. simpl. rewrite Hl. simpl.
  rewrite He. simpl. by rewrite (modify_first_found _ _ _ Hl).
Qed.

Lemma ensureDay_again w dy eid w' dy' eid' :
  ensureDay w dy eid = Some (w', dy', eid') →
  week_num w' = week_num w
  ∧ ensureDay w' dy' eid' = Some (w', dy', eid')
  ∧ (falsy dy = true → ensureDay w' LNull LNull = Some (w', dy', eid')).
Proof.
  intros H. unfold ensureDay in H.
  set (ds := push_if_empty (Day (Int 1) "Day 1" []) (days w)) in H.
  simpl in H.
  destruct (falsy dy || is_none (getDay (Week (week_num w) ds) dy)) eqn:Hc.
  - destruct (head ds) as [d0|] eqn:Hh; simpl in H; [|done].
    assert (find (day_matches (LNum (Fin (day_num d0)))) ds = Some d0) as Hg.
    { apply find_head; [done|]. apply num_eqb_refl. }
    unfold getDay in H. simpl in H. rewrite Hg in H. simpl in H.
    destruct (ensureExercise d0 LNull) as [[d1 e2]|] eqn:He; simpl in H; [|done].
    injection H as <- <- <-. simpl. split; [done|].
    apply ensureExercise_again in He as (Hn & Hi & Hii). specialize (Hii eq_refl).
    rewrite <- Hn.
    set (l := modify_first (day_matches (LNum (Fin (day_num d1)))) (fun _ => d1) ds).
    assert (head l = Some d1) as Hhl.
    { eapply head_modify_first; [done|]. rewrite Hn. apply num_eqb_refl. }
    split; [|intros _; by apply ensureDay_reset].
    destruct (falsy (LNum (Fin (day_num d1)))) eqn:Hf.
    + by apply ensureDay_reset.
    + apply (ensureDay_keep _ _ _ _ d1); [done| |done]. apply find_head; [done|]. apply num_eqb_refl.
  - apply orb_false_iff in Hc as [Hf Hn].
    unfold getDay in *. simpl in *.
    destruct (find (day_matches dy) ds) as [d|] eqn:Hg; [|done]. simpl in H.
    destruct (ensureExercise d eid) as [[d1 e2]|] eqn:He; simpl in H; [|done].
    injection H as <- <- <-. simpl. split; [done|].
    apply ensureExercise_again in He as (Hnum & Hi & _).
    split; [|congruence].
    apply (ensureDay_keep _ _ _ _ d1); [done| |done]. eapply find_modify_first; [done|].
    apply find_true in Hg. unfold day_matches in *. by rewrite Hnum.
Qed.

Lemma ensureWeek_keep n l wk dy eid w1 dy2 e2 :
  falsy wk = false → find (week_matches wk) l = Some w1 →
  ensureDay w1 dy eid = Some (w1, dy2, e2) →
  ensureWeek (Block n l) wk dy eid = Some (Block n l, wk, dy2, e2).
Proof.
  intros Hf Hl He. unfold ensureWeek, getWeek. simpl.
  rewrite (push_if_empty_found _ _ _ _ Hl), Hf, Hl. simpl. rewrite Hl. simpl.
  rewrite He. simpl. by rewrite (modify_first_found _ _ _ Hl).
Qed.

Lemma ensureWeek_reset n l wk dy eid w1 dy2 e2 :
  falsy wk = true → head l = Some w1 →
  ensureDay w1 LNull LNull = Some (w1, dy2, e2) →
  ensureWeek (Block n l) wk dy eid = Some (Block n l, LNum (Fin (week_num w1)), dy2, e2).
Proof.
  intros Hf Hh He.
  assert (find (week_matches (LNum (Fin (week_num w1)))) l = Some w1) as Hl.
  { apply find_head; [done|]. apply num_eqb_refl. }
  unfold ensureWeek, getWeek. simpl.
  rewrite (push_if_empty_found _ _ _ _ Hl), Hf, Hh. simpl. rewrite Hl. simpl.
  rewrite He. simpl. by rewrite (modify_first_found _ _ _ Hl).
Qed.

Lemma ensureWeek_again b wk dy eid b' wk' dy' eid' :
  ensureWeek b wk dy eid = Some (b', wk', dy', eid') →
  block_id b' = block_id b
  ∧ ensureWeek b' wk' dy' eid' = Some (b', wk', dy', eid')
  ∧ (falsy wk = true → ensureWeek b' LNull LNull LNull = Some (b', wk', dy', eid')).
Proof.
  intros H. unfold ensureWeek in H.
  set (ws := push_if_empty (Week (Int 1) []) (weeks b)) in H.
  simpl in H.
  destruct (falsy wk || is_none (getWeek (Block (block_id b) ws) wk)) eqn:Hc.
  - destruct (head ws) as [w0|] eqn:Hh; simpl in H; [|done].
    assert (find (week_matches (LNum (Fin (week_num w0)))) ws = Some w0) as Hg.
    { apply find_head; [done|]. apply num_eqb_refl. }
    unfold getWeek in H. simpl in H. rewrite Hg in H. simpl in H.
    destruct (ensureDay w0 LNull LNull) as [[[w1 dy2] e2]|] eqn:He; simpl in H; [|done].
    injection H as <- <- <- <-. simpl. split; [done|].
    apply ensureDay_again in He as (Hn & Hi & Hii). specialize (Hii eq_refl).
    rewrite <- Hn.
    set (l := modify_first (week_matches (LNum (Fin (week_num w1)))) (fun _ => w1) ws).
    assert (head l = Some w1) as Hhl.
    { eapply head_modify_first; [done|]. rewrite Hn. apply num_eqb_refl. }
    split; [|intros _; by apply ensureWeek_reset].
    destruct (falsy (LNum (Fin (week_num w1)))) eqn:Hf.
    + by apply ensureWeek_reset.
    + apply (ensureWeek_keep _ _ _ _ _ w1); [done| |done].
      apply find_head; [done|]. apply num_eqb_refl.
  - apply orb_false_iff in Hc as [Hf Hn].
    unfold getWeek in *. simpl in *.
    destruct (find (week_matches wk) ws) as [w|] eqn:Hg; [|done]. simpl in H.
    destruct (ensureDay w dy eid) as [[[w1 dy2] e2]|] eqn:He; simpl in H; [|done].
    injection H as <- <- <- <-. simpl. split; [done|].
    apply ensureDay_again in He as (Hnum & Hi & _).
    split; [|congruence].
    apply (ensureWeek_keep _ _ _ _ _ w1); [done| |done]. eapply find_modify_first; [done|].
    apply find_true in Hg. unfold week_matches in *. by rewrite Hnum.
Qed.

Lemma ensureBlock_keep i nm l bid wk dy eid b1 wk2 dy2 e2 :
  falsy bid = false → find (block_matches bid) l = Some b1 →
  ensureWeek b1 wk dy eid = Some (b1, wk2, dy2, e2) →
  ensureBlock (Period i nm l) bid wk dy eid = Some (Period i nm l, bid, wk2, dy2, e2).
Proof.
  intros Hf Hl He. unfold ensureBlock, getBlock. simpl.
  rewrite (push_if_empty_found _ _ _ _ Hl), Hf, Hl. simpl. rewrite Hl. simpl.
  rewrite He. simpl. by rewrite (modify_first_found _ _ _ Hl).
Qed.

Lemma ensureBlock_reset i nm l bid wk dy eid b1 wk2 dy2 e2 :
  falsy bid = true → head l = Some b1 →
  ensureWeek b1 LNull LNull LNull = Some (b1, wk2, dy2, e2) →
  ensureBlock (Period i nm l) bid wk dy eid
  = Some (Period i nm l, LNum (Fin (block_id b1)), wk2, dy2, e2).
Proof.
  intros Hf Hh He.
  assert (find (block_matches (LNum (Fin (block_id b1)))) l = Some b1) as Hl.
  { apply find_head; [done|]. apply block_matches_self. }
  unfold ensureBlock, getBlock. simpl.
  rewrite (push_if_empty_found _ _ _ _ Hl), Hf, Hh. simpl. rewrite Hl. simpl.
  rewrite He. simpl. by rewrite (modify_first_found _ _ _ Hl).
Qed.

Lemma ensureBlock_again p bid wk dy eid p' bid' wk' dy' eid' :
  ensureBlock p bid wk dy eid = Some (p', bid', wk', dy', eid') →
  period_id p' = period_id p
  ∧ ensureBlock p' bid' wk' dy' eid' = Some (p', bid', wk', dy', eid')
  ∧ (falsy bid = true →
     ensureBlock p' LNull LNull LNull LNull = Some (p', bid', wk', dy', eid')).
Proof.
  intros H. unfold ensureBlock in H.
  set (bs := push_if_empty (Block (Int 1) []) (blocks p)) in H.
  simpl in H.
  destruct (falsy bid
            || is_none (getBlock (Period (period_id p) (period_name p) bs) bid)) eqn:Hc.
  - destruct (head bs) as [b0|] eqn:Hh; simpl in H; [|done].
    assert (find (block_matches (LNum (Fin (block_id b0)))) bs = Some b0) as Hg.
    { apply find_head; [done|]. apply block_matches_self. }
    unfold getBlock in H. simpl in H. rewrite Hg in H. simpl in H.
    destruct (ensureWeek b0 LNull LNull LNull) as [[[[b1 wk2] dy2] e2]|] eqn:He;
      simpl in H; [|done].
    injection H as <- <- <- <- <-. simpl. split; [done|].
    apply ensureWeek_again in He as (Hn & Hi & Hii). specialize (Hii eq_refl).
    rewrite <- Hn.
    set (l := modify_first (block_matches (LNum (Fin (block_id b1)))) (fun _ => b1) bs).
    assert (head l = Some b1) as Hhl.
    { eapply head_modify_first; [done|]. rewrite Hn. apply block_matches_self. }
    split; [|intros _; by apply ensureBlock_reset].
    destruct (falsy (LNum (Fin (block_id b1)))) eqn:Hf.
    + by apply ensureBlock_reset.
    + apply (ensureBlock_keep _ _ _ _ _ _ _ b1); [done| |done].
      apply find_head; [done|]. apply block_matches_self.
  - apply orb_false_iff in Hc as [Hf Hn].
    unfold getBlock in *. simpl in *.
    destruct (find (block_matches bid) bs) as [b|] eqn:Hg; [|done]. simpl in H.
    destruct (ensureWeek b wk dy eid) as [[[[b1 wk2] dy2] e2]|] eqn:He;
      simpl in H; [|done].
    injection H as <- <- <- <- <-. simpl. split; [done|].
    apply ensureWeek_again in He as (Hnum & Hi & _).
    split; [|congruence].
    apply (ensureBlock_keep _ _ _ _ _ _ _ b1); [done| |done].
    eapply find_modify_first; [done|].
    apply find_true in Hg. unfold block_matches in *. by rewrite Hnum.
Qed.

Lemma ensureSelection_keep l s p1 bid wk dy eid :
  falsy (periodId s) = false → find (period_matches (periodId s)) l = Some p1 →
  ensureBlock p1 (blockId s) (sel_week s) (sel_day s) (exerciseId s)
  = Some (p1, bid, wk, dy, eid) →
  ensureSelection (Document l) s
  = Some (Document l, Selection (periodId s) bid wk dy eid).
Proof.
  intros Hf Hl He. unfold ensureSelection, getPeriod. simpl.
  rewrite (push_if_empty_found _ _ _ _ Hl), Hf, Hl. simpl. rewrite Hl. simpl.
  rewrite He. simpl. by rewrite (modify_first_found _ _ _ Hl).
Qed.

Lemma ensureSelection_reset l s p1 bid wk dy eid :
  falsy (periodId s) = true → head l = Some p1 →
  ensureBlock p1 LNull LNull LNull LNull = Some (p1, bid, wk, dy, eid) →
  ensureSelection (Document l) s
  = Some (Document l, Selection (LStr (period_id p1)) bid wk dy eid).
Proof.
  intros Hf Hh He.
  assert (find (period_matches (LStr (period_id p1))) l = Some p1) as Hl.
  { apply find_head; [done|]. apply period_matches_self. }
  unfold ensureSelection, getPeriod. simpl.
  rewrite (push_if_empty_found _ _ _ _ Hl), Hf, Hh. simpl. rewrite Hl. simpl.
  rewrite He. simpl. by rewrite (modify_first_found _ _ _ Hl).
Qed.

Lemma ensureSelection_again doc s doc' s' :
  ensureSelection doc s = Some (doc', s') → ensureSelection doc' s' = Some (doc', s').
Proof.
  intros H. unfold ensureSelection in H.
  set (ps := push_if_empty placeholderPeriod (periods doc)) in H.
  simpl in H.
  destruct (falsy (periodId s) || is_none (getPeriod (Document ps) (periodId s))) eqn:Hc.
  - destruct (head ps) as [p0|] eqn:Hh; simpl in H; [|done].
    assert (find (period_matches (LStr (period_id p0))) ps = Some p0) as Hg.
    { apply find_head; [done|]. apply period_matches_self. }
    unfold getPeriod in H. simpl in H. rewrite Hg in H. simpl in H.
    destruct (ensureBlock p0 LNull LNull LNull LNull)
      as [[[[[p1 bid] wk] dy] eid]|] eqn:He; simpl in H; [|done].
    injection H as <- <-.
    apply ensureBlock_again in He as (Hn & Hi & Hii). specialize (Hii eq_refl).
    rewrite <- Hn.
    set (l := modify_first (period_matches (LStr (period_id p1))) (fun _ => p1) ps).
    assert (head l = Some p1) as Hhl.
    { eapply head_modify_first; [done|]. rewrite Hn. apply period_matches_self. }
    destruct (falsy (LStr (period_id p1))) eqn:Hf.
    + by apply (ensureSelection_reset l (Selection (LStr (period_id p1)) bid wk dy eid)).
    + apply (ensureSelection_keep l (Selection (LStr (period_id p1)) bid wk dy eid) p1);
        [done| |done].
      apply find_head; [done|]. apply period_matches_self.
  - apply orb_false_iff in Hc as [Hf Hn].
    unfold getPeriod in *. simpl in *.
    destruct (find (period_matches (periodId s)) ps) as [p|] eqn:Hg; [|done]. simpl in H.
    destruct (ensureBlock p (blockId s) (sel_week s) (sel_day s) (exerciseId s))
      as [[[[[p1 bid] wk] dy] eid]|] eqn:He; simpl in H; [|done].
    injection H as <- <-.
    apply ensureBlock_again in He as (Hnum & Hi & _).
    apply (ensureSelection_keep _ (Selection (periodId s) bid wk dy eid) p1); [done| |done].
    simpl. eapply find_modify_first; [done|].
    apply find_true in Hg. unfold period_matches in *. by rewrite Hnum.
Qed.

(** X10: [ensureSelected] is idempotent: it returns, and run again on the
    state it leaves it returns that same state, with no further placeholder
    pushed and no component of the selection moved. *)
Theorem ensureSelected_idempotent (st : state) :
  ∃ st', ensureSelected st = Some st' ∧ ensureSelected st' = Some st'.
Proof.
  unfold ensureSelected.
  destruct (ensureSelection_spec (baseData st) (sel st)) as (doc' & s' & H & _).
  rewrite H. simpl. eexists. split; [done|]. simpl.
  by rewrite (ensureSelection_again _ _ _ _ H).
Qed.

(** ** The handlers of the exercise view *)

Lemma selectedEntry_chain st :
  selectedEntry st
  = '(p, b, w, d, ex) ← lookupChain (baseData st) (periodId (sel st)) (blockId (sel st))
                          (sel_week (sel st)) (sel_day (sel st)) (exerciseId (sel st));
    Some (applyPatchToEntry (baseEntry (periodId (sel st)) p b w d ex)
                            (edits st !! selKey (sel st))).
Proof. unfold selectedEntry. cbv zeta. by rewrite getPatchedEntry_chain. Qed.

Lemma entry_videos_array pid p b w d ex pt :
  ∃ l, applyPatchToEntry (baseEntry pid p b w d ex) pt !! "videos" = Some (VArr l)
       ∧ entry_videos (applyPatchToEntry (baseEntry pid p b w d ex) pt) = VArr l.
Proof.
  destruct (baseEntry_fields pid p b w d ex) as (_ & Hv & _).
  assert (∃ l, applyPatchToEntry (baseEntry pid p b w d ex) pt !! "videos"
               = Some (VArr l)) as [l Hl].
  { destruct pt as [pt|].
    - rewrite patched_videos_field.
      destruct (pt !! "videos") as [[]|]; eauto; rewrite Hv; destruct (videos ex); eauto.
    - simpl. rewrite Hv. destruct (videos ex); eauto. }
  exists l. split; [done|]. unfold entry_videos. by rewrite Hl.
Qed.

Lemma saved_entry now partialPatch st p b w d ex :
  lookupChain (baseData st) (periodId (sel st)) (blockId (sel st)) (sel_week (sel st))
              (sel_day (sel st)) (exerciseId (sel st)) = Some (p, b, w, d, ex) →
  selectedEntry (saveEntryPatch now partialPatch st)
  = Some (applyPatchToEntry (baseEntry (periodId (sel st)) p b w d ex)
            (Some (nextPatch (default ∅ (edits st !! selKey (sel st))) partialPatch now))).
Proof.
  intros Hres. rewrite selectedEntry_chain. unfold saveEntryPatch. simpl.
  rewrite Hres. simpl. by rewrite lookup_insert_eq.
Qed.

Lemma saved_untouched_field (e : gmap string jsval) prev partialPatch now f :
  f ≠ "updatedAt" → partialPatch !! f = None →
  applyPatchToEntry e (Some (nextPatch (default ∅ prev) partialPatch now)) !! f
  = applyPatchToEntry e prev !! f.
Proof.
  intros Hu Hp.
  assert (nextPatch (default ∅ prev) partialPatch now !! f = prev ≫= (.!! f)) as Hn.
  { rewrite nextPatch_lookup by done. rewrite Hp. destruct prev; simpl; [done|].
    by rewrite lookup_empty. }
  destruct (decide (f ∈ overlayable)) as [Hin|Hout];
    [|by rewrite !applyPatchToEntry_frame].
  unfold overlayable in Hin. rewrite !elem_of_cons in Hin.
  destruct Hin as [->|[->|[->|[->|[->|Hin]]]]]; [..|done|by apply elem_of_nil in Hin].
  - rewrite patched_string_field, Hn by (rewrite !elem_of_cons; auto).
    destruct prev as [pv|]; [|done].
    by rewrite patched_string_field by (rewrite !elem_of_cons; auto).
  - rewrite patched_videos_field, Hn.
    destruct prev as [pv|]; [|done]. by rewrite patched_videos_field.
  - rewrite patched_string_field, Hn by (rewrite !elem_of_cons; auto).
    destruct prev as [pv|]; [|done].
    by rewrite patched_string_field by (rewrite !elem_of_cons; auto).
  - rewrite patched_string_field, Hn by (rewrite !elem_of_cons; auto).
    destruct prev as [pv|]; [|done].
    by rewrite patched_string_field by (rewrite !elem_of_cons; auto).
Qed.

Lemma saved_videos_field (e : gmap string jsval) prev now l :
  applyPatchToEntry e (Some (nextPatch prev {["videos" := VArr l]} now)) !! "videos"
  = Some (VArr l).
Proof.
  rewrite patched_videos_field, nextPatch_lookup by done.
  by rewrite lookup_singleton_eq.
Qed.

Lemma saved_stamp_field (e : gmap string jsval) prev partialPatch now :
  applyPatchToEntry e (Some (nextPatch prev partialPatch now)) !! "updatedAt"
  = Some (VStr now).
Proof.
  rewrite patched_string_field by (rewrite !elem_of_cons; auto).
  unfold nextPatch. by rewrite lookup_insert_eq.
Qed.

Lemma appendVideo_spec now url st p b w d ex :
  lookupChain (baseData st) (periodId (sel st)) (blockId (sel st)) (sel_week (sel st))
              (sel_day (sel st)) (exerciseId (sel st)) = Some (p, b, w, d, ex) →
  ∃ old l new,
    selectedEntry st = Some old ∧ old !! "videos" = Some (VArr l)
    ∧ appendVideo now url st
      = Completed (saveEntryPatch now {["videos" := VArr (l ++ [VStr url])]} st)
    ∧ selectedEntry (saveEntryPatch now {["videos" := VArr (l ++ [VStr url])]} st)
      = Some new
    ∧ new !! "videos" = Some (VArr (l ++ [VStr url]))
    ∧ new !! "updatedAt" = Some (VStr now)
    ∧ ∀ f, f ≠ "videos" → f ≠ "updatedAt" → new !! f = old !! f.
Proof.
  intros Hres.
  destruct (entry_videos_array (periodId (sel st)) p b w d ex
              (edits st !! selKey (sel st))) as (l & Hl & Hev).
  eexists _, l, _. split.
  { rewrite selectedEntry_chain, Hres. simpl. done. }
  split; [done|]. split.
  { unfold appendVideo. rewrite selectedEntry_chain, Hres. simpl. by rewrite Hev. }
  split; [by apply saved_entry|].
  split; [apply saved_videos_field|]. split; [apply saved_stamp_field|].
  intros f Hv Hu. apply saved_untouched_field; [done|]. by rewrite lookup_singleton_ne.
Qed.

(** X11: when the selection resolves and the trimmed input is a non-empty url
    that starts with http:// or https:// in any letter case, btnAddVideo
    completes: the base document and the selection are as before, the patches
    under other keys are untouched, and the entry shown afterwards has the
    videos shown before followed by the trimmed url, [updatedAt] at the time
    of the click and every other field as before. *)
Theorem addVideo_appends (now input : string) (st : state)
    (p : period) (b : block) (w : week) (d : day) (ex : exercise)
    (Hres : lookupChain (baseData st) (periodId (sel st)) (blockId (sel st))
              (sel_week (sel st)) (sel_day (sel st)) (exerciseId (sel st))
            = Some (p, b, w, d, ex))
    (Hurl : trim input ≠ "")
    (Hhttp : is_http_url (trim input) = true) :
  ∃ old l st' new,
    selectedEntry st = Some old ∧ old !! "videos" = Some (VArr l)
    ∧ addVideo now input st = Completed st'
    ∧ baseData st' = baseData st ∧ sel st' = sel st
    ∧ (∀ k, k ≠ selKey (sel st) → edits st' !! k = edits st !! k)
    ∧ selectedEntry st' = Some new
    ∧ new !! "videos" = Some (VArr (l ++ [VStr (trim input)]))
    ∧ new !! "updatedAt" = Some (VStr now)
    ∧ ∀ f, f ≠ "videos" → f ≠ "updatedAt" → new !! f = old !! f.
Proof.
  destruct (appendVideo_spec now (trim input) st p b w d ex Hres)
    as (old & l & new & Ho & Hl & Ha & Hn & Hv & Hu & Hf).
  exists old, l, (saveEntryPatch now {["videos" := VArr (l ++ [VStr (trim input)])]} st),
    new.
  split_and!; try done.
  - unfold addVideo. cbv zeta. apply String.eqb_neq in Hurl. by rewrite Hurl, Hhttp.
  - intros k Hk. unfold saveEntryPatch. simpl. by rewrite lookup_insert_ne.
Qed.

Lemma addVideo_appends_witness :
  ∃ st', addVideo "2026-01-02T09:00:00.000Z" "  HTTPS://example.org/v1 " sampleState
         = Completed st'
    ∧ selectedEntry st' ≫= (.!! "videos") = Some (VArr [VStr "HTTPS://example.org/v1"]).
Proof.
  destruct (addVideo_appends "2026-01-02T09:00:00.000Z" "  HTTPS://example.org/v1 "
              sampleState _ _ _ _ _ eq_refl)
    as (old & l & st' & new & Ho & Hl & Ha & _ & _ & _ & Hn & Hv & _).
  - vm_compute. discriminate.
  - vm_compute. reflexivity.
  - exists st'. split; [done|]. rewrite Hn. simpl. rewrite Hv.
    assert (Some old ≫= (.!! "videos") = Some (VArr l)) as H by exact Hl.
    rewrite <- Ho in H. vm_compute in H. injection H as <-. done.
Defined.

Lemma get_put_exercise d eid e e1 :
  getExercise d eid = Some e → ex_id e1 = ex_id e →
  getExercise (put_exercise eid e1 d) eid = Some e1.
Proof.
  intros Hg E. unfold getExercise, put_exercise. simpl. eapply find_modify_first; [done|].
  apply find_true in Hg. unfold exercise_matches in *. by rewrite E.
Qed.

Lemma lookupChain_put doc pid bid wk dy eid p b w d ex ex1 :
  lookupChain doc pid bid wk dy eid = Some (p, b, w, d, ex) → ex_id ex1 = ex_id ex →
  lookupChain
    (put_period pid
       (put_block bid (put_week wk (put_day dy (put_exercise eid ex1 d) w) b) p) doc)
    pid bid wk dy eid
  = Some (put_block bid (put_week wk (put_day dy (put_exercise eid ex1 d) w) b) p,
          put_week wk (put_day dy (put_exercise eid ex1 d) w) b,
          put_day dy (put_exercise eid ex1 d) w,
          put_exercise eid ex1 d, ex1).
Proof.
  intros H E. apply lookupChain_Some in H as (Hp & Hb & Hw & Hd & He).
  apply lookupChain_Some. split_and!.
  - by apply (get_put_period doc pid p).
  - by apply (get_put_block p bid b).
  - by apply (get_put_week b wk w).
  - by apply (get_put_day w dy d).
  - by apply (get_put_exercise d eid ex).
Qed.

Lemma delete_last {A} (l : list A) x : delete (length l) (l ++ [x]) = l.
Proof. induction l as [|y r IH]; simpl; [done|]. by rewrite IH. Qed.

Lemma videos_shared_base pid p b w d ex pt l :
  videos_shared pt ex = true →
  applyPatchToEntry (baseEntry pid p b w d ex) pt !! "videos" = Some (VArr l) →
  videos ex = VArr l.
Proof.
  destruct (baseEntry_fields pid p b w d ex) as (_ & Hv & _).
  unfold videos_shared. destruct pt as [pt|].
  - rewrite patched_videos_field.
    change (Some pt ≫= (.!! "videos")) with (pt !! "videos").
    destruct (pt !! "videos") as [[]|]; try done; rewrite Hv;
      destruct (videos ex); try done; congruence.
  - simpl. rewrite Hv. destruct (videos ex); try done; congruence.
Qed.

Lemma removeVideo_spec now i st p b w d ex l :
  lookupChain (baseData st) (periodId (sel st)) (blockId (sel st)) (sel_week (sel st))
              (sel_day (sel st)) (exerciseId (sel st)) = Some (p, b, w, d, ex) →
  selectedEntry st ≫= (.!! "videos") = Some (VArr l) →
  i < length l →
  ∃ st', removeVideo now i st = Some st'
    ∧ sel st' = sel st
    ∧ (∀ k, k ≠ selKey (sel st) → edits st' !! k = edits st !! k)
    ∧ selectedEntry st' ≫= (.!! "videos") = Some (VArr (delete i l))
    ∧ (videos_shared (edits st !! selKey (sel st)) ex = false → baseData st' = baseData st)
    ∧ (videos_shared (edits st !! selKey (sel st)) ex = true →
       videos ex = VArr l
       ∧ selectedEntry (resetLocal st') ≫= (.!! "videos") = Some (VArr (delete i l))).
Proof.
  intros Hres Hold Hi.
  destruct (entry_videos_array (periodId (sel st)) p b w d ex
              (edits st !! selKey (sel st))) as (l0 & Hl0 & Hev).
  rewrite selectedEntry_chain, Hres in Hold. simpl in Hold. rewrite Hl0 in Hold.
  injection Hold as ->.
  unfold removeVideo. cbv zeta. rewrite Hres. simpl. rewrite Hev.
  apply Nat.ltb_lt in Hi. rewrite Hi. eexists. split; [done|].
  split; [done|]. split.
  { intros k Hk. unfold saveEntryPatch. simpl. by rewrite lookup_insert_ne. }
  destruct (videos_shared (edits st !! selKey (sel st)) ex) eqn:Hs.
  - pose proof (lookupChain_put _ _ _ _ _ _ _ _ _ _ _ (set_videos (VArr (delete i l)) ex)
                  Hres eq_refl) as Hput.
    split.
    { erewrite saved_entry by exact Hput. simpl. apply saved_videos_field. }
    split; [done|]. intros _. split.
    { by eapply videos_shared_base. }
    rewrite selectedEntry_chain. simpl. rewrite Hput. simpl.
    rewrite lookup_empty. simpl.
    by destruct (baseEntry_fields (periodId (sel st))
                   (put_block (blockId (sel st))
                      (put_week (sel_week (sel st))
                         (put_day (sel_day (sel st))
                            (put_exercise (exerciseId (sel st))
                               (set_videos (VArr (delete i l)) ex) d) w) b) p)
                   (put_week (sel_week (sel st))
                      (put_day (sel_day (sel st))
                         (put_exercise (exerciseId (sel st))
                            (set_videos (VArr (delete i l)) ex) d) w) b)
                   (put_day (sel_day (sel st))
                      (put_exercise (exerciseId (sel st))
                         (set_videos (VArr (delete i l)) ex) d) w)
                   (put_exercise (exerciseId (sel st))
                      (set_videos (VArr (delete i l)) ex) d)
                   (set_videos (VArr (delete i l)) ex)) as (_ & -> & _).
  - split.
    { erewrite saved_entry by exact Hres. simpl. apply saved_videos_field. }
    split; [done|]. done.
Qed.

(** X12: the Remove button of video [i] in the list drawn for a resolving
    selection stores the list without element [i] as the patch's videos, and
    that is what is shown afterwards; patches under other keys and the
    selection are untouched.  When the patch had an array of videos the base
    document is untouched.  When it had none and the list came from the base
    exercise, the splice is done on the base exercise's own array: the base
    document loses the element too, so it stays removed after the overlay is
    cleared by btnResetLocal. *)
Theorem removeVideo_splices (now : string) (i : nat) (st : state)
    (p : period) (b : block) (w : week) (d : day) (ex : exercise) (l : list jsval)
    (Hres : lookupChain (baseData st) (periodId (sel st)) (blockId (sel st))
              (sel_week (sel st)) (sel_day (sel st)) (exerciseId (sel st))
            = Some (p, b, w, d, ex))
    (Hold : selectedEntry st ≫= (.!! "videos") = Some (VArr l))
    (Hi : i < length l) :
  ∃ st', removeVideo now i st = Some st'
    ∧ sel st' = sel st
    ∧ (∀ k, k ≠ selKey (sel st) → edits st' !! k = edits st !! k)
    ∧ selectedEntry st' ≫= (.!! "videos") = Some (VArr (delete i l))
    ∧ (videos_shared (edits st !! selKey (sel st)) ex = false → baseData st' = baseData st)
    ∧ (videos_shared (edits st !! selKey (sel st)) ex = true →
       videos ex = VArr l
       ∧ selectedEntry (resetLocal st') ≫= (.!! "videos") = Some (VArr (delete i l))).
Proof. exact (removeVideo_spec now i st p b w d ex l Hres Hold Hi). Qed.

Lemma removeVideo_splices_witness :
  ∃ st', removeVideo "2026-01-03T09:00:00.000Z" 0
           (State (Document
                     [Period "p" "P"
                        [Block (Int 1)
                           [Week (Int 1)
                              [Day (Int 1) "Day 1"
                                 [Exercise "squat" "Squat" (VStr "5x5")
                                    (VArr [VStr "http://a"; VStr "http://b"])
                                    VUndef VUndef VUndef]]]]])
                  ∅
                  (Selection (LStr "p") (LStr "1") (LStr "1") (LStr "1") (LStr "squat")))
         = Some st'
    ∧ selectedEntry st' ≫= (.!! "videos") = Some (VArr [VStr "http://b"])
    ∧ selectedEntry (resetLocal st') ≫= (.!! "videos") = Some (VArr [VStr "http://b"]).
Proof.
  destruct (removeVideo_splices "2026-01-03T09:00:00.000Z" 0
              (State (Document
                        [Period "p" "P"
                           [Block (Int 1)
                              [Week (Int 1)
                                 [Day (Int 1) "Day 1"
                                    [Exercise "squat" "Squat" (VStr "5x5")
                                       (VArr [VStr "http://a"; VStr "http://b"])
                                       VUndef VUndef VUndef]]]]])
                     ∅
                     (Selection (LStr "p") (LStr "1") (LStr "1") (LStr "1")
                                (LStr "squat")))
              _ _ _ _ _ [VStr "http://a"; VStr "http://b"] eq_refl)
    as (st' & H1 & _ & _ & H2 & _ & H3).
  - vm_compute. reflexivity.
  - simpl. lia.
  - exists st'. split; [done|]. split; [done|]. apply H3. vm_compute. reflexivity.
Defined.

(** X13: adding a video and then removing the last video of the list gives
    back the list that was shown before, and leaves the base document as it
    was: after an addition the patch has its own array, so the removal does
    not reach the base exercise. *)
Theorem add_then_remove_video (now now' input : string) (st : state)
    (p : period) (b : block) (w : week) (d : day) (ex : exercise)
    (Hres : lookupChain (baseData st) (periodId (sel st)) (blockId (sel st))
              (sel_week (sel st)) (sel_day (sel st)) (exerciseId (sel st))
            = Some (p, b, w, d, ex))
    (Hurl : trim input ≠ "")
    (Hhttp : is_http_url (trim input) = true) :
  ∃ l st1 st2,
    selectedEntry st ≫= (.!! "videos") = Some (VArr l)
    ∧ addVideo now input st = Completed st1
    ∧ removeVideo now' (length l) st1 = Some st2
    ∧ selectedEntry st2 ≫= (.!! "videos") = Some (VArr l)
    ∧ baseData st2 = baseData st.
Proof.
  destruct (appendVideo_spec now (trim input) st p b w d ex Hres)
    as (old & l & new & Ho & Hl & Ha & Hn & Hv & _).
  set (st1 := saveEntryPatch now {["videos" := VArr (l ++ [VStr (trim input)])]} st) in *.
  assert (lookupChain (baseData st1) (periodId (sel st1)) (blockId (sel st1))
            (sel_week (sel st1)) (sel_day (sel st1)) (exerciseId (sel st1))
          = Some (p, b, w, d, ex)) as Hres1 by exact Hres.
  assert (length l < length (l ++ [VStr (trim input)])) as Hlt.
  { rewrite length_app. simpl. lia. }
  assert (selectedEntry st1 ≫= (.!! "videos") = Some (VArr (l ++ [VStr (trim input)])))
    as Hold1 by (by rewrite Hn).
  destruct (removeVideo_spec now' (length l) st1 p b w d ex _ Hres1 Hold1 Hlt)
    as (st2 & Hr & _ & _ & Hshown & Hbase & _).
  exists l, st1, st2. split_and!.
  - by rewrite Ho.
  - unfold addVideo. cbv zeta. apply String.eqb_neq in Hurl. by rewrite Hurl, Hhttp.
  - done.
  - by rewrite delete_last in Hshown.
  - rewrite Hbase; [done|]. unfold videos_shared, st1, saveEntryPatch. simpl.
    rewrite lookup_insert_eq. simpl. rewrite nextPatch_lookup by done.
    by rewrite lookup_singleton_eq.
Qed.

Lemma add_then_remove_video_witness :
  ∃ st1 st2,
    addVideo "2026-01-02T09:00:00.000Z" "http://example.org/v1" sampleState
    = Completed st1
    ∧ removeVideo "2026-01-02T09:01:00.000Z" 0 st1 = Some st2
    ∧ selectedEntry st2 ≫= (.!! "videos") = Some (VArr [])
    ∧ baseData st2 = sampleDoc.
Proof.
  destruct (add_then_remove_video "2026-01-02T09:00:00.000Z" "2026-01-02T09:01:00.000Z"
              "http://example.org/v1" sampleState _ _ _ _ _ eq_refl)
    as (l & st1 & st2 & Hl & Ha & Hr & Hs & Hb).
  - vm_compute. discriminate.
  - vm_compute. reflexivity.
  - vm_compute in Hl. injection Hl as <-. by exists st1, st2.
Defined.

(** X14: btnAddLocalMedia saves nothing unless a file is chosen whose type
    starts with video/ or image/, whose size is at most 8 MiB and whose read
    succeeds; then, for a resolving selection, it completes and the entry
    shown afterwards has the videos shown before followed by the data url,
    untrimmed and with no test of its scheme; the base document and the
    selection are as before. *)
Theorem addLocalMedia_appends (now : string) (f : option file) (st : state)
    (p : period) (b : block) (w : week) (d : day) (ex : exercise)
    (Hres : lookupChain (baseData st) (periodId (sel st)) (blockId (sel st))
              (sel_week (sel st)) (sel_day (sel st)) (exerciseId (sel st))
            = Some (p, b, w, d, ex)) :
  (completed (addLocalMedia now f st) = true ↔
   ∃ fl url, f = Some fl
     ∧ String.prefix "video/" (file_type fl) || String.prefix "image/" (file_type fl) = true
     ∧ (file_size fl ≤ 8388608)%Z ∧ file_data fl = Some url)
  ∧ (completed (addLocalMedia now f st) = false →
     state_after st (addLocalMedia now f st) = st)
  ∧ ∀ fl url st',
      f = Some fl → file_data fl = Some url →
      addLocalMedia now f st = Completed st' →
      ∃ l, selectedEntry st ≫= (.!! "videos") = Some (VArr l)
        ∧ selectedEntry st' ≫= (.!! "videos") = Some (VArr (l ++ [VStr url]))
        ∧ baseData st' = baseData st ∧ sel st' = sel st.
Proof.
  destruct f as [fl|]; simpl.
  2:{ split; [|split]; [|done|done]. split; [done|]. by intros (? & ? & ? & _). }
  destruct (String.prefix "video/" (file_type fl)
            || String.prefix "image/" (file_type fl)) eqn:Ht.
  2:{ assert (negb (String.prefix "video/" (file_type fl))
              && negb (String.prefix "image/" (file_type fl)) = true) as ->.
      { by destruct (String.prefix "video/" (file_type fl)),
                   (String.prefix "image/" (file_type fl)). }
      simpl. split; [|split]; [|done|done]. split; [done|].
      intros (fl' & url & [= <-] & Hp & _). by rewrite Ht in Hp. }
  assert (negb (String.prefix "video/" (file_type fl))
          && negb (String.prefix "image/" (file_type fl)) = false) as ->.
  { by destruct (String.prefix "video/" (file_type fl)),
               (String.prefix "image/" (file_type fl)). }
  change (8 * 1024 * 1024)%Z with 8388608%Z.
  destruct (8388608 <? file_size fl)%Z eqn:Hs.
  { apply Z.ltb_lt in Hs. simpl.
    split; [|split]; [|done|done]. split; [done|].
    intros (fl' & url & [= <-] & _ & Hle & _). lia. }
  apply Z.ltb_ge in Hs.
  destruct (file_data fl) as [url|] eqn:Hd.
  2:{ simpl. split; [|split]; [|done|done]. split; [done|].
      intros (fl' & url & [= <-] & _ & _ & ?). congruence. }
  destruct (appendVideo_spec now url st p b w d ex Hres)
    as (old & l & new & Ho & Hl & Ha & Hn & Hv & _).
  rewrite Ha. simpl. split; [|split]; [|done|].
  - split; [|done]. intros _. by exists fl, url.
  - intros fl' url' st' [= <-] Hd' [= <-]. rewrite Hd in Hd'. injection Hd' as <-.
    exists l.
    rewrite Ho, Hn. simpl. done.
Qed.

Lemma addLocalMedia_appends_witness :
  completed (addLocalMedia "2026-01-02T09:00:00.000Z"
               (Some (File "image/png" 2048 (Some "data:image/png;base64,AAAA")))
               sampleState) = true.
Proof.
  destruct (addLocalMedia_appends "2026-01-02T09:00:00.000Z"
              (Some (File "image/png" 2048 (Some "data:image/png;base64,AAAA")))
              sampleState _ _ _ _ _ eq_refl) as [H _].
  apply H. eexists _, _. split; [reflexivity|]. split; [reflexivity|].
  split; [|reflexivity]. simpl. lia.
Defined.

(** X15: for a resolving selection, btnSave shows afterwards the two comment
    fields as typed, even when empty, and the accepted prompt of the work box
    shows the text entered; either sets [updatedAt] to the time of the click
    and leaves every other field of the entry as it was shown.  A cancelled
    prompt changes nothing. *)
Theorem view_edits_shown (now lifter coach : string) (answer : option string)
    (st : state) (p : period) (b : block) (w : week) (d : day) (ex : exercise)
    (Hres : lookupChain (baseData st) (periodId (sel st)) (blockId (sel st))
              (sel_week (sel st)) (sel_day (sel st)) (exerciseId (sel st))
            = Some (p, b, w, d, ex)) :
  ∃ old,
    selectedEntry st = Some old
    ∧ (∃ new, selectedEntry (saveComments now lifter coach st) = Some new
         ∧ new !! "lifterComment" = Some (VStr lifter)
         ∧ new !! "coachComment" = Some (VStr coach)
         ∧ new !! "updatedAt" = Some (VStr now)
         ∧ ∀ f, f ∉ ["lifterComment"; "coachComment"; "updatedAt"] → new !! f = old !! f)
    ∧ match answer with
      | None => state_after st (editWork now None st) = st
      | Some next =>
          ∃ st' new, editWork now (Some next) st = Completed st'
            ∧ selectedEntry st' = Some new
            ∧ new !! "work" = Some (VStr next)
            ∧ new !! "updatedAt" = Some (VStr now)
            ∧ ∀ f, f ∉ ["work"; "updatedAt"] → new !! f = old !! f
      end.
Proof.
  eexists. split; [by rewrite selectedEntry_chain, Hres|]. split.
  - eexists. split; [by apply saved_entry|]. split_and!.
    + rewrite patched_string_field by (rewrite !elem_of_cons; auto).
      rewrite nextPatch_lookup by done. by rewrite lookup_insert_eq.
    + rewrite patched_string_field by (rewrite !elem_of_cons; auto).
      rewrite nextPatch_lookup by done.
      rewrite lookup_insert_ne by done. by rewrite lookup_singleton_eq.
    + apply saved_stamp_field.
    + intros f Hf. rewrite !not_elem_of_cons in Hf. destruct Hf as (? & ? & ? & _).
      apply saved_untouched_field; [done|].
      rewrite lookup_insert_ne by done. by rewrite lookup_singleton_ne.
  - destruct answer as [next|].
    + unfold editWork. rewrite selectedEntry_chain, Hres. simpl.
      eexists _, _. split; [done|]. split; [by apply saved_entry|]. split_and!.
      * rewrite patched_string_field by (rewrite !elem_of_cons; auto).
        rewrite nextPatch_lookup by done. by rewrite lookup_singleton_eq.
      * apply saved_stamp_field.
      * intros f Hf. rewrite !not_elem_of_cons in Hf. destruct Hf as (? & ? & _).
        apply saved_untouched_field; [done|]. by rewrite lookup_singleton_ne.
    + unfold editWork. by rewrite selectedEntry_chain, Hres.
Qed.

Lemma view_edits_shown_witness :
  ∃ new, selectedEntry (saveComments "2026-01-02T09:00:00.000Z" "felt heavy" ""
                          sampleState) = Some new
    ∧ new !! "lifterComment" = Some (VStr "felt heavy")
    ∧ new !! "coachComment" = Some (VStr "").
Proof.
  destruct (view_edits_shown "2026-01-02T09:00:00.000Z" "felt heavy" "" None
              sampleState _ _ _ _ _ eq_refl)
    as (old & _ & (new & Hn & Hl & Hc & _) & _).
  by exists new.
Defined.

(** ** The defaults of renderNav *)

Lemma default_stable (v fb : lval) :
  (falsy fb = true → fb = LNull) →
  let r := if falsy v then fb else v in
  (if falsy r then fb else r) = r.
Proof.
  intros Hfb. cbv zeta. destruct (falsy v) eqn:Hv.
  - by destruct (falsy fb).
  - by rewrite Hv.
Qed.

Lemma str_or_null_falsy s : falsy (str_or_null s) = true → str_or_null s = LNull.
Proof. unfold str_or_null. destruct (String.eqb_spec s ""); [done|]. by destruct s. Qed.

Lemma num_or_null_falsy n : falsy (num_or_null n) = true → num_or_null n = LNull.
Proof.
  unfold num_or_null. destruct (jsnum_falsy (Fin n)) eqn:E; [done|].
  unfold falsy. simpl in *. rewrite E. done.
Qed.

Lemma renderNav_idempotent doc s : renderNav doc (renderNav doc s) = renderNav doc s.
Proof.
  unfold renderNav.
  set (fp := match periods doc with p0 :: _ => str_or_null (period_id p0) | [] => LNull end).
  assert (falsy fp = true → fp = LNull) as Hfp.
  { unfold fp. destruct (periods doc); [done|]. apply str_or_null_falsy. }
  pose proof (default_stable (periodId s) fp Hfp) as Hp. cbv zeta in Hp.
  set (pid := if falsy (periodId s) then fp else periodId s) in *.
  destruct (getPeriod doc pid) as [p|] eqn:Ep.
  2:{ simpl. rewrite Hp, Ep. done. }
  set (fb := match blocks p with b0 :: _ => num_or_null (block_id b0) | [] => LNull end).
  assert (falsy fb = true → fb = LNull) as Hfb.
  { unfold fb. destruct (blocks p); [done|]. apply num_or_null_falsy. }
  pose proof (default_stable (blockId s) fb Hfb) as Hb. cbv zeta in Hb.
  set (bid := if falsy (blockId s) then fb else blockId s) in *.
  destruct (getBlock p bid) as [b|] eqn:Eb.
  2:{ simpl. rewrite Hp, Ep. fold fb. rewrite Hb, Eb. done. }
  set (fw := match weeks b with w0 :: _ => num_or_null (week_num w0) | [] => LNull end).
  assert (falsy fw = true → fw = LNull) as Hfw.
  { unfold fw. destruct (weeks b); [done|]. apply num_or_null_falsy. }
  pose proof (default_stable (sel_week s) fw Hfw) as Hw. cbv zeta in Hw.
  set (wk := if falsy (sel_week s) then fw else sel_week s) in *.
  destruct (getWeek b wk) as [w|] eqn:Ew.
  2:{ simpl. rewrite Hp, Ep. fold fb. rewrite Hb, Eb. fold fw. rewrite Hw, Ew. done. }
  set (fd := match days w with d0 :: _ => num_or_null (day_num d0) | [] => LNull end).
  assert (falsy fd = true → fd = LNull) as Hfd.
  { unfold fd. destruct (days w); [done|]. apply num_or_null_falsy. }
  pose proof (default_stable (sel_day s) fd Hfd) as Hd. cbv zeta in Hd.
  set (dy := if falsy (sel_day s) then fd else sel_day s) in *.
  destruct (getDay w dy) as [d|] eqn:Ed.
  2:{ simpl. rewrite Hp, Ep. fold fb. rewrite Hb, Eb. fold fw. rewrite Hw, Ew.
      fold fd. rewrite Hd, Ed. done. }
  set (fe := match exercises d with e0 :: _ => str_or_null (ex_id e0) | [] => LNull end).
  assert (falsy fe = true → fe = LNull) as Hfe.
  { unfold fe. destruct (exercises d); [done|]. apply str_or_null_falsy. }
  pose proof (default_stable (exerciseId s) fe Hfe) as He. cbv zeta in He.
  simpl. rewrite Hp, Ep. fold fb. rewrite Hb, Eb. fold fw. rewrite Hw, Ew.
  fold fd. rewrite Hd, Ed. fold fe. by rewrite He.
Qed.

Lemma renderNav_truthy doc s :
  falsy (periodId s) = false → falsy (blockId s) = false →
  falsy (sel_week s) = false → falsy (sel_day s) = false →
  falsy (exerciseId s) = false → renderNav doc s = s.
Proof.
  destruct s as [pid bid wk dy eid]. simpl. intros Hp Hb Hw Hd He.
  unfold renderNav. simpl. rewrite Hp, Hb, Hw, Hd, He.
  by repeat case_match.
Qed.

(** X16: [renderNav] is idempotent on the selection, and it never moves a
    component that is truthy: only falsy components are given the identifier
    of a first option. *)
Theorem renderNav_defaults (doc : document) (s : selection) :
  renderNav doc (renderNav doc s) = renderNav doc s
  ∧ (falsy (periodId s) = false → periodId (renderNav doc s) = periodId s)
  ∧ (falsy (blockId s) = false → blockId (renderNav doc s) = blockId s)
  ∧ (falsy (sel_week s) = false → sel_week (renderNav doc s) = sel_week s)
  ∧ (falsy (sel_day s) = false → sel_day (renderNav doc s) = sel_day s)
  ∧ (falsy (exerciseId s) = false → exerciseId (renderNav doc s) = exerciseId s).
Proof.
  split; [apply renderNav_idempotent|].
  destruct s as [pid bid wk dy eid]. simpl.
  split_and!; intros H; unfold renderNav; simpl; rewrite ?H;
    repeat case_match; simpl; done.
Qed.

Lemma renderNav_defaults_witness :
  renderNav sampleDoc (Selection (LStr "serie-1-2026") LNull LNull LNull LNull)
  = Selection (LStr "serie-1-2026") (LNum (Fin (Int 1))) (LNum (Fin (Int 1)))
              (LNum (Fin (Int 1))) (LStr "squat")
  ∧ periodId (renderNav sampleDoc (Selection (LStr "serie-1-2026") LNull LNull LNull LNull))
    = LStr "serie-1-2026".
Proof.
  split; [vm_compute; reflexivity|].
  apply (renderNav_defaults sampleDoc
           (Selection (LStr "serie-1-2026") LNull LNull LNull LNull)).
  reflexivity.
Defined.

Lemma num_or_null_truthy n : jsnum_falsy (Fin n) = false → num_or_null n = LNum (Fin n).
Proof. unfold num_or_null. by intros ->. Qed.

Lemma str_or_null_truthy s : s ≠ "" → str_or_null s = LStr s.
Proof. unfold str_or_null. by destruct (String.eqb_spec s ""). Qed.

Lemma falsy_num n : falsy (LNum (Fin n)) = jsnum_falsy (Fin n).
Proof. unfold falsy. simpl. by destruct (mant n =? 0)%Z. Qed.

Lemma falsy_str s : s ≠ "" → falsy (LStr s) = false.
Proof. by destruct s. Qed.

Lemma head_cons {A} (l : list A) x : head l = Some x → ∃ r, l = x :: r.
Proof. destruct l; simpl; [done|]. intros [= ->]. eauto. Qed.

(** The part of [renderNav] below the week, for a week that is found. *)
Lemma renderNav_below_week doc s p b w d e :
  falsy (periodId s) = false → falsy (blockId s) = false → falsy (sel_week s) = false →
  sel_day s = LNull → exerciseId s = LNull →
  getPeriod doc (periodId s) = Some p → getBlock p (blockId s) = Some b →
  getWeek b (sel_week s) = Some w →
  head (days w) = Some d → jsnum_falsy (Fin (day_num d)) = false →
  head (exercises d) = Some e → ex_id e ≠ "" →
  renderNav doc s = Selection (periodId s) (blockId s) (sel_week s)
                              (LNum (Fin (day_num d))) (LStr (ex_id e))
  ∧ lookupChain doc (periodId s) (blockId s) (sel_week s) (LNum (Fin (day_num d)))
                (LStr (ex_id e)) = Some (p, b, w, d, e).
Proof.
  intros Hp Hb Hw Hd He Gp Gb Gw Hhd Hdn Hhe Hen.
  assert (getDay w (LNum (Fin (day_num d))) = Some d) as Gd.
  { apply find_head; [done|]. apply num_eqb_refl. }
  assert (getExercise d (LStr (ex_id e)) = Some e) as Ge.
  { apply find_head; [done|]. unfold exercise_matches. simpl. apply String.eqb_refl. }
  split; [|by apply lookupChain_Some].
  apply head_cons in Hhd as [rd Hrd]. apply head_cons in Hhe as [re Hre].
  unfold renderNav. rewrite Hp, Gp, Hb, Gb, Hw, Gw, Hd, He. simpl.
  rewrite Hrd, (num_or_null_truthy _ Hdn), Gd, Hre, (str_or_null_truthy _ Hen). done.
Qed.

(** X17: choosing a period in the period select.  When the chosen value is
    the non-empty identifier of a period and the first block, week, day and
    exercise below the first period with that identifier exist and have
    truthy identifiers, the selection becomes that period with those first
    children, and it resolves to them; the document and the overlay are not
    touched. *)
Theorem selectPeriod_first_children (v : string) (st : state)
    (p : period) (b : block) (w : week) (d : day) (e : exercise)
    (Hv : v ≠ "")
    (Hp : getPeriod (baseData st) (LStr v) = Some p)
    (Hb : head (blocks p) = Some b) (Hbn : jsnum_falsy (Fin (block_id b)) = false)
    (Hw : head (weeks b) = Some w) (Hwn : jsnum_falsy (Fin (week_num w)) = false)
    (Hd : head (days w) = Some d) (Hdn : jsnum_falsy (Fin (day_num d)) = false)
    (He : head (exercises d) = Some e) (Hen : ex_id e ≠ "") :
  let st' := selectPeriod v st in
  baseData st' = baseData st ∧ edits st' = edits st
  ∧ sel st' = Selection (LStr v) (LNum (Fin (block_id b))) (LNum (Fin (week_num w)))
                        (LNum (Fin (day_num d))) (LStr (ex_id e))
  ∧ lookupChain (baseData st') (periodId (sel st')) (blockId (sel st'))
                (sel_week (sel st')) (sel_day (sel st')) (exerciseId (sel st'))
    = Some (p, b, w, d, e).
Proof.
  cbv zeta. unfold selectPeriod. simpl. split; [done|]. split; [done|].
  assert (getBlock p (LNum (Fin (block_id b))) = Some b) as Gb.
  { apply find_head; [done|]. apply block_matches_self. }
  assert (getWeek b (LNum (Fin (week_num w))) = Some w) as Gw.
  { apply find_head; [done|]. apply num_eqb_refl. }
  assert (getDay w (LNum (Fin (day_num d))) = Some d) as Gd.
  { apply find_head; [done|]. apply num_eqb_refl. }
  assert (getExercise d (LStr (ex_id e)) = Some e) as Ge.
  { apply find_head; [done|]. unfold exercise_matches. simpl. apply String.eqb_refl. }
  assert (renderNav (baseData st) (Selection (LStr v) LNull LNull LNull LNull)
          = Selection (LStr v) (LNum (Fin (block_id b))) (LNum (Fin (week_num w)))
                      (LNum (Fin (day_num d))) (LStr (ex_id e))) as ->.
  { apply head_cons in Hb as [rb Hrb]. apply head_cons in Hw as [rw Hrw].
    apply head_cons in Hd as [rd Hrd]. apply head_cons in He as [re Hre].
    unfold renderNav. simpl. rewrite (falsy_str v Hv), Hp.
    rewrite Hrb, (num_or_null_truthy _ Hbn), Gb.
    rewrite Hrw, (num_or_null_truthy _ Hwn), Gw.
    rewrite Hrd, (num_or_null_truthy _ Hdn), Gd.
    rewrite Hre, (str_or_null_truthy _ Hen). done. }
  split; [done|]. simpl. by apply lookupChain_Some.
Qed.

Lemma selectPeriod_first_children_witness :
  sel (selectPeriod "serie-1-2026" sampleState)
  = Selection (LStr "serie-1-2026") (LNum (Fin (Int 1))) (LNum (Fin (Int 1)))
              (LNum (Fin (Int 1))) (LStr "squat").
Proof.
  apply (selectPeriod_first_children "serie-1-2026" sampleState
           (Period "serie-1-2026" "Serie 1 2026"
              [Block (Int 1)
                 [Week (Int 1) [Day (Int 1) "Day 1" [squat]; Day (Int 2) "Day 2" []]]])
           (Block (Int 1)
              [Week (Int 1) [Day (Int 1) "Day 1" [squat]; Day (Int 2) "Day 2" []]])
           (Week (Int 1) [Day (Int 1) "Day 1" [squat]; Day (Int 2) "Day 2" []])
           (Day (Int 1) "Day 1" [squat]) squat); done.
Defined.

(** X18: choosing a week in the week select.  The value of an option is the
    decimal text of the week number; [Number] reads it back, so for a
    selection whose period and block are truthy and found, choosing the
    option of a week numbered [z ≠ 0] selects the first week with that
    number, then its first day and that day's first exercise when these
    exist with truthy identifiers. *)
Theorem selectWeek_reads_option (z : Z) (st : state)
    (p : period) (b : block) (w : week) (d : day) (e : exercise)
    (Hz : z ≠ 0%Z)
    (Hpt : falsy (periodId (sel st)) = false) (Hbt : falsy (blockId (sel st)) = false)
    (Hp : getPeriod (baseData st) (periodId (sel st)) = Some p)
    (Hb : getBlock p (blockId (sel st)) = Some b)
    (Hw : getWeek b (LNum (Fin (Int z))) = Some w)
    (Hd : head (days w) = Some d) (Hdn : jsnum_falsy (Fin (day_num d)) = false)
    (He : head (exercises d) = Some e) (Hen : ex_id e ≠ "") :
  let st' := selectWeek (decimal z) st in
  sel st' = Selection (periodId (sel st)) (blockId (sel st)) (LNum (Fin (Int z)))
                      (LNum (Fin (day_num d))) (LStr (ex_id e))
  ∧ lookupChain (baseData st') (periodId (sel st')) (blockId (sel st'))
                (sel_week (sel st')) (sel_day (sel st')) (exerciseId (sel st'))
    = Some (p, b, w, d, e).
Proof.
  cbv zeta. unfold selectWeek. simpl. rewrite stringToNumber_decimal.
  assert (falsy (LNum (Fin (Int z))) = false) as Hwt.
  { rewrite falsy_num. simpl. by apply Z.eqb_neq. }
  destruct (renderNav_below_week (baseData st)
              (Selection (periodId (sel st)) (blockId (sel st)) (LNum (Fin (Int z)))
                         LNull LNull) p b w d e) as [-> Hc]; try done.
Qed.

Lemma selectWeek_reads_option_witness :
  sel (selectWeek "1" sampleState)
  = Selection (LStr "serie-1-2026") (LStr "1") (LNum (Fin (Int 1)))
              (LNum (Fin (Int 1))) (LStr "squat").
Proof.
  apply (selectWeek_reads_option 1 sampleState
           (Period "serie-1-2026" "Serie 1 2026"
              [Block (Int 1)
                 [Week (Int 1) [Day (Int 1) "Day 1" [squat]; Day (Int 2) "Day 2" []]]])
           (Block (Int 1)
              [Week (Int 1) [Day (Int 1) "Day 1" [squat]; Day (Int 2) "Day 2" []]])
           (Week (Int 1) [Day (Int 1) "Day 1" [squat]; Day (Int 2) "Day 2" []])
           (Day (Int 1) "Day 1" [squat]) squat); done.
Defined.

(** X19: opening the link [makeHash] gives for a locator.  When the period
    and exercise ids are not empty, hold no slash and consist of characters
    the fragment of an address keeps as they are, and the week and day are
    not zero, [initFromHash] on what [location.hash] then reads sets the
    selection to the locator, the block as its decimal text, whatever the
    document holds, and the entry of that selection is what [getPatchedEntry]
    gives for the locator itself, patch included ([null] when the locator
    does not resolve). *)
Theorem link_round_trip (pid eid : string) (b w d : Z) (st : state)
    (Hp : pid ≠ EmptyString) (Hps : has_char "/" pid = false)
    (Hpk : string_forallb fragment_keeps pid = true)
    (He : eid ≠ EmptyString) (Hes : has_char "/" eid = false)
    (Hek : string_forallb fragment_keeps eid = true)
    (Hw : w ≠ 0%Z) (Hd : d ≠ 0%Z) :
  let st' := initFromHash
               (locationHash (makeHash (LStr pid) (LNum (Fin (Int b)))
                                (LNum (Fin (Int w))) (LNum (Fin (Int d))) (LStr eid)))
               st in
  baseData st' = baseData st ∧ edits st' = edits st
  ∧ sel st' = Selection (LStr pid) (LStr (decimal b)) (LNum (Fin (Int w)))
                        (LNum (Fin (Int d))) (LStr eid)
  ∧ selectedEntry st'
    = getPatchedEntry (baseData st) (edits st) (LStr pid) (LNum (Fin (Int b)))
                      (LNum (Fin (Int w))) (LNum (Fin (Int d))) (LStr eid).
Proof.
  cbv zeta. unfold initFromHash.
  rewrite locationHash_makeHash by done. rewrite parseHash_makeHash by done. simpl.
  rewrite renderNav_truthy; simpl.
  - done.
  - by apply falsy_str.
  - apply falsy_str, decimal_nonempty.
  - rewrite falsy_num. simpl. by apply Z.eqb_neq.
  - rewrite falsy_num. simpl. by apply Z.eqb_neq.
  - by apply falsy_str.
Qed.

Lemma link_round_trip_witness :
  sel (initFromHash (locationHash "#/p/serie-1-2026/b/1/w/1/d/1/e/squat") sampleState)
  = Selection (LStr "serie-1-2026") (LStr "1") (LNum (Fin (Int 1)))
              (LNum (Fin (Int 1))) (LStr "squat").
Proof.
  apply (link_round_trip "serie-1-2026" "squat" 1 1 1 sampleState); done.
Defined.

(** ** Removing an exercise *)

Lemma modify_first_twice {A} (P : A → bool) l c1 c2 :
  P c1 = true →
  modify_first P (fun _ => c2) (modify_first P (fun _ => c1) l)
  = modify_first P (fun _ => c2) l.
Proof.
  intros H1. induction l as [|x r IH]; simpl; [done|].
  destruct (P x) eqn:Px; simpl; [by rewrite H1|]. by rewrite Px, IH.
Qed.

Lemma ensureDay_found w dy eid d d' e2 :
  falsy dy = false → getDay w dy = Some d → ensureExercise d eid = Some (d', e2) →
  ensureDay w dy eid = Some (put_day dy d' w, dy, e2).
Proof.
  intros Hf Hg He. unfold ensureDay, getDay in *. simpl.
  rewrite (push_if_empty_found _ _ _ _ Hg), Hf, Hg. simpl. rewrite Hg. simpl.
  by rewrite He.
Qed.

Lemma ensureWeek_found b wk dy eid w w' dy2 e2 :
  falsy wk = false → getWeek b wk = Some w → ensureDay w dy eid = Some (w', dy2, e2) →
  ensureWeek b wk dy eid = Some (put_week wk w' b, wk, dy2, e2).
Proof.
  intros Hf Hg He. unfold ensureWeek, getWeek in *. simpl.
  rewrite (push_if_empty_found _ _ _ _ Hg), Hf, Hg. simpl. rewrite Hg. simpl.
  by rewrite He.
Qed.

Lemma ensureBlock_found p bid wk dy eid b b' wk2 dy2 e2 :
  falsy bid = false → getBlock p bid = Some b →
  ensureWeek b wk dy eid = Some (b', wk2, dy2, e2) →
  ensureBlock p bid wk dy eid = Some (put_block bid b' p, bid, wk2, dy2, e2).
Proof.
  intros Hf Hg He. unfold ensureBlock, getBlock in *. simpl.
  rewrite (push_if_empty_found _ _ _ _ Hg), Hf, Hg. simpl. rewrite Hg. simpl.
  by rewrite He.
Qed.

Lemma ensureSelection_found doc s p p' bid wk dy eid :
  falsy (periodId s) = false → getPeriod doc (periodId s) = Some p →
  ensureBlock p (blockId s) (sel_week s) (sel_day s) (exerciseId s)
  = Some (p', bid, wk, dy, eid) →
  ensureSelection doc s
  = Some (put_period (periodId s) p' doc, Selection (periodId s) bid wk dy eid).
Proof.
  intros Hf Hg He. unfold ensureSelection, getPeriod in *. simpl.
  rewrite (push_if_empty_found _ _ _ _ Hg), Hf, Hg. simpl. rewrite Hg. simpl.
  by rewrite He.
Qed.

Lemma remove_first_found {A} (P : A → bool) l x :
  find P l = Some x → ∃ l', remove_first P l = Some l'.
Proof.
  induction l as [|y r IH]; simpl; [done|].
  destruct (P y); [eauto|]. intros H. destruct (IH H) as [l' ->]. simpl. eauto.
Qed.

(** The list [findIndex] and [splice(idx, 1)] leave: the elements before the
    first match, none of which matches, then those after it. *)
Lemma remove_first_split {A} (P : A → bool) l l' :
  remove_first P l = Some l' →
  ∃ l1 x l2, l = l1 ++ x :: l2 ∧ l' = l1 ++ l2 ∧ P x = true
             ∧ Forall (fun y => P y = false) l1.
Proof.
  revert l'. induction l as [|y r IH]; simpl; [done|]. intros l'.
  destruct (P y) eqn:Py.
  - intros [= <-]. by exists [], y, r.
  - destruct (remove_first P r) as [r'|]; simpl; [|done]. intros [= <-].
    destruct (IH r' eq_refl) as (l1 & x & l2 & -> & -> & Hx & Hl1).
    exists (y :: l1), x, l2. split_and!; try done. by constructor.
Qed.

(** X20: btnRemoveExercise on a selection that resolves and whose period,
    block, week and day are truthy.  The first exercise of the day whose id
    equals the selected one is taken out, the others keep their order, and
    the patch under the selected key is deleted.  A day left empty receives
    the placeholder exercise.  When the exercise then first in the day has a
    non-empty id, the handler completes with the selection on that exercise
    and nothing else changed in the document. *)
Theorem removeExercise_moves_to_first (st : state)
    (p : period) (b : block) (w : week) (d : day) (ex : exercise)
    (Hpt : falsy (periodId (sel st)) = false) (Hbt : falsy (blockId (sel st)) = false)
    (Hwt : falsy (sel_week (sel st)) = false) (Hdt : falsy (sel_day (sel st)) = false)
    (Hres : lookupChain (baseData st) (periodId (sel st)) (blockId (sel st))
              (sel_week (sel st)) (sel_day (sel st)) (exerciseId (sel st))
            = Some (p, b, w, d, ex)) :
  ∃ l1 x l2 e0,
    exercises d = l1 ++ x :: l2
    ∧ exercise_matches (exerciseId (sel st)) x = true
    ∧ Forall (fun y => exercise_matches (exerciseId (sel st)) y = false) l1
    ∧ head (push_if_empty placeholderExercise (l1 ++ l2)) = Some e0
    ∧ (ex_id e0 ≠ "" →
       removeExercise st
       = Completed
           (State
              (put_period (periodId (sel st))
                 (put_block (blockId (sel st))
                    (put_week (sel_week (sel st))
                       (put_day (sel_day (sel st))
                          (Day (day_num d) (label d)
                               (push_if_empty placeholderExercise (l1 ++ l2))) w) b) p)
                 (baseData st))
              (delete (selKey (sel st)) (edits st))
              (Selection (periodId (sel st)) (blockId (sel st)) (sel_week (sel st))
                         (sel_day (sel st)) (LStr (ex_id e0))))).
Proof.
  apply lookupChain_Some in Hres as (Gp & Gb & Gw & Gd & Ge).
  destruct (remove_first_found _ _ _ Ge) as [es Hes].
  destruct (remove_first_split _ _ _ Hes) as (l1 & x & l2 & Hl & -> & Hx & Hl1).
  destruct (push_if_empty_head placeholderExercise (l1 ++ l2)) as [e0 He0].
  exists l1, x, l2, e0. split_and!; try done. intros Hid.
  unfold removeExercise. cbv zeta. rewrite Gp, Gb, Gw, Gd, Hes.
  set (pid := periodId (sel st)) in *. set (bid := blockId (sel st)) in *.
  set (wk := sel_week (sel st)) in *. set (dy := sel_day (sel st)) in *.
  set (d1 := Day (day_num d) (label d) (l1 ++ l2)).
  set (d2 := Day (day_num d) (label d) (push_if_empty placeholderExercise (l1 ++ l2))).
  assert (ensureExercise d1 LNull = Some (d2, LStr (ex_id e0))) as E1.
  { unfold ensureExercise. simpl. rewrite He0. done. }
  assert (day_matches dy d1 = true) as Md by (by apply find_true in Gd).
  assert (week_matches wk (put_day dy d1 w) = true) as Mw by (by apply find_true in Gw).
  assert (block_matches bid (put_week wk (put_day dy d1 w) b) = true) as Mb
    by (by apply find_true in Gb).
  assert (period_matches pid (put_block bid (put_week wk (put_day dy d1 w) b) p) = true)
    as Mp by (by apply find_true in Gp).
  assert (ensureDay (put_day dy d1 w) dy LNull = Some (put_day dy d2 w, dy, LStr (ex_id e0)))
    as E2.
  { erewrite ensureDay_found; [|done|by apply (get_put_day w dy d)|exact E1].
    unfold put_day. simpl. by rewrite modify_first_twice. }
  assert (ensureWeek (put_week wk (put_day dy d1 w) b) wk dy LNull
          = Some (put_week wk (put_day dy d2 w) b, wk, dy, LStr (ex_id e0))) as E3.
  { erewrite ensureWeek_found; [|done|by apply (get_put_week b wk w)|exact E2].
    unfold put_week. simpl. by rewrite modify_first_twice. }
  assert (ensureBlock (put_block bid (put_week wk (put_day dy d1 w) b) p) bid wk dy LNull
          = Some (put_block bid (put_week wk (put_day dy d2 w) b) p, bid, wk, dy,
                  LStr (ex_id e0))) as E4.
  { erewrite ensureBlock_found; [|done|by apply (get_put_block p bid b)|exact E3].
    unfold put_block. simpl. by rewrite modify_first_twice. }
  unfold finish, ensureSelected. simpl.
  erewrite (ensureSelection_found _ (Selection pid bid wk dy LNull));
    [|done|by apply (get_put_period (baseData st) pid p)|exact E4].
  simpl. unfold put_period at 1. simpl. rewrite modify_first_twice by done.
  rewrite renderNav_truthy; simpl; try done. destruct (ex_id e0); done.
Qed.

Lemma removeExercise_moves_to_first_witness :
  ∃ st', removeExercise (State sampleDoc ∅ sampleSel) = Completed st'
    ∧ exerciseId (sel st') = LStr "exercise-1".
Proof.
  destruct (removeExercise_moves_to_first (State sampleDoc ∅ sampleSel) _ _ _ _ _
              eq_refl eq_refl eq_refl eq_refl eq_refl)
    as (l1 & x & l2 & e0 & Hl & Hx & Hl1 & He0 & H).
  destruct l1 as [|y l1].
  - simpl in Hl. injection Hl as <- <-. simpl in He0. injection He0 as <-.
    eexists. split; [by apply H|]. done.
  - simpl in Hl. injection Hl as _ Hl. by destruct l1.
Defined.

(** ** The recent edits of the overview *)

Lemma recentCandidates_elem keys ed r :
  r ∈ recentCandidates keys ed ↔
  ∃ k pt, k ∈ keys ∧ ed !! k = Some pt ∧ r = recentItem k pt ∧ recentListed r = true.
Proof.
  unfold recentCandidates. rewrite list_elem_of_In, filter_In, <- list_elem_of_In.
  rewrite list_elem_of_omap. split.
  - intros [(k & Hk & Hr) Hl]. destruct (ed !! k) as [pt|] eqn:E; simpl in Hr; [|done].
    injection Hr as <-. by exists k, pt.
  - intros (k & pt & Hk & E & -> & Hl). split; [|done]. exists k. by rewrite E.
Qed.

(** X21: the rows of the recent edits.  The rows that reach the loop of
    [renderOverview] are at most twelve of the objects [{k, ...edits[k]}] of
    the overlay keys whose patch has a truthy [updatedAt].  For the row of a
    key that encodes a locator whose slugs hold no bar, and whose patch has
    no field named [k], the body of the loop resolves the entry
    [getPatchedEntry] gives for the locator itself (the row is skipped when
    there is none), and the route of its Open button is the one [makeHash]
    gives for the locator.  A patch that has a field [k] is decoded from that
    field instead of the key: from its text when it is a string, and with a
    TypeError otherwise. *)
Theorem overview_finds_entry (L : locator) (doc : document)
    (ed : gmap string (gmap string jsval)) (pt : gmap string jsval)
    (Hbar : bar_free L) (Hk : pt !! "k" = None) :
  overviewRow doc ed (recentItem (encode L) pt)
  = match getPatchedEntry doc ed (LStr (loc_period L)) (LNum (Fin (Int (loc_block L))))
                          (LNum (Fin (Int (loc_week L)))) (LNum (Fin (Int (loc_day L))))
                          (LStr (loc_exercise L)) with
    | Some e => Drawn e
    | None => Skipped
    end
  ∧ (let '(pid, bid, wk, dy, eid) := splitKey (encode L) in makeHash pid bid wk dy eid)
    = makeHash (LStr (loc_period L)) (LNum (Fin (Int (loc_block L))))
               (LNum (Fin (Int (loc_week L)))) (LNum (Fin (Int (loc_day L))))
               (LStr (loc_exercise L))
  ∧ (∀ keys r, r ∈ recentCandidates keys ed ↔
       ∃ k pt', k ∈ keys ∧ ed !! k = Some pt' ∧ r = recentItem k pt'
                ∧ truthy (default VUndef (pt' !! "updatedAt")) = true)
  ∧ (∀ hostSort keys rows,
       (∀ l l', hostSort l = Some l' → l' ≡ₚ l) →
       recentRows hostSort keys ed = Some rows →
       length rows ≤ 12 ∧ ∀ r, r ∈ rows → r ∈ recentCandidates keys ed)
  ∧ (∀ k pt' v, pt' !! "k" = Some v →
       overviewRow doc ed (recentItem k pt')
       = match v with
         | VStr s => match overviewEntry doc ed s with
                     | Some e => Drawn e
                     | None => Skipped
                     end
         | _ => Raised
         end).
Proof.
  split_and!.
  - unfold overviewRow, recentItem. rewrite lookup_union_r by done.
    rewrite lookup_singleton_eq. unfold overviewEntry, splitKey.
    rewrite (encode_split L Hbar). simpl. by rewrite !stringToNumber_decimal.
  - unfold splitKey. rewrite (encode_split L Hbar). reflexivity.
  - intros keys r. rewrite recentCandidates_elem. split.
    + intros (k & pt' & Hin & E & -> & Hl). exists k, pt'. split_and!; try done.
      unfold recentListed, recentItem in Hl.
      destruct (pt' !! "updatedAt") as [u|] eqn:Eu.
      * by rewrite (lookup_union_Some_l _ _ _ _ Eu) in Hl.
      * rewrite lookup_union_r in Hl by done. by rewrite lookup_singleton_ne in Hl.
    + intros (k & pt' & Hin & E & -> & Hl). exists k, pt'. split_and!; try done.
      unfold recentListed, recentItem.
      destruct (pt' !! "updatedAt") as [u|] eqn:Eu; [|done].
      by rewrite (lookup_union_Some_l _ _ _ _ Eu).
  - intros hostSort keys rows Hperm Hrows. unfold recentRows in Hrows.
    destruct (hostSort (recentCandidates keys ed)) as [l'|] eqn:Hs; [|done].
    simpl in Hrows. injection Hrows as <-. split.
    + rewrite length_take. lia.
    + intros r Hr. rewrite <- (Hperm _ _ Hs). by apply (subseteq_take 12 l').
  - intros k pt' v Hv. unfold overviewRow, recentItem.
    rewrite (lookup_union_Some_l _ _ _ _ Hv). by destruct v.
Qed.

Lemma overview_finds_entry_witness :
  overviewRow sampleDoc (edits sampleState)
    (recentItem (encode (Locator "serie-1-2026" 1 1 1 "squat"))
       {["updatedAt" := VStr "2026-01-01T10:00:00.000Z"]})
  = match getPatchedEntry sampleDoc (edits sampleState) (LStr "serie-1-2026")
                          (LNum (Fin (Int 1))) (LNum (Fin (Int 1))) (LNum (Fin (Int 1)))
                          (LStr "squat") with
    | Some e => Drawn e
    | None => Skipped
    end.
Proof.
  apply (overview_finds_entry (Locator "serie-1-2026" 1 1 1 "squat") sampleDoc
           (edits sampleState) {["updatedAt" := VStr "2026-01-01T10:00:00.000Z"]}).
  - split; reflexivity.
  - reflexivity.
Defined.

(** ** Where the selection lands after a new period *)

Lemma find_app_last {A} (P : A → bool) l x :
  existsb P l = false → P x = true → find P (l ++ [x]) = Some x.
Proof.
  intros Hl Hx. induction l as [|y r IH]; simpl in *; [by rewrite Hx|].
  apply orb_false_iff in Hl as [-> Hr]. auto.
Qed.

Lemma modify_first_app_last {A} (P : A → bool) l x c :
  existsb P l = false → P x = true →
  modify_first P (fun _ => c) (l ++ [x]) = l ++ [c].
Proof.
  intros Hl Hx. induction l as [|y r IH]; simpl in *; [by rewrite Hx|].
  apply orb_false_iff in Hl as [-> Hr]. by rewrite IH.
Qed.

(** X22: btnAddPeriod with a name whose slug is not empty and not yet the id
    of a period.  The handler completes; the document is the old one followed
    by the new period, which [ensureSelected] has filled with block 1, week
    1, day 1 and the placeholder exercise; the selection is on that chain;
    the overlay is untouched. *)
Theorem addPeriod_selects_new (lc : string → string → Z) (input : string) (st : state)
    (Hid : slugify (trim input) ≠ "")
    (Hnew : existsb (fun p => String.eqb (period_id p) (slugify (trim input)))
                    (periods (baseData st)) = false) :
  handle lc (AddPeriod input) st
  = Completed
      (State
         (Document
            (periods (baseData st)
             ++ [Period (slugify (trim input)) (trim input)
                   [Block (Int 1) [Week (Int 1) [Day (Int 1) "Day 1" [placeholderExercise]]]]]))
         (edits st)
         (Selection (LStr (slugify (trim input))) (LNum (Fin (Int 1))) (LNum (Fin (Int 1)))
                    (LNum (Fin (Int 1))) (LStr "exercise-1"))).
Proof.
  assert (String.eqb (trim input) "" = false) as Hv.
  { destruct (String.eqb_spec (trim input) "") as [E|]; [|done].
    rewrite E in Hid. by vm_compute in Hid. }
  simpl. unfold addPeriod. cbv zeta. rewrite Hv, Hnew.
  set (id := slugify (trim input)) in *. set (name := trim input) in *.
  set (new := Period id name []).
  set (full := Period id name
                 [Block (Int 1) [Week (Int 1) [Day (Int 1) "Day 1" [placeholderExercise]]]]).
  assert (existsb (period_matches (LStr id)) (periods (baseData st)) = false) as Hnew'
    by exact Hnew.
  assert (period_matches (LStr id) new = true) as Hm by apply period_matches_self.
  unfold finish, ensureSelected. simpl.
  rewrite (ensureSelection_found (Document (periods (baseData st) ++ [new]))
             (Selection (LStr id) LNull LNull LNull LNull) new full
             (LNum (Fin (Int 1))) (LNum (Fin (Int 1))) (LNum (Fin (Int 1)))
             (LStr "exercise-1")).
  - simpl. unfold put_period. simpl. rewrite modify_first_app_last by done.
    rewrite renderNav_truthy; try done. simpl. by apply falsy_str.
  - simpl. by apply falsy_str.
  - unfold getPeriod. simpl. by apply find_app_last.
  - reflexivity.
Qed.

Lemma addPeriod_selects_new_witness :
  ∃ st', handle lengthCompare (AddPeriod " Serie 2 ") sampleState = Completed st'
    ∧ periodId (sel st') = LStr "serie-2".
Proof.
  eexists. split.
  - apply (addPeriod_selects_new lengthCompare " Serie 2 " sampleState).
    + vm_compute. discriminate.
    + vm_compute. reflexivity.
  - simpl. vm_compute. reflexivity.
Defined.

(** ** The merge against the algorithm of the specification *)

Lemma find_ext {A} (P Q : A → bool) l : (∀ x, P x = Q x) → find P l = find Q l.
Proof. intros H. induction l as [|x r IH]; simpl; [done|]. by rewrite H, IH. Qed.

Lemma lookupChain_decimal c pid zb zw zd eid :
  lookupChain c (LStr pid) (LStr (decimal zb)) (LStr (decimal zw)) (LStr (decimal zd))
              (LStr eid)
  = lookupChain c (LStr pid) (LNum (Fin (Int zb))) (LNum (Fin (Int zw)))
                (LNum (Fin (Int zd))) (LStr eid).
Proof.
  unfold lookupChain.
  destruct (getPeriod c (LStr pid)) as [p|]; simpl; [|done].
  change (getBlock p (LStr (decimal zb))) with (getBlock p (LNum (Fin (Int zb)))).
  destruct (getBlock p (LNum (Fin (Int zb)))) as [b|]; simpl; [|done].
  assert (getWeek b (LStr (decimal zw)) = getWeek b (LNum (Fin (Int zw)))) as ->.
  { apply find_ext. intros x. unfold week_matches. simpl.
    by rewrite stringToNumber_decimal. }
  destruct (getWeek b (LNum (Fin (Int zw)))) as [w|]; simpl; [|done].
  assert (getDay w (LStr (decimal zd)) = getDay w (LNum (Fin (Int zd)))) as ->.
  { apply find_ext. intros x. unfold day_matches. simpl.
    by rewrite stringToNumber_decimal. }
  done.
Qed.

Lemma spec_decode_encode L :
  bar_free L →
  spec_decode (encode L)
  = Some (LStr (loc_period L), LStr (decimal (loc_block L)), LStr (decimal (loc_week L)),
          LStr (decimal (loc_day L)), LStr (loc_exercise L)).
Proof. intros H. unfold spec_decode. by rewrite (encode_split L H). Qed.

Lemma spec_applyPatch_patchExercise pt ex : spec_applyPatch pt ex = patchExercise pt ex.
Proof.
  unfold spec_applyPatch, patchExercise, spec_field. f_equal.
  - by destruct (pt !! "work") as [[]|].
  - by destruct (pt !! "videos") as [[]|].
  - by destruct (pt !! "lifterComment") as [[]|].
  - by destruct (pt !! "coachComment") as [[]|].
  - by destruct (pt !! "updatedAt") as [[]|].
Qed.

(** The key of an exercise of a well-formed document is the encoding of its
    own locator. *)
Lemma exerciseKey_encode p b w d e :
  scale (block_id b) = 0 → scale (week_num w) = 0 → scale (day_num d) = 0 →
  exerciseKey p b w d e
  = encode (Locator (period_id p) (mant (block_id b)) (mant (week_num w))
                    (mant (day_num d)) (ex_id e)).
Proof.
  intros Hb Hw Hd. unfold exerciseKey, encode. simpl.
  by rewrite <- (integer_num _ Hb), <- (integer_num _ Hw), <- (integer_num _ Hd).
Qed.

(** In a well-formed document, the exercises stored under the key of a
    locator whose slugs hold no bar are those the five tests of the accessor
    accept. *)
Lemma key_matches L p b w d e :
  bar_free L →
  scale (block_id b) = 0 → scale (week_num w) = 0 → scale (day_num d) = 0 →
  exerciseKey p b w d e = encode L ↔
  period_matches (LStr (loc_period L)) p = true
  ∧ block_matches (LStr (decimal (loc_block L))) b = true
  ∧ week_matches (LStr (decimal (loc_week L))) w = true
  ∧ day_matches (LStr (decimal (loc_day L))) d = true
  ∧ exercise_matches (LStr (loc_exercise L)) e = true.
Proof.
  intros Hbar Hb Hw Hd. rewrite (exerciseKey_encode p b w d e Hb Hw Hd).
  unfold period_matches, block_matches, week_matches, day_matches, exercise_matches.
  simpl. rewrite !stringToNumber_decimal. simpl.
  rewrite (integer_num _ Hb), (integer_num _ Hw), (integer_num _ Hd). simpl.
  rewrite !numToString_Int.
  split.
  - intros E. apply (encode_inj L _ Hbar) in E. rewrite <- E. simpl.
    rewrite !String.eqb_refl. split_and!; try done; apply num_eqb_refl.
  - intros (E1 & E2 & E3 & E4 & E5).
    apply String.eqb_eq in E1, E2, E5. apply decimal_inj in E2.
    apply integer_value_inj in E3; [|done|done]. apply integer_value_inj in E4; [|done|done].
    injection E3 as E3. injection E4 as E4.
    destruct L as [lp lb lw ld le]. simpl in *. by subst.
Qed.

Lemma modify_first_map {A} (P : A → bool) (h g g' : A → A) l :
  (∀ x, P (g x) = P x) →
  (∀ x, x ∈ l → P x = true → h (g x) = g' x) →
  (∀ x, x ∈ l → P x = false → g x = g' x) →
  (∀ l1 x l2 y, l = l1 ++ x :: l2 → P x = true → y ∈ l2 → P y = false) →
  modify_first P h (map g l) = map g' l.
Proof.
  intros HP Hhit Hmiss Hone. induction l as [|x r IH]; simpl; [done|].
  rewrite HP. destruct (P x) eqn:Px.
  - rewrite (Hhit x) by (done || apply list_elem_of_here). f_equal.
    apply map_ext_elem. intros y Hy. apply Hmiss; [by apply list_elem_of_further|].
    by apply (Hone [] x r y).
  - rewrite (Hmiss x) by (done || apply list_elem_of_here). f_equal.
    apply IH.
    + intros y Hy. apply Hhit. by apply list_elem_of_further.
    + intros y Hy. apply Hmiss. by apply list_elem_of_further.
    + intros l1 z l2 y -> Pz Hy. by apply (Hone (x :: l1) z l2 y).
Qed.

Lemma at_most_one {A B} (idf : A → B) (P : A → bool) l :
  NoDup (map idf l) →
  (∀ x y, x ∈ l → y ∈ l → P x = true → P y = true → idf x = idf y) →
  ∀ l1 x l2 y, l = l1 ++ x :: l2 → P x = true → y ∈ l2 → P y = false.
Proof.
  intros Hnd Hid l1 x l2 y -> Px Hy. destruct (P y) eqn:Py; [|done]. exfalso.
  rewrite map_app in Hnd. apply NoDup_app in Hnd as (_ & _ & Hnd).
  simpl in Hnd. apply NoDup_cons in Hnd as [Hx _]. apply Hx.
  rewrite (Hid x y); [| | |done|done].
  - apply list_elem_of_In, in_map. by apply list_elem_of_In.
  - apply elem_of_app. right. apply list_elem_of_here.
  - apply elem_of_app. right. by apply list_elem_of_further.
Qed.

Section Overwrite.
Context (m : gmap string (gmap string jsval)) (pt : gmap string jsval) (L : locator).
Hypothesis Hbar : bar_free L.
Hypothesis Hfree : m !! encode L = None.

Let Pp := period_matches (LStr (loc_period L)).
Let Pb := block_matches (LStr (decimal (loc_block L))).
Let Pw := week_matches (LStr (decimal (loc_week L))).
Let Pd := day_matches (LStr (decimal (loc_day L))).
Let Pe := exercise_matches (LStr (loc_exercise L)).
Let m' := <[encode L := pt]> m.

Lemma mergeExercise_hit p b w d e :
  exerciseKey p b w d e = encode L →
  spec_applyPatch pt (mergeExercise m p b w d e) = mergeExercise m' p b w d e.
Proof.
  intros E. unfold mergeExercise, m'. rewrite E, Hfree, lookup_insert_eq.
  apply spec_applyPatch_patchExercise.
Qed.

Lemma mergeExercise_miss p b w d e :
  exerciseKey p b w d e ≠ encode L →
  mergeExercise m p b w d e = mergeExercise m' p b w d e.
Proof. intros E. unfold mergeExercise, m'. by rewrite lookup_insert_ne. Qed.

Lemma overwrite_exercises p b w d :
  scale (block_id b) = 0 → scale (week_num w) = 0 → wf_day d →
  Pp p = true → Pb b = true → Pw w = true → Pd d = true →
  modify_first Pe (spec_applyPatch pt) (map (mergeExercise m p b w d) (exercises d))
  = map (mergeExercise m' p b w d) (exercises d).
Proof.
  intros Hb Hw [Hd Hnd] Mp Mb Mw Md. apply modify_first_map.
  - intros e. unfold Pe, exercise_matches. by rewrite mergeExercise_id.
  - intros e _ Me. apply mergeExercise_hit. by apply key_matches.
  - intros e _ Me. apply mergeExercise_miss. intros E.
    apply key_matches in E as (_ & _ & _ & _ & E); [|done..].
    fold Pe in E. congruence.
  - apply (at_most_one ex_id); [done|].
    intros x y _ _ Hx Hy. unfold Pe, exercise_matches in Hx, Hy. simpl in Hx, Hy.
    apply String.eqb_eq in Hx, Hy. congruence.
Qed.

Lemma same_day p b w d :
  scale (block_id b) = 0 → scale (week_num w) = 0 → wf_day d →
  Pp p && Pb b && Pw w && Pd d = false →
  mergeDay m p b w d = mergeDay m' p b w d.
Proof.
  intros Hb Hw [Hd _] Hn. unfold mergeDay. f_equal. apply map_ext_elem. intros e _.
  apply mergeExercise_miss. intros E.
  apply key_matches in E as (E1 & E2 & E3 & E4 & _); [|done..].
  fold Pp in E1. fold Pb in E2. fold Pw in E3. fold Pd in E4.
  by rewrite E1, E2, E3, E4 in Hn.
Qed.

Lemma overwrite_days p b w :
  scale (block_id b) = 0 → wf_week w →
  Pp p = true → Pb b = true → Pw w = true →
  modify_first Pd
    (fun d => Day (day_num d) (label d)
                  (modify_first Pe (spec_applyPatch pt) (exercises d)))
    (map (mergeDay m p b w) (days w))
  = map (mergeDay m' p b w) (days w).
Proof.
  intros Hb (Hw & Hnd & Hfd) Mp Mb Mw.
  pose proof (proj1 (Forall_forall _ _) Hfd) as Hwd.
  apply modify_first_map.
  - done.
  - intros d Hd Md. unfold mergeDay. simpl. f_equal.
    apply overwrite_exercises; auto.
  - intros d Hd Md. apply same_day; auto.
    fold Pd in Md. by rewrite Mp, Mb, Mw, Md.
  - apply (at_most_one day_num); [done|].
    intros x y Hx Hy Mx My. unfold Pd, day_matches in Mx, My. simpl in Mx, My.
    rewrite stringToNumber_decimal in Mx, My.
    destruct (Hwd x Hx) as [Sx _]. destruct (Hwd y Hy) as [Sy _].
    apply integer_value_inj in Mx; [|done|done].
    apply integer_value_inj in My; [|done|done]. congruence.
Qed.

Lemma same_week p b w :
  scale (block_id b) = 0 → wf_week w →
  Pp p && Pb b && Pw w = false →
  mergeWeek m p b w = mergeWeek m' p b w.
Proof.
  intros Hb (Hw & _ & Hfd) Hn. unfold mergeWeek. f_equal. apply map_ext_elem.
  intros d Hd. apply same_day; auto.
  - by apply (proj1 (Forall_forall _ _) Hfd).
  - by rewrite Hn.
Qed.

Lemma overwrite_weeks p b :
  wf_block b → Pp p = true → Pb b = true →
  modify_first Pw
    (fun w => Week (week_num w)
       (modify_first Pd
          (fun d => Day (day_num d) (label d)
                        (modify_first Pe (spec_applyPatch pt) (exercises d)))
          (days w)))
    (map (mergeWeek m p b) (weeks b))
  = map (mergeWeek m' p b) (weeks b).
Proof.
  intros (Hb & Hnd & Hfw) Mp Mb.
  pose proof (proj1 (Forall_forall _ _) Hfw) as Hww.
  apply modify_first_map.
  - done.
  - intros w Hw Mw. unfold mergeWeek. simpl. f_equal.
    apply overwrite_days; auto.
  - intros w Hw Mw. apply same_week; auto.
    fold Pw in Mw. by rewrite Mp, Mb, Mw.
  - apply (at_most_one week_num); [done|].
    intros x y Hx Hy Mx My. unfold Pw, week_matches in Mx, My. simpl in Mx, My.
    rewrite stringToNumber_decimal in Mx, My.
    destruct (Hww x Hx) as [Sx _]. destruct (Hww y Hy) as [Sy _].
    apply integer_value_inj in Mx; [|done|done].
    apply integer_value_inj in My; [|done|done]. congruence.
Qed.

Lemma same_block p b :
  wf_block b → Pp p && Pb b = false → mergeBlock m p b = mergeBlock m' p b.
Proof.
  intros (Hb & _ & Hfw) Hn. unfold mergeBlock. f_equal. apply map_ext_elem.
  intros w Hw. apply same_week; auto.
  - by apply (proj1 (Forall_forall _ _) Hfw).
  - by rewrite Hn.
Qed.

Lemma overwrite_blocks p :
  wf_period p → Pp p = true →
  modify_first Pb
    (fun b => Block (block_id b)
       (modify_first Pw
          (fun w => Week (week_num w)
             (modify_first Pd
                (fun d => Day (day_num d) (label d)
                              (modify_first Pe (spec_applyPatch pt) (exercises d)))
                (days w)))
          (weeks b)))
    (map (mergeBlock m p) (blocks p))
  = map (mergeBlock m' p) (blocks p).
Proof.
  intros (Hnd & Hfb) Mp.
  pose proof (proj1 (Forall_forall _ _) Hfb) as Hwb.
  apply modify_first_map.
  - done.
  - intros b Hb Mb. unfold mergeBlock. simpl. f_equal.
    apply overwrite_weeks; auto.
  - intros b Hb Mb. apply same_block; auto.
    fold Pb in Mb. by rewrite Mp, Mb.
  - apply (at_most_one block_id); [done|].
    intros x y Hx Hy Mx My. unfold Pb, block_matches in Mx, My. simpl in Mx, My.
    apply String.eqb_eq in Mx, My.
    destruct (Hwb x Hx) as [Sx _]. destruct (Hwb y Hy) as [Sy _].
    apply integer_print_inj; [done|done|congruence].
Qed.

Lemma same_period p :
  wf_period p → Pp p = false → mergePeriod m p = mergePeriod m' p.
Proof.
  intros (_ & Hfb) Hn. unfold mergePeriod. f_equal. apply map_ext_elem.
  intros b Hb. apply same_block; auto.
  - by apply (proj1 (Forall_forall _ _) Hfb).
  - by rewrite Hn.
Qed.

Lemma overwrite_document c :
  wf_document c →
  spec_overwrite pt (LStr (loc_period L)) (LStr (decimal (loc_block L)))
                 (LStr (decimal (loc_week L))) (LStr (decimal (loc_day L)))
                 (LStr (loc_exercise L)) (mergeLoops m c)
  = mergeLoops m' c.
Proof.
  intros (Hnd & Hfp).
  pose proof (proj1 (Forall_forall _ _) Hfp) as Hwp.
  unfold spec_overwrite, mergeLoops. simpl. f_equal.
  apply modify_first_map.
  - done.
  - intros p Hp Mp. unfold mergePeriod. simpl. f_equal.
    apply overwrite_blocks; auto.
  - intros p Hp Mp. apply same_period; auto.
  - apply (at_most_one period_id); [done|].
    intros x y _ _ Mx My. unfold period_matches in Mx, My. simpl in Mx, My.
    apply String.eqb_eq in Mx, My. congruence.
Qed.

Lemma unresolved_document c :
  wf_document c →
  lookupChain c (LStr (loc_period L)) (LStr (decimal (loc_block L)))
              (LStr (decimal (loc_week L))) (LStr (decimal (loc_day L)))
              (LStr (loc_exercise L)) = None →
  mergeLoops m' c = mergeLoops m c.
Proof.
  intros Hwf Hnone. apply mergeLoops_ext. intros k Hk.
  unfold m'. rewrite lookup_insert_ne; [done|]. intros <-.
  unfold exercise_keys in Hk.
  apply elem_of_flat_map in Hk as (p & Hp & Hk).
  apply elem_of_flat_map in Hk as (b & Hb & Hk).
  apply elem_of_flat_map in Hk as (w & Hw & Hk).
  apply elem_of_flat_map in Hk as (d & Hd & Hk).
  apply list_elem_of_In, in_map_iff in Hk as (e & Hk & He).
  apply list_elem_of_In in He.
  destruct Hwf as [Hnp Hfp].
  pose proof (proj1 (Forall_forall _ _) Hfp p Hp) as [Hnb Hfb].
  pose proof (proj1 (Forall_forall _ _) Hfb b Hb) as (Hsb & Hnw & Hfw).
  pose proof (proj1 (Forall_forall _ _) Hfw w Hw) as (Hsw & Hndd & Hfd).
  pose proof (proj1 (Forall_forall _ _) Hfd d Hd) as (Hsd & Hne).
  apply key_matches in Hk as (M1 & M2 & M3 & M4 & M5); [|done..].
  assert (lookupChain c (LStr (loc_period L)) (LStr (decimal (loc_block L)))
            (LStr (decimal (loc_week L))) (LStr (decimal (loc_day L)))
            (LStr (loc_exercise L)) = Some (p, b, w, d, e)) as Hc; [|congruence].
  apply lookupChain_Some. split_and!.
  - apply (find_unique period_id); [done|done|done|].
    intros y _ My. unfold period_matches in My, M1. simpl in My, M1.
    apply String.eqb_eq in My, M1. congruence.
  - apply (find_unique block_id); [done|done|done|].
    intros y Hy My. unfold block_matches in My, M2. simpl in My, M2.
    apply String.eqb_eq in My, M2.
    pose proof (proj1 (Forall_forall _ _) Hfb y Hy) as (Hsy & _).
    apply integer_print_inj; [done|done|congruence].
  - apply (find_unique week_num); [done|done|done|].
    intros y Hy My. unfold week_matches in My, M3. simpl in My, M3.
    rewrite stringToNumber_decimal in My, M3.
    pose proof (proj1 (Forall_forall _ _) Hfw y Hy) as (Hsy & _).
    apply integer_value_inj in My; [|done|done].
    apply integer_value_inj in M3; [|done|done]. congruence.
  - apply (find_unique day_num); [done|done|done|].
    intros y Hy My. unfold day_matches in My, M4. simpl in My, M4.
    rewrite stringToNumber_decimal in My, M4.
    pose proof (proj1 (Forall_forall _ _) Hfd y Hy) as (Hsy & _).
    apply integer_value_inj in My; [|done|done].
    apply integer_value_inj in M4; [|done|done]. congruence.
  - apply (find_unique ex_id); [done|done|done|].
    intros y _ My. unfold exercise_matches in My, M5. simpl in My, M5.
    apply String.eqb_eq in My, M5. congruence.
Qed.

Lemma spec_mergeStep_mergeLoops c :
  wf_document c →
  spec_mergeStep (encode L) pt (mergeLoops m c) = mergeLoops m' c.
Proof.
  intros Hwf. unfold spec_mergeStep. rewrite (spec_decode_encode L Hbar).
  rewrite mergeLoops_lookupChain.
  destruct (lookupChain c (LStr (loc_period L)) (LStr (decimal (loc_block L)))
              (LStr (decimal (loc_week L))) (LStr (decimal (loc_day L)))
              (LStr (loc_exercise L))) as [[[[[p b] w] d] e]|] eqn:Hc; simpl.
  - by apply overwrite_document.
  - symmetry. by apply unresolved_document.
Qed.

End Overwrite.

Lemma wf_deepClone doc : wf_document doc → wf_document (deepClone doc).
Proof.
  assert (∀ d, wf_day d → wf_day (cloneDay d)) as Hd.
  { intros d [Hs Hn]. split; [done|]. simpl. by rewrite map_map. }
  assert (∀ w, wf_week w → wf_week (cloneWeek w)) as Hw.
  { intros w (Hs & Hn & Hf). split_and!; [done| |]; simpl.
    - by rewrite map_map.
    - apply Forall_forall. intros x Hx.
      apply list_elem_of_In, in_map_iff in Hx as (y & <- & Hy). apply Hd.
      apply (proj1 (Forall_forall _ _) Hf). by apply list_elem_of_In. }
  assert (∀ b, wf_block b → wf_block (cloneBlock b)) as Hb.
  { intros b (Hs & Hn & Hf). split_and!; [done| |]; simpl.
    - by rewrite map_map.
    - apply Forall_forall. intros x Hx.
      apply list_elem_of_In, in_map_iff in Hx as (y & <- & Hy). apply Hw.
      apply (proj1 (Forall_forall _ _) Hf). by apply list_elem_of_In. }
  assert (∀ p, wf_period p → wf_period (clonePeriod p)) as Hp.
  { intros p (Hn & Hf). split; simpl.
    - by rewrite map_map.
    - apply Forall_forall. intros x Hx.
      apply list_elem_of_In, in_map_iff in Hx as (y & <- & Hy). apply Hb.
      apply (proj1 (Forall_forall _ _) Hf). by apply list_elem_of_In. }
  intros (Hn & Hf). split; simpl.
  - by rewrite map_map.
  - apply Forall_forall. intros x Hx.
    apply list_elem_of_In, in_map_iff in Hx as (y & <- & Hy). apply Hp.
    apply (proj1 (Forall_forall _ _) Hf). by apply list_elem_of_In.
Qed.

Lemma split_has_char c s : has_char c s = true → 2 ≤ length (split c s).
Proof.
  unfold has_char. rewrite negb_true_iff.
  induction s as [|a r IH]; simpl; [done|].
  destruct (Ascii.eqb a c) eqn:E; simpl.
  - intros _. pose proof (split_length_pos c r). lia.
  - intros H. specialize (IH H). destruct (split c r) as [|h t]; simpl in *; lia.
Qed.

Lemma five_segments_bar_free L : length (split "|" (encode L)) = 5 → bar_free L.
Proof.
  rewrite encode_unfold, split_join5, !length_app.
  rewrite !(split_no_sep _ _ (decimal_no_bar _)). simpl.
  intros H. split.
  - destruct (has_char "|" (loc_period L)) eqn:E; [|done].
    apply split_has_char in E. pose proof (split_length_pos "|" (loc_exercise L)). lia.
  - destruct (has_char "|" (loc_exercise L)) eqn:E; [|done].
    apply split_has_char in E. pose proof (split_length_pos "|" (loc_period L)). lia.
Qed.

Lemma spec_steps_mergeLoops c (l : list (string * gmap string jsval)) :
  wf_document c → NoDup (l.*1) →
  (∀ k pt, (k, pt) ∈ l → ∃ L, k = encode L ∧ length (split "|" k) = 5) →
  foldr (fun kp acc => spec_mergeStep kp.1 kp.2 acc) c l = mergeLoops (list_to_map l) c.
Proof.
  intros Hc. induction l as [|[k pt] r IH]; intros Hnd Hkeys; simpl.
  - symmetry. apply mergeLoops_empty.
  - apply NoDup_cons in Hnd as [Hk Hnd].
    destruct (Hkeys k pt) as (L & -> & Hfive); [apply list_elem_of_here|].
    rewrite IH; [|done|].
    + apply spec_mergeStep_mergeLoops; [|by apply not_elem_of_list_to_map_1|done].
      by apply five_segments_bar_free.
    + intros k' pt' Hin. apply (Hkeys k' pt'). by apply list_elem_of_further.
Qed.

(** C3: for a base document with the uniqueness invariants and an overlay
    whose keys are five-segment encodings of locators, [mergeBaseWithEdits]
    (clone, walk every exercise of the clone, apply the patch stored under
    its key) returns the same document as the algorithm of the specification
    (clone, walk every key of the overlay, decode it, resolve the locator in
    the clone, overwrite the exercise found by the field rule), in whatever
    order the keys are walked.  A patch whose locator does not resolve in the
    clone is left unapplied: its step returns the clone as it is, and the
    merge gives the result it gives without that patch. *)
Theorem merge_refines_spec (doc : document) (ov : gmap string (gmap string jsval))
    (Hwf : wf_document doc)
    (Hkeys : ∀ k, is_Some (ov !! k) → ∃ L, k = encode L ∧ length (split "|" k) = 5) :
  mergeBaseWithEdits doc ov = spec_mergeOverlayIntoBase doc ov
  ∧ (∀ l : list (string * gmap string jsval),
       l ≡ₚ map_to_list ov →
       foldr (fun kp acc => spec_mergeStep kp.1 kp.2 acc) (deepClone doc) l
       = mergeBaseWithEdits doc ov)
  ∧ ∀ L pt,
      ov !! encode L = Some pt → length (split "|" (encode L)) = 5 →
      lookupChain (deepClone doc) (LStr (loc_period L)) (LStr (decimal (loc_block L)))
                  (LStr (decimal (loc_week L))) (LStr (decimal (loc_day L)))
                  (LStr (loc_exercise L)) = None →
      spec_mergeStep (encode L) pt (deepClone doc) = deepClone doc
      ∧ mergeBaseWithEdits doc ov = mergeBaseWithEdits doc (delete (encode L) ov).
Proof.
  pose proof (wf_deepClone doc Hwf) as Hc.
  unfold mergeBaseWithEdits, spec_mergeOverlayIntoBase. split_and!.
  - revert Hkeys.
    apply (map_fold_weak_ind
             (fun r m => (∀ k, is_Some (m !! k) →
                               ∃ L, k = encode L ∧ length (split "|" k) = 5) →
                         mergeLoops m (deepClone doc) = r)).
    + intros _. apply mergeLoops_empty.
    + intros k pt m r Hk IH Hkeys.
      destruct (Hkeys k) as (L & -> & Hfive); [by rewrite lookup_insert_eq|].
      rewrite <- IH.
      * symmetry. apply spec_mergeStep_mergeLoops; [|done|done].
        by apply five_segments_bar_free.
      * intros k' Hk'. apply Hkeys. rewrite lookup_insert_ne; [done|].
        intros <-. rewrite Hk in Hk'. by destruct Hk'.
  - intros l Hl.
    assert (NoDup (l.*1)) as Hnd.
    { rewrite Hl. apply NoDup_fst_map_to_list. }
    rewrite spec_steps_mergeLoops; [|done|done|].
    + by rewrite (list_to_map_proper l (map_to_list ov) Hnd Hl), list_to_map_to_list.
    + intros k pt Hin. apply Hkeys. rewrite Hl in Hin.
      apply elem_of_map_to_list in Hin. by rewrite Hin.
  - intros L pt Hpt Hfive Hnone.
    pose proof (five_segments_bar_free L Hfive) as Hbar. split.
    + unfold spec_mergeStep. by rewrite (spec_decode_encode L Hbar), Hnone.
    + rewrite <- (unresolved_document (delete (encode L) ov) pt L Hbar _ Hc Hnone).
      by rewrite insert_delete_id.
Qed.

Lemma merge_refines_spec_witness :
  mergeBaseWithEdits sampleDoc
    {["serie-1-2026|1|1|1|squat" := {["work" := VStr "8x3"]};
      "serie-1-2026|1|1|2|bench" := {["work" := VStr "3x3"]}]}
  = spec_mergeOverlayIntoBase sampleDoc
      {["serie-1-2026|1|1|1|squat" := {["work" := VStr "8x3"]};
        "serie-1-2026|1|1|2|bench" := {["work" := VStr "3x3"]}]}.
Proof.
  refine (proj1 (merge_refines_spec sampleDoc
           {["serie-1-2026|1|1|1|squat" := {["work" := VStr "8x3"]};
             "serie-1-2026|1|1|2|bench" := {["work" := VStr "3x3"]}]}
           sampleDoc_wf _)).
  intros k [pt Hk]. apply lookup_insert_Some in Hk as [[<- _]|[_ Hk]].
  - exists (Locator "serie-1-2026" 1 1 1 "squat"). split; vm_compute; reflexivity.
  - apply lookup_singleton_Some in Hk as [<- _].
    exists (Locator "serie-1-2026" 1 1 2 "bench"). split; vm_compute; reflexivity.
Defined.
